(** * Robothlon: command transport, device poller and session controller

    A shallow embedding of [robothlon.py] (the PyQt5 control station of a
    laser-tag arena) and the verification of its queueing, polling and
    session logic.

    Definitions:
    - [Py]               the Python primitives the program relies on
                         (exceptions, [str.strip], ["{:d}".format], [int],
                         the [re] fragment used by the info parser);
    - the enumerations, the [Device] record, callbacks, signals, effects;
    - [SettingsManager]  the configuration source;
    - [DeviceManager]    the device registry and poller;
    - [GameManager]      the session controller;
    - [CommandTransport] the serial command queue, its runs and the ledger
                         that states the queue discipline;
    - [Application]      the objects behind the callbacks and the wiring of
                         [main];

    - [DeviceView]       the three device tables and their row bookkeeping.

    Theorems: [PyFacts], [SettingsManagerFacts], [DeviceManagerFacts],
    [GameManagerFacts], [CommandTransportFacts], [DeviceViewFacts].

    Methods keep their Python names.  A method that can raise returns a
    [Res]; a method of a manager returns its new state together with the
    effects ([send_command] calls and signals) it had, in order. *)

From Stdlib Require Import ZArith List String Ascii Lia Bool.
From Stdlib Require Import Decimal DecimalString DecimalN DecimalZ.
From stdpp Require Import gmap.
Import ListNotations.

Local Open Scope Z_scope.

(* ===================================================================== *)
(** * Python primitives *)
(* ===================================================================== *)

Module Py.

(** The exception classes that the modelled code can raise. *)
Inductive exn : Set :=
| IndexError          (* deque index out of range, pop from an empty deque *)
| KeyError            (* [Enum[name]] with an unknown member name *)
| ValueError          (* [Enum(value)] with an unknown value *)
| UnicodeDecodeError. (* [bytes.decode('ascii')] on a byte above 127 *)

Definition exn_eqb (a b : exn) : bool :=
  match a, b with
  | IndexError, IndexError | KeyError, KeyError
  | ValueError, ValueError | UnicodeDecodeError, UnicodeDecodeError => true
  | _, _ => false
  end.

(** Outcome of a computation that returns or raises. *)
Inductive Res (A : Type) : Type :=
| Ok (a : A)
| Raise (e : exn).
Arguments Ok {A} a.
Arguments Raise {A} e.

Definition bind {A B} (m : Res A) (k : A -> Res B) : Res B :=
  match m with
  | Ok a => k a
  | Raise e => Raise e
  end.

(** [try: body except e: handler]; any other exception propagates. *)
Definition try_except {A} (body : Res A) (e : exn) (handler : Res A) : Res A :=
  match body with
  | Ok a => Ok a
  | Raise e' => if exn_eqb e' e then handler else Raise e'
  end.

Definition is_ok {A} (m : Res A) : bool :=
  match m with Ok _ => true | Raise _ => false end.

(** ** Characters and strings *)

Definition CR : ascii := ascii_of_nat 13.
Definition LF : ascii := ascii_of_nat 10.
Definition CRLF : string := String CR (String LF EmptyString).

Definition code (c : ascii) : nat := nat_of_ascii c.

(** [str.isspace] on an ASCII character: TAB, LF, VT, FF, CR,
    FS, GS, RS, US and SPACE. *)
Definition isspace (c : ascii) : bool :=
  ((9 <=? code c) && (code c <=? 13) || (28 <=? code c) && (code c <=? 32))%nat.

(** [\d] under [re.ASCII]. *)
Definition re_digit (c : ascii) : bool :=
  ((48 <=? code c) && (code c <=? 57))%nat.

(** [\s] under [re.ASCII]: [ \t\n\r\f\v]. *)
Definition re_space (c : ascii) : bool :=
  ((9 <=? code c) && (code c <=? 13) || (code c =? 32))%nat.

(** The character class [[\s,]]. *)
Definition re_space_or_comma (c : ascii) : bool :=
  re_space c || (code c =? 44)%nat.

Fixpoint lstrip (s : string) : string :=
  match s with
  | EmptyString => EmptyString
  | String c s' => if isspace c then lstrip s' else s
  end.

Fixpoint rstrip (s : string) : string :=
  match s with
  | EmptyString => EmptyString
  | String c s' =>
      match rstrip s' with
      | EmptyString => if isspace c then EmptyString else String c EmptyString
      | r => String c r
      end
  end.

(** [str.strip()] *)
Definition strip (s : string) : string := rstrip (lstrip s).

Fixpoint all_chars (p : ascii -> bool) (s : string) : bool :=
  match s with
  | EmptyString => true
  | String c s' => p c && all_chars p s'
  end.

(** [bytes(...).decode('ascii')]: the bytes are kept as characters; a byte
    above 127 raises. *)
Definition decode_ascii (raw : string) : Res string :=
  if all_chars (fun c => (code c <? 128)%nat) raw then Ok raw
  else Raise UnicodeDecodeError.

(** ** Integers and text *)

(** ["{:d}".format(n)] *)
Definition format_d (n : Z) : string := NilZero.string_of_int (Z.to_int n).

Definition digit_value (c : ascii) : Z := Z.of_nat (code c) - 48.

Fixpoint int_acc (s : string) (acc : Z) : Z :=
  match s with
  | EmptyString => acc
  | String c s' => int_acc s' (10 * acc + digit_value c)
  end.

(** [int(s)] on a string of ASCII digits (the only strings the program
    converts: groups captured by [(\d+)]). *)
Definition int (s : string) : Z := int_acc s 0.

(** ** The regular-expression fragment of the info parser

    The pattern is a sequence of two kinds of atoms.  Matching follows the
    backtracking semantics of [re]: [+] is greedy and gives characters back
    one at a time when the rest of the pattern fails. *)

Inductive atom : Set :=
| group_digits   (* [(\d+)], capturing *)
| separators.    (* [[\s,]+] *)

Definition regexp := list atom.

Fixpoint plus_greedy {A} (p : ascii -> bool) (s : string)
    (k : string -> string -> option A) : option A :=
  match s with
  | EmptyString => None
  | String c s' =>
      if p c then
        match plus_greedy p s' (fun m rest => k (String c m) rest) with
        | Some r => Some r
        | None => k (String c EmptyString) s'
        end
      else None
  end.

(** [re.compile(r).match(s)]: anchored at the start of [s], nothing is
    required of what follows the last atom.  The result lists the captured
    groups in order. *)
Fixpoint re_match_from (r : regexp) (s : string) (groups : list string)
    : option (list string) :=
  match r with
  | [] => Some (rev groups)
  | group_digits :: r' =>
      plus_greedy re_digit s (fun m rest => re_match_from r' rest (m :: groups))
  | separators :: r' =>
      plus_greedy re_space_or_comma s (fun _ rest => re_match_from r' rest groups)
  end.

Definition re_match (r : regexp) (s : string) : option (list string) :=
  re_match_from r s [].

(** [match.group(i)], [i >= 1]. *)
Definition group (m : list string) (i : nat) : string :=
  nth (i - 1) m EmptyString.

(** A string that is empty or starts outside the class [p]: a run of [p]
    cannot be extended into it. *)
Definition stops (p : ascii -> bool) (s : string) : bool :=
  match s with
  | EmptyString => true
  | String c _ => negb (p c)
  end.

(** ** Dictionaries that are iterated: insertion-ordered association lists *)

Fixpoint dict_set {V} (d : list (string * V)) (k : string) (v : V)
    : list (string * V) :=
  match d with
  | [] => [(k, v)]
  | (k', v') :: d' =>
      if String.eqb k' k then (k, v) :: d' else (k', v') :: dict_set d' k v
  end.

(** [d.get(k)] *)
Fixpoint dict_get {V} (d : list (string * V)) (k : string) : option V :=
  match d with
  | [] => None
  | (k', v') :: d' => if String.eqb k' k then Some v' else dict_get d' k
  end.

(** [str.upper()] on ASCII text. *)
Definition upper_char (c : ascii) : ascii :=
  if ((97 <=? code c) && (code c <=? 122))%nat
  then ascii_of_nat (code c - 32) else c.

Fixpoint upper (s : string) : string :=
  match s with
  | EmptyString => EmptyString
  | String c s' => String (upper_char c) (upper s')
  end.

End Py.

Import Py.

#[global] Instance Res_ret : MRet Res := @Ok.
#[global] Instance Res_bind : MBind Res := fun A B k m => Py.bind m k.

(* ===================================================================== *)
(** * Enumerations and the device record *)
(* ===================================================================== *)

Module DeviceState.
Inductive t : Set :=
| unknown | previous | paused | operational | reload | damaged | destroyed.

Definition value (s : t) : Z :=
  match s with
  | unknown => -1 | previous => 0 | paused => 1 | operational => 2
  | reload => 3 | damaged => 4 | destroyed => 5
  end.

(** [DeviceState(v)]: lookup by value, [ValueError] when there is none. *)
Definition call (v : Z) : Res t :=
  if v =? -1 then Ok unknown else if v =? 0 then Ok previous
  else if v =? 1 then Ok paused else if v =? 2 then Ok operational
  else if v =? 3 then Ok reload else if v =? 4 then Ok damaged
  else if v =? 5 then Ok destroyed else Raise ValueError.

(** The member's [name]. *)
Definition name (s : t) : string :=
  match s with
  | unknown => "unknown" | previous => "previous" | paused => "paused"
  | operational => "operational" | reload => "reload"
  | damaged => "damaged" | destroyed => "destroyed"
  end.
End DeviceState.

Module DeviceType.
Inductive t : Set := tank | target | turret.

Definition value (s : t) : Z :=
  match s with tank => 0 | target => 1 | turret => 2 end.

Definition call (v : Z) : Res t :=
  if v =? 0 then Ok tank else if v =? 1 then Ok target
  else if v =? 2 then Ok turret else Raise ValueError.
End DeviceType.

Module DeviceMode.
Inductive t : Set := training | combat.

Definition value (s : t) : Z :=
  match s with training => 0 | combat => 1 end.

Definition call (v : Z) : Res t :=
  if v =? 0 then Ok training else if v =? 1 then Ok combat
  else Raise ValueError.
End DeviceMode.

Module DeviceParam.
Inductive t : Set :=
| DefaultHitCnt | CurrentHitCnt | Group | IRPower | IRDamage
| ReloadTime | RepairTime.

Definition value (p : t) : Z :=
  match p with
  | DefaultHitCnt => 1 | CurrentHitCnt => 2 | Group => 3 | IRPower => 4
  | IRDamage => 5 | ReloadTime => 6 | RepairTime => 7
  end.

Definition members : list (string * t) :=
  [ ("DefaultHitCnt"%string, DefaultHitCnt);
    ("CurrentHitCnt"%string, CurrentHitCnt);
    ("Group"%string, Group);
    ("IRPower"%string, IRPower);
    ("IRDamage"%string, IRDamage);
    ("ReloadTime"%string, ReloadTime);
    ("RepairTime"%string, RepairTime) ].

Fixpoint lookup_member (l : list (string * t)) (name : string) : option t :=
  match l with
  | [] => None
  | (n, p) :: l' => if String.eqb n name then Some p else lookup_member l' name
  end.

(** [DeviceParam[name]]: lookup by member name; an unknown name raises
    [KeyError] (it is [DeviceParam(value)] that raises [ValueError]). *)
Definition getitem (name : string) : Res t :=
  match lookup_member members name with
  | Some p => Ok p
  | None => Raise KeyError
  end.
End DeviceParam.

Module Device.
Record t : Type := mk {
  id : Z;
  type : DeviceType.t;
  group : Z;
  mode : DeviceMode.t;
  state : DeviceState.t;
  health : Z;
  time : Z;
  missing_in_action : bool
}.

Definition set_missing_in_action (b : bool) (d : t) : t :=
  mk (id d) (type d) (group d) (mode d) (state d) (health d) (time d) b.
End Device.

(* ===================================================================== *)
(** * Callbacks, signals and effects *)
(* ===================================================================== *)

(** The bound methods that are handed to [send_command] as callbacks. *)
Module Callback.
Inductive t : Set :=
| _process_query_response
| _process_set_mode_response
| _process_reset_response
| _process_start_response
| _process_stop_response
| _process_pause_response
| _process_unpause_response.
End Callback.

(** The Qt signals that the managers emit. *)
Module Signal.
Inductive t : Type :=
| device_updated (d : Device.t)
| upload_started
| upload_finished
| game_resetted
| game_started
| game_stopped
| game_paused
| game_unpaused
| enabled
| disabled
| time (text : string)
| message (text : string).
End Signal.

(** What a manager method does to the outside, in program order: calls of
    [self._command_transport.send_command] and emitted signals.  A manager
    never reads the transport, so performing its sends after the method
    returns leaves the transport as performing them in place does. *)
Inductive Effect : Type :=
| send_command (request : string) (callback : option Callback.t)
| emit (signal : Signal.t).

Definition sends (effects : list Effect) : list (string * option Callback.t) :=
  flat_map (fun e => match e with
                     | send_command r c => [(r, c)]
                     | emit _ => []
                     end) effects.

(* ===================================================================== *)
(** * SettingsManager *)
(* ===================================================================== *)

Module SettingsManager.
(** The contents of a [QSettings] INI file as the program reads it: the
    groups by name, each with its keys (in [childKeys()] order) and their
    values already converted by [int].  The file is taken not to change
    while the program runs ([sync()] reads the same contents again). *)
Definition QSettings : Type := list (string * list (string * Z)).

(** [beginGroup(name); childKeys(); value(key)]: a group that the file
    does not have has no keys. *)
Fixpoint group_items (settings : QSettings) (name : string)
    : list (string * Z) :=
  match settings with
  | [] => []
  | (n, items) :: rest =>
      if String.eqb n name then items else group_items rest name
  end.

(** [_settings] is [None] when [load] failed. *)
Record t : Type := mk {
  _settings : option QSettings
}.

(** One [for key in self._settings.childKeys(): params[str(key)] = ...]
    loop. *)
Definition add_group (items : list (string * Z)) (params : list (string * Z))
    : list (string * Z) :=
  fold_left (fun params kv => dict_set params (fst kv) (snd kv)) items params.

Definition get_device_params (self : t) (device_type : DeviceType.t)
    (device_id : Z) : list (string * Z) :=
  let params := [] in
  match _settings self with
  | Some settings =>
      let params := add_group (group_items settings "Default") params in
      let params :=
        add_group
          (group_items settings
             ("Type_" ++ format_d (DeviceType.value device_type))%string)
          params in
      let params :=
        add_group
          (group_items settings ("Device_" ++ format_d device_id)%string)
          params in
      params
  | None => params
  end.

(** What a group assigns to [key]: the loop over the group assigns in
    [childKeys()] order, so the last assignment stands. *)
Definition assigned (items : list (string * Z)) (key : string) : option Z :=
  dict_get (rev items) key.

(** The first of the three that has a value. *)
Definition first_of (a b c : option Z) : option Z :=
  match a, b with
  | Some v, _ => Some v
  | None, Some v => Some v
  | None, None => c
  end.
End SettingsManager.

(* ===================================================================== *)
(** * DeviceManager: device registry and poller *)
(* ===================================================================== *)

Module DeviceManager.

Definition FIRST_DEVICE : Z := 1.
Definition LAST_DEVICE : Z := 31.

Definition field_count : nat := 6.

(** The pattern built by the loop of [__init__]: [(\d+)] six times with
    [[\s,]+] between them, anchored at the start by [match]. *)
Definition info_regexp : regexp :=
  flat_map (fun i => group_digits ::
                     (if (i =? field_count - 1)%nat then [] else [separators]))
           (seq 0 field_count).

Record t : Type := mk {
  _settings_manager : SettingsManager.t;
  _devices : gmap Z Device.t;
  _current_device : Z;
  _upload : bool;
  _first_uploaded : option Z;
  _enabled : bool
}.

Definition set_devices (v : gmap Z Device.t) (self : t) : t :=
  mk (_settings_manager self) v (_current_device self) (_upload self)
     (_first_uploaded self) (_enabled self).
Definition set_current_device (v : Z) (self : t) : t :=
  mk (_settings_manager self) (_devices self) v (_upload self)
     (_first_uploaded self) (_enabled self).
Definition set_upload (v : bool) (self : t) : t :=
  mk (_settings_manager self) (_devices self) (_current_device self) v
     (_first_uploaded self) (_enabled self).
Definition set_first_uploaded (v : option Z) (self : t) : t :=
  mk (_settings_manager self) (_devices self) (_current_device self)
     (_upload self) v (_enabled self).
Definition set_enabled (v : bool) (self : t) : t :=
  mk (_settings_manager self) (_devices self) (_current_device self)
     (_upload self) (_first_uploaded self) v.

(** [__init__] *)
Definition init (settings_manager : SettingsManager.t) : t :=
  mk settings_manager ∅ FIRST_DEVICE false None false.

Definition set_parameter_command (address param_id param_value : Z) : string :=
  ("SetParameter " ++ format_d address ++ ", " ++ format_d param_id ++ ", "
     ++ format_d param_value ++ CRLF)%string.

(** The [for (param_name, param_value) in params.items()] loop. *)
Fixpoint upload_params (current_device : Z) (params : list (string * Z))
    : Res (list Effect) :=
  match params with
  | [] => Ok []
  | (param_name, param_value) :: rest =>
      param_id ← try_except
                   (p ← DeviceParam.getitem param_name;
                    Ok (Some (DeviceParam.value p)))
                   ValueError
                   (Ok None);
      let sent :=
        match param_id with
        | Some param_id =>
            [send_command
               (set_parameter_command current_device param_id param_value)
               None]
        | None => []
        end in
      more ← upload_params current_device rest;
      Ok (sent ++ more)
  end.

Definition get_info_command (address : Z) : string :=
  ("GetInfo " ++ format_d address ++ CRLF)%string.

Definition _query_next_device (self : t) : Res (t * list Effect) :=
  if negb (_enabled self) then Ok (self, [])
  else
    let command := get_info_command (_current_device self) in
    let out := [send_command command (Some Callback._process_query_response)] in
    let '(self, out) :=
      if _upload self then
        match _first_uploaded self with
        | Some first =>
            if first =? _current_device self then
              (set_upload false (set_first_uploaded None self),
               out ++ [emit Signal.upload_finished])
            else (self, out)
        | None => (self, out)
        end
      else (self, out) in
    if _upload self then
      let self :=
        match _first_uploaded self with
        | None => set_first_uploaded (Some (_current_device self)) self
        | Some _ => self
        end in
      match _devices self !! _current_device self with
      | Some device =>
          if negb (Device.missing_in_action device) then
            let params :=
              SettingsManager.get_device_params
                (_settings_manager self) (Device.type device) (Device.id device) in
            uploaded ← upload_params (_current_device self) params;
            Ok (self, out ++ uploaded)
          else Ok (self, out)
      | None => Ok (self, out)
      end
    else Ok (self, out).

Definition enable (self : t) : Res (t * list Effect) :=
  if _enabled self then Ok (self, [])
  else _query_next_device (set_enabled true self).

Definition disable (self : t) : t := set_enabled false self.

Definition clear (self : t) : t :=
  set_current_device FIRST_DEVICE (set_devices ∅ self).

(** Lines 336-381: validation of the six captured fields.  The result is
    the record to store, or [None] when [valid] ended up false. *)
Definition validate (current_device : Z) (m : list string)
    : Res (option Device.t) :=
  let valid := true in
  '(device_type, valid) ←
     try_except (v ← DeviceType.call (int (group m 1)); Ok (Some v, valid))
                ValueError (Ok (None, false));
  let device_group := int (group m 2) in
  let '(device_group, valid) :=
    if (device_group <? 0) || (device_group >? 7) then (None, false)
    else (Some device_group, valid) in
  '(device_mode, valid) ←
     try_except (v ← DeviceMode.call (int (group m 3)); Ok (Some v, valid))
                ValueError (Ok (None, false));
  '(device_state, valid) ←
     try_except (v ← DeviceState.call (int (group m 4)); Ok (Some v, valid))
                ValueError (Ok (None, false));
  let device_health := int (group m 5) in
  let '(device_health, valid) :=
    if (device_health <? 0) || (device_health >? 255) then (None, false)
    else (Some device_health, valid) in
  let device_time := int (group m 6) in
  let '(device_time, valid) :=
    if device_time <? 0 then (None, false) else (Some device_time, valid) in
  if valid then
    match device_type, device_group, device_mode, device_state,
          device_health, device_time with
    | Some ty, Some gr, Some mo, Some st, Some he, Some ti =>
        Ok (Some (Device.mk current_device ty gr mo st he ti false))
    | _, _, _, _, _, _ => Ok None
    end
  else Ok None.

(** Lines 328-385 of [_process_query_response]: what the answer does to
    the registry. *)
Definition update_registry (self : t) (response : string)
    : Res (t * list Effect) :=
  if String.eqb response "Ack 2" then
    match _devices self !! _current_device self with
    | Some device =>
        let device := Device.set_missing_in_action true device in
        Ok (set_devices (<[_current_device self := device]> (_devices self)) self,
            [emit (Signal.device_updated device)])
    | None => Ok (self, [])
    end
  else
    match re_match info_regexp response with
    | Some m =>
        checked ← validate (_current_device self) m;
        match checked with
        | Some device =>
            Ok (set_devices (<[_current_device self := device]> (_devices self)) self,
                [emit (Signal.device_updated device)])
        | None => Ok (self, [])
        end
    | None => Ok (self, [])
    end.

(** Lines 387-392 of [_process_query_response]: the cursor moves on and
    the next query is issued. *)
Definition advance (self : t) : Res (t * list Effect) :=
  let self := set_current_device (_current_device self + 1) self in
  let self :=
    if _current_device self >? LAST_DEVICE
    then set_current_device FIRST_DEVICE self else self in
  if _enabled self then _query_next_device self
  else Ok (self, []).

Definition _process_query_response (self : t) (response : string)
    : Res (t * list Effect) :=
  '(self, out) ← update_registry self response;
  '(self, out') ← advance self;
  Ok (self, out ++ out').

Definition set_mode_command (device_id : Z) (mode : DeviceMode.t) : string :=
  ("SetMode " ++ format_d device_id ++ ", " ++ format_d (DeviceMode.value mode)
     ++ CRLF)%string.

Definition set_mode (self : t) (device_id : Z) (mode : DeviceMode.t)
    : t * list Effect :=
  if negb (_enabled self) then (self, [])
  else (self, [send_command (set_mode_command device_id mode)
                            (Some Callback._process_set_mode_response)]).

Definition set_mode_failed : string :=
  "Ошибка: не удалось переключить режим устройства".

Definition _process_set_mode_response (self : t) (response : string)
    : t * list Effect :=
  if negb (String.eqb response "Ack 0")
  then (self, [emit (Signal.message set_mode_failed)])
  else (self, []).

Definition upload_settings (self : t) : t * list Effect :=
  (set_upload true self, [emit Signal.upload_started]).


(** ** Notions used to state the poller's properties *)

Definition store (device : Device.t) (self : t) : t :=
  set_devices (<[_current_device self := device]> (_devices self)) self.

(** The six checks as the protocol description words them: the record
    for the six integers, or [None] when one of them is out of range. *)
Definition checked_fields (address type group mode state health time : Z)
    : option Device.t :=
  match DeviceType.call type, DeviceMode.call mode, DeviceState.call state with
  | Ok ty, Ok mo, Ok st =>
      if (0 <=? group) && (group <=? 7) && (0 <=? health) && (health <=? 255)
         && (0 <=? time)
      then Some (Device.mk address ty group mo st health time false)
      else None
  | _, _, _ => None
  end.

(** A [GetInfo] answer that carries the fields of [device]: the six
    integers in decimal, in protocol order, with [sep] between them (the
    devices' side of the wire format; the program itself only parses). *)
Definition info_line (sep : string) (device : Device.t) : string :=
  (format_d (DeviceType.value (Device.type device)) ++ sep
   ++ format_d (Device.group device) ++ sep
   ++ format_d (DeviceMode.value (Device.mode device)) ++ sep
   ++ format_d (DeviceState.value (Device.state device)) ++ sep
   ++ format_d (Device.health device) ++ sep
   ++ format_d (Device.time device))%string.

Definition is_separator (sep : string) : bool :=
  all_chars re_space_or_comma sep && negb (String.eqb sep EmptyString).

(** The settings source only has keys that are parameter names. *)
Definition known_keys (settings_manager : SettingsManager.t) : Prop :=
  forall device_type device_id,
    Forall (fun kv => is_ok (DeviceParam.getitem (fst kv)) = true)
           (SettingsManager.get_device_params
              settings_manager device_type device_id).

(** The cursor [steps] polls after it was at [address]. *)
Definition address_after (address steps : Z) : Z :=
  (address - FIRST_DEVICE + steps) mod LAST_DEVICE + FIRST_DEVICE.

(** The addresses of the [n] polls that follow the one at [address]. *)
Definition addresses_after (address : Z) (n : nat) : list Z :=
  map (fun i => address_after address (Z.of_nat i)) (seq 1 n).

(** The [SetParameter] calls for one address, given the registry: one
    per parameter of a known device that is not missing in action. *)
Definition uploads_for (settings_manager : SettingsManager.t)
    (devices : gmap Z Device.t) (address : Z)
    : list (string * option Callback.t) :=
  match devices !! address with
  | Some device =>
      if Device.missing_in_action device then []
      else
        flat_map
          (fun kv =>
             match DeviceParam.getitem (fst kv) with
             | Ok p => [(set_parameter_command address (DeviceParam.value p)
                                               (snd kv), None)]
             | Raise _ => []
             end)
          (SettingsManager.get_device_params
             settings_manager (Device.type device) (Device.id device))
  | None => []
  end.

Definition as_effects (calls : list (string * option Callback.t)) : list Effect :=
  map (fun rc => send_command (fst rc) (snd rc)) calls.

(** The pass is over when the cursor is back on the address where the
    pass began. *)
Definition finishing (self : t) : bool :=
  _upload self
  && match _first_uploaded self with
     | Some first => first =? _current_device self
     | None => false
     end.

(** A settings file with the key [Speed] in its [Default] group. *)
Definition settings_with_unknown_key : SettingsManager.t :=
  SettingsManager.mk
    (Some [("Default"%string, [("IRPower"%string, 7); ("Speed"%string, 3)])]).

(** An enabled poller on address 1, which has a record, with an upload
    pass requested. *)
Definition uploading_poller : DeviceManager.t :=
  mk settings_with_unknown_key
     (<[1 := Device.mk 1 DeviceType.tank 1 DeviceMode.training
                       DeviceState.operational 100 5 false]> ∅)
     1 true None true.

Definition is_upload_finished (e : Effect) : bool :=
  match e with
  | emit Signal.upload_finished => true
  | _ => false
  end.

(** The registry once the answer [response] has been taken in. *)
Definition devices_after (self : t) (response : string) : gmap Z Device.t :=
  match update_registry self response with
  | Ok (self', _) => _devices self'
  | Raise _ => _devices self
  end.

(** A settings file with two parameters in its [Default] group, and an
    enabled poller on address 1 that knows a device at address 2 and one,
    missing in action, at address 3. *)
Definition sample_settings : SettingsManager.t :=
  SettingsManager.mk
    (Some [("Default"%string, [("IRPower"%string, 7); ("Group"%string, 2)])]).

Definition sample_poller : DeviceManager.t :=
  mk sample_settings
     (<[2 := Device.mk 2 DeviceType.tank 1 DeviceMode.training
                       DeviceState.operational 100 5 false]>
        (<[3 := Device.mk 3 DeviceType.turret 2 DeviceMode.combat
                          DeviceState.damaged 40 9 true]> ∅))
     1 false None true.

(** The answers of successive polls, handed to the callback in order. *)
Fixpoint poll (self : t) (responses : list string) : Res (t * list Effect) :=
  match responses with
  | [] => Ok (self, [])
  | response :: rest =>
      '(self, out) ← _process_query_response self response;
      '(self, out') ← poll self rest;
      Ok (self, out ++ out')
  end.


(** ** Runs of the poller

    What can happen to a [DeviceManager]: its public methods are called
    and the transport delivers an answer to one of its two callbacks. *)
Inductive Event : Type :=
| call_enable
| call_disable
| call_clear
| call_upload_settings
| call_set_mode (device_id : Z) (mode : DeviceMode.t)
| query_response (response : string)
| set_mode_response (response : string).

Definition step (self : t) (ev : Event) : Res (t * list Effect) :=
  match ev with
  | call_enable => enable self
  | call_disable => Ok (disable self, [])
  | call_clear => Ok (clear self, [])
  | call_upload_settings => Ok (upload_settings self)
  | call_set_mode device_id mode => Ok (set_mode self device_id mode)
  | query_response response => _process_query_response self response
  | set_mode_response response => Ok (_process_set_mode_response self response)
  end.

(** A run stops at the first exception. *)
Record Outcome : Type := mkOutcome {
  reached : t;
  effects : list Effect;
  raised : option exn
}.

Fixpoint run_from (self : t) (done : list Effect) (evs : list Event) : Outcome :=
  match evs with
  | [] => mkOutcome self done None
  | ev :: evs' =>
      match step self ev with
      | Ok (self', out) => run_from self' (done ++ out) evs'
      | Raise e => mkOutcome self done (Some e)
      end
  end.

Definition run (settings_manager : SettingsManager.t) (evs : list Event)
    : Outcome :=
  run_from (init settings_manager) [] evs.

(** The cursor is an address, every record is filed under its own
    address, and a pass has an anchor only while it is armed. *)
Definition sound (self : t) : Prop :=
  FIRST_DEVICE <= _current_device self <= LAST_DEVICE
  /\ (forall address device,
        _devices self !! address = Some device ->
        Device.id device = address /\ FIRST_DEVICE <= address <= LAST_DEVICE)
  /\ (forall first,
        _first_uploaded self = Some first ->
        _upload self = true /\ FIRST_DEVICE <= first <= LAST_DEVICE).

(** The requests that were sent with [_process_query_response] as their
    callback, in order. *)
Definition queries (out : list Effect) : list string :=
  flat_map (fun rc => match snd rc with
                      | Some Callback._process_query_response => [fst rc]
                      | _ => []
                      end) (sends out).
End DeviceManager.

(* ===================================================================== *)
(** * GameManager: session controller *)
(* ===================================================================== *)

(** [QTime(0, 0, 0, 0).addSecs(seconds).toString("HH:mm:ss")]: [addSecs]
    wraps around midnight. *)
Definition two_digits (n : Z) : string :=
  if n <? 10 then ("0" ++ format_d n)%string else format_d n.

Definition format_time (seconds : Z) : string :=
  let s := seconds mod 86400 in
  let hh := two_digits (s / 3600) in
  let mm := two_digits ((s mod 3600) / 60) in
  let ss := two_digits (s mod 60) in
  (hh ++ ":" ++ mm ++ ":" ++ ss)%string.

Module GameManager.

Inductive State : Set := disabled | idle | ready | running | paused.

Definition State_eqb (a b : State) : bool :=
  match a, b with
  | disabled, disabled | idle, idle | ready, ready
  | running, running | paused, paused => true
  | _, _ => false
  end.

(** [_timer] is the 250 ms [QTimer] (true while it is active);
    [_elapsed_timer] is the [QElapsedTimer]: the clock reading at its last
    [start()] while it is valid, [None] once invalidated.  Clock readings
    and durations are in milliseconds. *)
Record t : Type := mk {
  _game_duration : Z;
  _timer : bool;
  _elapsed_timer : option Z;
  _prev_elapsed_time : Z;
  _state : State
}.

Definition set_timer (v : bool) (self : t) : t :=
  mk (_game_duration self) v (_elapsed_timer self) (_prev_elapsed_time self)
     (_state self).
Definition set_elapsed_timer (v : option Z) (self : t) : t :=
  mk (_game_duration self) (_timer self) v (_prev_elapsed_time self)
     (_state self).
Definition set_prev_elapsed_time (v : Z) (self : t) : t :=
  mk (_game_duration self) (_timer self) (_elapsed_timer self) v (_state self).
Definition set_state (v : State) (self : t) : t :=
  mk (_game_duration self) (_timer self) (_elapsed_timer self)
     (_prev_elapsed_time self) v.

(** [__init__]; [game_duration] is what [get_game_duration()] returned. *)
Definition init (game_duration : Z) : t :=
  mk game_duration false None 0 disabled.

(** The milliseconds that [refresh_time] adds up, at clock reading [now]. *)
Definition elapsed_time (self : t) (now : Z) : Z :=
  let elapsed_time := _prev_elapsed_time self in
  match _elapsed_timer self with
  | Some started => elapsed_time + (now - started)
  | None => elapsed_time
  end.

Definition refresh_time (self : t) (now : Z) : Z * list Effect :=
  let seconds := elapsed_time self now / 1000 in
  (seconds, [emit (Signal.time (format_time seconds))]).

Definition _start_timer (self : t) (now : Z) (reset : bool) : t * list Effect :=
  let self := if reset then set_prev_elapsed_time 0 self else self in
  let '(_, out) := refresh_time self now in
  let self := set_elapsed_timer (Some now) self in
  let self := set_timer true self in
  (self, out).

Definition _stop_timer (self : t) (now : Z) (reset : bool) : t * list Effect :=
  let self := set_timer false self in
  let self :=
    if reset then set_prev_elapsed_time 0 self
    else
      match _elapsed_timer self with
      | Some started =>
          set_prev_elapsed_time (_prev_elapsed_time self + (now - started)) self
      | None => self
      end in
  let self := set_elapsed_timer None self in
  let '(_, out) := refresh_time self now in
  (self, out).

Definition enable (self : t) (now : Z) : t * list Effect :=
  if negb (State_eqb (_state self) disabled) then (self, [])
  else
    let '(self, out) := _stop_timer self now true in
    let self := set_state idle self in
    (self, out ++ [emit Signal.enabled]).

Definition disable (self : t) (now : Z) : t * list Effect :=
  let '(self, out) := _stop_timer self now true in
  let self := set_state disabled self in
  (self, out ++ [emit Signal.disabled]).

Definition reset_command : string := ("Reset4Combat" ++ CRLF)%string.

Definition set_state_command (device_state : DeviceState.t) : string :=
  ("SetState4Combat " ++ format_d (DeviceState.value device_state) ++ CRLF)%string.

Definition reset_game (self : t) : t * list Effect :=
  if State_eqb (_state self) disabled then (self, [])
  else (self, [send_command reset_command
                            (Some Callback._process_reset_response)]).

Definition reset_failed : string := "Ошибка: не удалось выполнить сброс".
Definition start_failed : string := "Ошибка: не удалось начать игру".
Definition stop_failed : string := "Ошибка: не удалось остановить игру".
Definition pause_failed : string := "Ошибка: не удалось приостановить игру".
Definition unpause_failed : string := "Ошибка: не удалось продолжить игру".

Definition _process_reset_response (self : t) (now : Z) (response : string)
    : t * list Effect :=
  if String.eqb response "Ack 0" then
    let '(self, out) := _stop_timer self now true in
    let self := set_state ready self in
    (self, out ++ [emit Signal.game_resetted])
  else (self, [emit (Signal.message reset_failed)]).

Definition start_game (self : t) : t * list Effect :=
  if negb (State_eqb (_state self) ready) then (self, [])
  else
    let device_state := DeviceState.operational in
    (self, [send_command (set_state_command device_state)
                         (Some Callback._process_start_response)]).

Definition _process_start_response (self : t) (now : Z) (response : string)
    : t * list Effect :=
  if String.eqb response "Ack 0" then
    let '(self, out) := _start_timer self now true in
    let self := set_state running self in
    (self, out ++ [emit Signal.game_started])
  else (self, [emit (Signal.message start_failed)]).

Definition stop_game (self : t) : t * list Effect :=
  if negb (State_eqb (_state self) running)
     && negb (State_eqb (_state self) paused) then (self, [])
  else
    let device_state := DeviceState.destroyed in
    (self, [send_command (set_state_command device_state)
                         (Some Callback._process_stop_response)]).

Definition _process_stop_response (self : t) (now : Z) (response : string)
    : t * list Effect :=
  if String.eqb response "Ack 0" then
    let '(self, out) := _stop_timer self now false in
    let self := set_state idle self in
    (self, out ++ [emit Signal.game_stopped])
  else (self, [emit (Signal.message stop_failed)]).

Definition pause_game (self : t) : t * list Effect :=
  if negb (State_eqb (_state self) running)
     && negb (State_eqb (_state self) paused) then (self, [])
  else if State_eqb (_state self) running then
    let device_state := DeviceState.paused in
    (self, [send_command (set_state_command device_state)
                         (Some Callback._process_pause_response)])
  else if State_eqb (_state self) paused then
    let device_state := DeviceState.previous in
    (self, [send_command (set_state_command device_state)
                         (Some Callback._process_unpause_response)])
  else (self, []).

Definition _process_pause_response (self : t) (now : Z) (response : string)
    : t * list Effect :=
  if String.eqb response "Ack 0" then
    let '(self, out) := _stop_timer self now false in
    let self := set_state paused self in
    (self, out ++ [emit Signal.game_paused])
  else (self, [emit (Signal.message pause_failed)]).

Definition _process_unpause_response (self : t) (now : Z) (response : string)
    : t * list Effect :=
  if String.eqb response "Ack 0" then
    let '(self, out) := _start_timer self now false in
    let self := set_state running self in
    (self, out ++ [emit Signal.game_unpaused])
  else (self, [emit (Signal.message unpause_failed)]).

(** Slot of the 250 ms timer. *)
Definition _timer_callback (self : t) (now : Z) : t * list Effect :=
  let '(seconds, out) := refresh_time self now in
  if State_eqb (_state self) running then
    if seconds >=? _game_duration self then
      let '(self, out') := stop_game self in
      (self, out ++ out')
    else (self, out)
  else (self, out).


(** ** Runs of the session controller

    What can happen to a [GameManager]: time passes, its public methods
    are called, the transport delivers an answer to one of its callbacks
    (whatever was asked before), the 250 ms timer fires. *)
Inductive Event : Type :=
| wait (milliseconds : N)
| call_enable
| call_disable
| call_reset_game
| call_start_game
| call_stop_game
| call_pause_game
| reset_response (response : string)
| start_response (response : string)
| stop_response (response : string)
| pause_response (response : string)
| unpause_response (response : string)
| timer_timeout.

(** A configuration is the object and the clock reading. *)
Definition step (cfg : t * Z) (ev : Event) : t * Z * list Effect :=
  let '(self, now) := cfg in
  match ev with
  | wait d => (self, now + Z.of_N d, [])
  | call_enable => let '(self, out) := enable self now in (self, now, out)
  | call_disable => let '(self, out) := disable self now in (self, now, out)
  | call_reset_game => let '(self, out) := reset_game self in (self, now, out)
  | call_start_game => let '(self, out) := start_game self in (self, now, out)
  | call_stop_game => let '(self, out) := stop_game self in (self, now, out)
  | call_pause_game => let '(self, out) := pause_game self in (self, now, out)
  | reset_response r =>
      let '(self, out) := _process_reset_response self now r in (self, now, out)
  | start_response r =>
      let '(self, out) := _process_start_response self now r in (self, now, out)
  | stop_response r =>
      let '(self, out) := _process_stop_response self now r in (self, now, out)
  | pause_response r =>
      let '(self, out) := _process_pause_response self now r in (self, now, out)
  | unpause_response r =>
      let '(self, out) := _process_unpause_response self now r in (self, now, out)
  | timer_timeout =>
      if _timer self then
        let '(self, out) := _timer_callback self now in (self, now, out)
      else (self, now, [])
  end.

Fixpoint run_from (cfg : t * Z) (evs : list Event) : t * Z :=
  match evs with
  | [] => cfg
  | ev :: evs' => let '(self, now, _) := step cfg ev in run_from (self, now) evs'
  end.

Definition run (game_duration start : Z) (evs : list Event) : t * Z :=
  run_from (init game_duration, start) evs.

(** The stopwatch is valid exactly in state [running]. *)
Definition timed (self : t) : Prop :=
  _elapsed_timer self <> None <-> _state self = running.

(** One pause/resume cycle seen from a running session: it runs for
    [fst cycle] ms, the pause is acknowledged, [snd cycle] ms pass, the
    resume is acknowledged. *)
Definition pause_resume (cycle : N * N) : list Event :=
  [wait (fst cycle); pause_response "Ack 0"; wait (snd cycle);
   unpause_response "Ack 0"].

Definition running_time (cycles : list (N * N)) : Z :=
  fold_right (fun cycle total => Z.of_N (fst cycle) + total) 0 cycles.


(** What a run does, in order. *)
Fixpoint trace_from (cfg : t * Z) (evs : list Event) : list Effect :=
  match evs with
  | [] => []
  | ev :: evs' =>
      let '(self, now, out) := step cfg ev in out ++ trace_from (self, now) evs'
  end.

(** Time passes or the 250 ms timer fires; nothing else happens. *)
Definition idles (ev : Event) : bool :=
  match ev with
  | wait _ | timer_timeout => true
  | _ => false
  end.

Definition is_tick (ev : Event) : bool :=
  match ev with
  | timer_timeout => true
  | _ => false
  end.

(** The command that ends the game, as [stop_game] queues it. *)
Definition stop_call : string * option Callback.t :=
  (set_state_command DeviceState.destroyed, Some Callback._process_stop_response).

(** Events that may change [_state]: [enable()], [disable()] and an
    acknowledgment ["Ack 0"] handed to a callback. *)
Definition moves (ev : Event) : bool :=
  match ev with
  | call_enable | call_disable => true
  | reset_response r | start_response r | stop_response r
  | pause_response r | unpause_response r => String.eqb r "Ack 0"
  | _ => false
  end.

(** What holds of a session and the clock between any two events, in a
    run that began at clock reading [start]: the 250 ms timer is active
    exactly in state [running], and so is the stopwatch, which was
    started during the run; the folded time is not negative. *)
Definition steady (start game_duration : Z) (cfg : t * Z) : Prop :=
  (_timer (fst cfg) = true <-> _state (fst cfg) = running)
  /\ (_elapsed_timer (fst cfg) <> None <-> _state (fst cfg) = running)
  /\ (forall started,
        _elapsed_timer (fst cfg) = Some started -> start <= started <= snd cfg)
  /\ start <= snd cfg
  /\ 0 <= _prev_elapsed_time (fst cfg)
  /\ _game_duration (fst cfg) = game_duration.

(** A session from connection to a second acknowledgment of one resume:
    five seconds of game, a pause, two resume requests, three seconds
    between their acknowledgments. *)
Definition twice_resumed : list Event :=
  [call_enable; reset_response "Ack 0"; start_response "Ack 0"; wait 5000;
   pause_response "Ack 0"; call_pause_game; call_pause_game;
   unpause_response "Ack 0"; wait 3000].
End GameManager.

(* ===================================================================== *)
(** * CommandTransport: the serial command queue *)
(* ===================================================================== *)

Module CommandTransport.

Inductive State : Set := disabled | idle | work.

Definition State_eqb (a b : State) : bool :=
  match a, b with
  | disabled, disabled | idle, idle | work, work => true
  | _, _ => false
  end.

Definition COMMAND_DELAY : Z := 10.

Section Transport.

(** The transport stores callbacks without looking into them: [C] is
    the type of callback objects, [Owners] the state of the objects
    whose methods they are.  [invoke cb response owners] runs
    [cb(response)]: it returns the owners' new state together with the
    [send_command] calls the callback made, in order (the only way a
    callback of this program touches the transport). *)
Context {C Owners : Type}.
Variable invoke :
  C -> string -> Owners -> Res (Owners * list (string * option C)).

(** An entry of [_command_queue]. *)
Record Command : Type := mkCommand {
  request : string;
  callback : option C
}.

(** [_timer] is true while the single-shot delay timer is running. *)
Record t : Type := mk {
  _command_queue : list Command;
  _timer : bool;
  _unsent_bytes : Z;
  _state : State;
  _read_complete : bool;
  _write_complete : bool
}.

Definition set_command_queue (v : list Command) (self : t) : t :=
  mk v (_timer self) (_unsent_bytes self) (_state self)
     (_read_complete self) (_write_complete self).
Definition set_timer (v : bool) (self : t) : t :=
  mk (_command_queue self) v (_unsent_bytes self) (_state self)
     (_read_complete self) (_write_complete self).
Definition set_unsent_bytes (v : Z) (self : t) : t :=
  mk (_command_queue self) (_timer self) v (_state self)
     (_read_complete self) (_write_complete self).
Definition set_state (v : State) (self : t) : t :=
  mk (_command_queue self) (_timer self) (_unsent_bytes self) v
     (_read_complete self) (_write_complete self).
Definition set_read_complete (v : bool) (self : t) : t :=
  mk (_command_queue self) (_timer self) (_unsent_bytes self) (_state self)
     v (_write_complete self).
Definition set_write_complete (v : bool) (self : t) : t :=
  mk (_command_queue self) (_timer self) (_unsent_bytes self) (_state self)
     (_read_complete self) v.

(** What a method does, in program order; every constructor stands for
    one statement of the source. *)
Inductive Action : Type :=
| appended (c : Command)          (* [self._command_queue.append(...)] *)
| discarded_input                 (* [self._serial_port.readAll()] *)
| written (data : string)         (* [self._serial_port.write(data)] *)
| write_completed                 (* [self._write_complete = True] *)
| called_back (cb : C) (response : string)   (* [callback(response)] *)
| read_completed                  (* [self._read_complete = True] *)
| popped (c : Command)            (* [self._command_queue.popleft()] *)
| cleared                         (* [self._command_queue.clear()] *)
| switched_off.                   (* [self._state = self.State.disabled] *)

(** [__init__] *)
Definition init : t := mk [] false 0 disabled false false.

Definition send_command (self : t) (request : string) (callback : option C)
    : t * list Action :=
  let c := mkCommand request callback in
  let self := set_command_queue (_command_queue self ++ [c]) self in
  let self := if State_eqb (_state self) idle then set_timer true self else self in
  (self, [appended c]).

(** [is_open] is what [self._serial_port.isOpen()] answers. *)
Definition _process_request (self : t) (is_open : bool)
    : Res (t * list Action) :=
  if negb (State_eqb (_state self) idle) then Ok (self, [])
  else if negb is_open then Ok (set_state disabled self, [switched_off])
  else
    match _command_queue self with
    | [] => Raise IndexError
    | head :: _ =>
        let data := request head in
        let self := set_unsent_bytes (Z.of_nat (String.length data)) self in
        let self := set_state work self in
        let self := set_read_complete false self in
        let self := set_write_complete false self in
        Ok (self, [discarded_input; written data])
    end.

Definition ping : string := ("Ping" ++ CRLF)%string.

Definition enable (self : t) (is_open : bool) : Res (t * list Action) :=
  if negb (State_eqb (_state self) disabled) then Ok (self, [])
  else
    let self := set_state idle self in
    let command := ping in
    let '(self, out) := send_command self command None in
    if negb (length (_command_queue self) =? 0)%nat then
      '(self, out') ← _process_request self is_open;
      Ok (self, out ++ out')
    else Ok (self, out).

Definition disable (self : t) : t * list Action :=
  let self := set_timer false self in
  let self := set_state disabled self in
  (self, [switched_off]).

Definition clear (self : t) : t * list Action :=
  let self := set_timer false self in
  let self := set_command_queue [] self in
  let self := set_unsent_bytes 0 self in
  (self, [cleared]).

Definition _finalize_request (self : t) : Res (t * list Action) :=
  if negb (State_eqb (_state self) work) then Ok (self, [])
  else
    match _command_queue self with
    | [] => Raise IndexError
    | head :: rest =>
        let self := set_command_queue rest self in
        let self := set_state idle self in
        let self :=
          if negb (length (_command_queue self) =? 0)%nat
          then set_timer true self else self in
        Ok (self, [popped head])
    end.

(** Slot of [bytesWritten(sent_bytes)]. *)
Definition _handle_write (self : t) (sent_bytes : Z) : Res (t * list Action) :=
  if negb (State_eqb (_state self) work) then Ok (self, [])
  else
    let self := set_unsent_bytes (_unsent_bytes self - sent_bytes) self in
    if _unsent_bytes self =? 0 then
      let self := set_write_complete true self in
      if _read_complete self then
        '(self, out) ← _finalize_request self;
        Ok (self, write_completed :: out)
      else Ok (self, [write_completed])
    else Ok (self, []).

Fixpoint send_all (self : t) (calls : list (string * option C))
    : t * list Action :=
  match calls with
  | [] => (self, [])
  | (request, callback) :: rest =>
      let '(self, out) := send_command self request callback in
      let '(self, out') := send_all self rest in
      (self, out ++ out')
  end.

(** Slot of [readyRead].  [line] is [None] when [canReadLine()] is
    false, otherwise the bytes that [readLine()] returns. *)
Definition _handle_read (self : t) (owners : Owners) (line : option string)
    : Res (t * Owners * list Action) :=
  if negb (State_eqb (_state self) work) then Ok (self, owners, [])
  else
    match line with
    | None => Ok (self, owners, [])
    | Some raw =>
        response ← decode_ascii raw;
        let response := strip response in
        if negb (String.length response =? 0)%nat then
          head ← match _command_queue self with
                 | [] => Raise IndexError
                 | head :: _ => Ok head
                 end;
          '(self, owners, out) ←
            match callback head with
            | Some cb =>
                '(owners, calls) ← invoke cb response owners;
                let '(self, out) := send_all self calls in
                Ok (self, owners, called_back cb response :: out)
            | None => Ok (self, owners, [])
            end;
          let self := set_read_complete true self in
          if _write_complete self then
            '(self, out') ← _finalize_request self;
            Ok (self, owners, out ++ read_completed :: out')
          else Ok (self, owners, out ++ [read_completed])
        else Ok (self, owners, [])
    end.

(** ** Runs of the transport

    What can happen to a transport: calls of its public methods and
    the three signals it is connected to. *)
Inductive Event : Type :=
| call_enable (is_open : bool)
| call_disable
| call_clear
| call_send_command (request : string) (callback : option C)
| timeout (is_open : bool)
| bytesWritten (sent_bytes : Z)
| readyRead (line : option string).

Definition step (cfg : t * Owners) (ev : Event)
    : Res (t * Owners * list Action) :=
  let '(self, owners) := cfg in
  match ev with
  | call_enable is_open =>
      '(self, out) ← enable self is_open; Ok (self, owners, out)
  | call_disable =>
      let '(self, out) := disable self in Ok (self, owners, out)
  | call_clear =>
      let '(self, out) := clear self in Ok (self, owners, out)
  | call_send_command request callback =>
      let '(self, out) := send_command self request callback in
      Ok (self, owners, out)
  | timeout is_open =>
      (* a single-shot timer fires only while running, and stops *)
      if _timer self then
        '(self, out) ← _process_request (set_timer false self) is_open;
        Ok (self, owners, out)
      else Ok (self, owners, [])
  | bytesWritten sent_bytes =>
      '(self, out) ← _handle_write self sent_bytes; Ok (self, owners, out)
  | readyRead line => _handle_read self owners line
  end.

(** The outcome of a run: the configuration reached, everything done
    so far, and the exception that ended the run, if any. *)
Record Outcome : Type := mkOutcome {
  reached : t * Owners;
  trace : list Action;
  raised : option exn
}.

Fixpoint run_from (cfg : t * Owners) (done : list Action) (evs : list Event)
    : Outcome :=
  match evs with
  | [] => mkOutcome cfg done None
  | ev :: evs' =>
      match step cfg ev with
      | Ok (self, owners, out) => run_from (self, owners) (done ++ out) evs'
      | Raise e => mkOutcome cfg done (Some e)
      end
  end.

Definition run (owners : Owners) (evs : list Event) : Outcome :=
  run_from (init, owners) [] evs.

(** ** The queue discipline, as a ledger kept over a trace

    Commands are numbered in the order of their [append].  The ledger
    follows a trace and stops ([None]) at the first action that breaks
    the discipline:
    - a write happens only while no command is in flight, it writes
      the head of the queue, and every command queued before it was
      finalized or dropped by [clear()];
    - a completion is recorded only for a command in flight;
    - the command that is popped is the one in flight, it is the head
      of the queue, and both its completions were recorded. *)
Record Ledger : Type := mkLedger {
  pending : list (nat * string);   (* number and request, oldest first *)
  next : nat;                      (* number of the next command *)
  flight : option nat;             (* the command written, not yet popped *)
  write_recorded : bool;
  read_recorded : bool;
  finalized : list nat;
  dropped : list nat
}.

Definition ledger0 : Ledger := mkLedger [] 0 None false false [] [].

Definition settled (l : Ledger) (m : nat) : bool :=
  existsb (Nat.eqb m) (finalized l) || existsb (Nat.eqb m) (dropped l).

Definition observe (l : Ledger) (a : Action) : option Ledger :=
  match a with
  | appended c =>
      Some (mkLedger (pending l ++ [(next l, request c)]) (S (next l))
              (flight l) (write_recorded l) (read_recorded l)
              (finalized l) (dropped l))
  | discarded_input => Some l
  | written data =>
      match flight l, pending l with
      | None, (n, req) :: _ =>
          if String.eqb data req && forallb (settled l) (seq 0 n)
          then Some (mkLedger (pending l) (next l) (Some n) false false
                       (finalized l) (dropped l))
          else None
      | _, _ => None
      end
  | write_completed =>
      match flight l with
      | Some _ =>
          Some (mkLedger (pending l) (next l) (flight l) true
                  (read_recorded l) (finalized l) (dropped l))
      | None => None
      end
  | called_back _ _ =>
      match flight l with
      | Some _ => Some l
      | None => None
      end
  | read_completed =>
      match flight l with
      | Some _ =>
          Some (mkLedger (pending l) (next l) (flight l) (write_recorded l)
                  true (finalized l) (dropped l))
      | None => None
      end
  | popped c =>
      match flight l, pending l with
      | Some n, (h, req) :: rest =>
          if (n =? h)%nat && String.eqb (request c) req
             && write_recorded l && read_recorded l
          then Some (mkLedger rest (next l) None false false
                       (n :: finalized l) (dropped l))
          else None
      | _, _ => None
      end
  | cleared =>
      Some (mkLedger [] (next l) (flight l) (write_recorded l)
              (read_recorded l) (finalized l)
              (map fst (pending l) ++ dropped l))
  | switched_off =>
      Some (mkLedger (pending l) (next l) None false false
              (finalized l) (dropped l))
  end.

Fixpoint observe_all (l : Ledger) (actions : list Action) : option Ledger :=
  match actions with
  | [] => Some l
  | a :: rest =>
      match observe l a with
      | Some l' => observe_all l' rest
      | None => None
      end
  end.

Definition disciplined (actions : list Action) : bool :=
  match observe_all ledger0 actions with
  | Some _ => true
  | None => false
  end.

(** The ledger of a trace and the transport that produced it tell the
    same story: same queue, numbered consecutively, everything older
    settled, and in state [work] the head of the queue in flight with
    the completion flags as recorded. *)
Definition agrees (l : Ledger) (self : t) : Prop :=
  map snd (pending l) = map request (_command_queue self)
  /\ map fst (pending l)
     = seq (next l - length (pending l)) (length (pending l))
  /\ (length (pending l) <= next l)%nat
  /\ (forall m, (m < next l - length (pending l))%nat -> settled l m = true)
  /\ match _state self with
     | work =>
         exists n req rest,
           pending l = (n, req) :: rest
           /\ flight l = Some n
           /\ write_recorded l = _write_complete self
           /\ read_recorded l = _read_complete self
     | _ => flight l = None
     end.

(** [clear()] is never called while a command is in flight. *)
Fixpoint clears_outside_work (cfg : t * Owners) (evs : list Event) : bool :=
  match evs with
  | [] => true
  | ev :: evs' =>
      match ev with
      | call_clear => negb (State_eqb (_state (fst cfg)) work)
      | _ => true
      end
      && match step cfg ev with
         | Ok (self, owners, _) => clears_outside_work (self, owners) evs'
         | Raise _ => true
         end
  end.

(** The three signals the transport is connected to. *)
Definition is_signal (ev : Event) : bool :=
  match ev with
  | timeout _ | bytesWritten _ | readyRead _ => true
  | _ => false
  end.

(** ** The books of the queue over a trace

    What was appended and what was popped since [clear()] last emptied
    the queue, both in order. *)
Definition tally (books : list Command * list Command) (a : Action)
    : list Command * list Command :=
  match a with
  | appended c => (fst books ++ [c], snd books)
  | popped c => (fst books, snd books ++ [c])
  | cleared => ([], [])
  | _ => books
  end.

Definition tally_all (actions : list Action) : list Command * list Command :=
  fold_left tally actions ([], []).

(** The port has no line, or a line that is empty once stripped. *)
Definition blank (line : option string) : bool :=
  match line with
  | None => true
  | Some raw =>
      match decode_ascii raw with
      | Ok response => (String.length (strip response) =? 0)%nat
      | Raise _ => false
      end
  end.

(** Events that bring no answer: everything but a line on the port,
    [disable()] and [clear()]. *)
Definition unanswered (ev : Event) : bool :=
  match ev with
  | call_enable _ | call_send_command _ _ | timeout _ | bytesWritten _ => true
  | readyRead line => blank line
  | call_disable | call_clear => false
  end.

(** Actions that move the command in flight: a write, a callback, a
    recorded answer, a pop. *)
Definition progress (a : Action) : bool :=
  match a with
  | written _ | called_back _ _ | read_completed | popped _ => true
  | _ => false
  end.

End Transport.

Arguments Command : clear implicits.
Arguments t : clear implicits.
Arguments Action : clear implicits.
Arguments Event : clear implicits.
Arguments Outcome : clear implicits.
Arguments Ledger : clear implicits.

End CommandTransport.

(* ===================================================================== *)
(** * The application: the callbacks behind the transport *)
(* ===================================================================== *)

Module Application.

(** The objects whose methods are registered as callbacks, the clock
    they read and the signals they have emitted. *)
Record Owners : Type := mkOwners {
  device_manager : DeviceManager.t;
  game_manager : GameManager.t;
  now : Z;
  emitted : list Signal.t
}.

Definition signals (effects : list Effect) : list Signal.t :=
  flat_map (fun e => match e with
                     | emit s => [s]
                     | send_command _ _ => []
                     end) effects.

Definition with_device_manager (o : Owners) (r : DeviceManager.t * list Effect)
    : Owners * list (string * option Callback.t) :=
  (mkOwners (fst r) (game_manager o) (now o) (emitted o ++ signals (snd r)),
   sends (snd r)).

Definition with_game_manager (o : Owners) (r : GameManager.t * list Effect)
    : Owners * list (string * option Callback.t) :=
  (mkOwners (device_manager o) (fst r) (now o) (emitted o ++ signals (snd r)),
   sends (snd r)).

(** [callback(response)] for each bound method. *)
Definition invoke (cb : Callback.t) (response : string) (o : Owners)
    : Res (Owners * list (string * option Callback.t)) :=
  match cb with
  | Callback._process_query_response =>
      r ← DeviceManager._process_query_response (device_manager o) response;
      Ok (with_device_manager o r)
  | Callback._process_set_mode_response =>
      Ok (with_device_manager o
            (DeviceManager._process_set_mode_response (device_manager o) response))
  | Callback._process_reset_response =>
      Ok (with_game_manager o
            (GameManager._process_reset_response (game_manager o) (now o) response))
  | Callback._process_start_response =>
      Ok (with_game_manager o
            (GameManager._process_start_response (game_manager o) (now o) response))
  | Callback._process_stop_response =>
      Ok (with_game_manager o
            (GameManager._process_stop_response (game_manager o) (now o) response))
  | Callback._process_pause_response =>
      Ok (with_game_manager o
            (GameManager._process_pause_response (game_manager o) (now o) response))
  | Callback._process_unpause_response =>
      Ok (with_game_manager o
            (GameManager._process_unpause_response (game_manager o) (now o) response))
  end.

(** The objects as [main] builds them. *)
Definition init (settings_manager : SettingsManager.t) (game_duration : Z)
    : Owners :=
  mkOwners (DeviceManager.init settings_manager) (GameManager.init game_duration)
           0 [].

(** ** The application as [main] wires it

    What can happen to the running application: the user clicks a button
    or toggles the mode of a device, a timer fires, the serial port
    signals, time passes.  Each event runs the slots connected to it, in
    connection order.  (The signals of [PortManager] itself and the
    widgets are left out.) *)
Inductive Event : Type :=
| click_connect (opened : bool)     (* [serial_port.open(...)] succeeded? *)
| click_disconnect
| click_upload
| click_reset
| click_start
| click_stop
| click_pause
| toggle_mode (device_id : Z) (mode : DeviceMode.t)
| transport_timeout (is_open : bool)
| bytesWritten (sent_bytes : Z)
| readyRead (line : option string)
| game_timeout
| wait (milliseconds : N).

Abbreviation Transport := (CommandTransport.t Callback.t).
Abbreviation Action := (CommandTransport.Action Callback.t).

(** A manager method was called on the owners: its sends reach the
    transport, its signals are recorded. *)
Definition deliver (transport : Transport)
    (r : Owners * list (string * option Callback.t))
    : Transport * Owners * list Action :=
  let '(transport, out) := CommandTransport.send_all transport (snd r) in
  (transport, fst r, out).

Definition step (cfg : Transport * Owners) (ev : Event)
    : Res (Transport * Owners * list Action) :=
  let '(transport, o) := cfg in
  match ev with
  | click_connect opened =>
      (* [PortManager.connect]; then [connected] runs
         [command_transport.enable], [device_manager.enable],
         [game_manager.enable] *)
      if negb opened then Ok (transport, o, [])
      else
        '(transport, out1) ← CommandTransport.enable transport true;
        r ← DeviceManager.enable (device_manager o);
        let '(transport, o, out2) := deliver transport (with_device_manager o r) in
        let '(transport, o, out3) :=
          deliver transport
            (with_game_manager o (GameManager.enable (game_manager o) (now o))) in
        Ok (transport, o, out1 ++ out2 ++ out3)
  | click_disconnect =>
      (* [PortManager.disconnect]; then [disconnected] runs
         [command_transport.disable], [device_manager.disable],
         [game_manager.disable], [command_transport.clear],
         [device_manager.clear] *)
      let '(transport, out1) := CommandTransport.disable transport in
      let o := mkOwners (DeviceManager.disable (device_manager o))
                        (game_manager o) (now o) (emitted o) in
      let '(transport, o, out2) :=
        deliver transport
          (with_game_manager o (GameManager.disable (game_manager o) (now o))) in
      let '(transport, out3) := CommandTransport.clear transport in
      let o := mkOwners (DeviceManager.clear (device_manager o))
                        (game_manager o) (now o) (emitted o) in
      Ok (transport, o, out1 ++ out2 ++ out3)
  | click_upload =>
      Ok (deliver transport
            (with_device_manager o
               (DeviceManager.upload_settings (device_manager o))))
  | click_reset =>
      Ok (deliver transport
            (with_game_manager o (GameManager.reset_game (game_manager o))))
  | click_start =>
      Ok (deliver transport
            (with_game_manager o (GameManager.start_game (game_manager o))))
  | click_stop =>
      Ok (deliver transport
            (with_game_manager o (GameManager.stop_game (game_manager o))))
  | click_pause =>
      Ok (deliver transport
            (with_game_manager o (GameManager.pause_game (game_manager o))))
  | toggle_mode device_id mode =>
      Ok (deliver transport
            (with_device_manager o
               (DeviceManager.set_mode (device_manager o) device_id mode)))
  | transport_timeout is_open =>
      CommandTransport.step invoke (transport, o) (CommandTransport.timeout is_open)
  | bytesWritten sent_bytes =>
      CommandTransport.step invoke (transport, o)
                            (CommandTransport.bytesWritten sent_bytes)
  | readyRead line =>
      CommandTransport.step invoke (transport, o) (CommandTransport.readyRead line)
  | game_timeout =>
      if GameManager._timer (game_manager o) then
        Ok (deliver transport
              (with_game_manager o
                 (GameManager._timer_callback (game_manager o) (now o))))
      else Ok (transport, o, [])
  | wait d =>
      Ok (transport,
          mkOwners (device_manager o) (game_manager o) (now o + Z.of_N d)
                   (emitted o),
          [])
  end.

(** A run stops at the first exception; [done] is what the transport has
    done so far. *)
Fixpoint run_from (cfg : Transport * Owners) (done : list Action)
    (evs : list Event) : Transport * Owners * list Action * option exn :=
  match evs with
  | [] => (cfg, done, None)
  | ev :: evs' =>
      match step cfg ev with
      | Ok (transport, o, out) => run_from (transport, o) (done ++ out) evs'
      | Raise e => (cfg, done, Some e)
      end
  end.

Definition run (settings_manager : SettingsManager.t) (game_duration : Z)
    (evs : list Event) : Transport * Owners * list Action * option exn :=
  run_from (CommandTransport.init, init settings_manager game_duration) [] evs.

(** What the transport did during a run. *)
Definition transport_trace
    (r : Transport * Owners * list Action * option exn) : list Action :=
  snd (fst r).

(** A session of the application: the probe is answered, a query is
    written and answered, the link is torn down. *)
Definition sample_session : list (CommandTransport.Event Callback.t) :=
  [ CommandTransport.call_enable true;
    CommandTransport.call_send_command
      (DeviceManager.get_info_command 1)
      (Some Callback._process_query_response);
    CommandTransport.bytesWritten 6;
    CommandTransport.readyRead (Some ("Ack 0" ++ CRLF)%string);
    CommandTransport.timeout true;
    CommandTransport.bytesWritten 11;
    CommandTransport.readyRead (Some ("0 1 0 2 100 5" ++ CRLF)%string);
    CommandTransport.call_disable;
    CommandTransport.call_clear ].


(** The transport never finds its queue empty where it reads the head:
    in state [work] a command is queued, and two when the delay timer is
    still running; in state [idle] the timer runs only with something
    queued; a disabled transport has no timer running, and something
    queued whenever the poller is enabled. *)
Definition primed (transport : Transport) (o : Owners) : bool :=
  let queued := length (CommandTransport._command_queue transport) in
  match CommandTransport._state transport with
  | CommandTransport.work =>
      if CommandTransport._timer transport then (2 <=? queued)%nat
      else (1 <=? queued)%nat
  | CommandTransport.idle =>
      if CommandTransport._timer transport then (1 <=? queued)%nat else true
  | CommandTransport.disabled =>
      negb (CommandTransport._timer transport)
      && (if DeviceManager._enabled (device_manager o)
          then (1 <=? queued)%nat else true)
  end.

Definition raised (r : Transport * Owners * list Action * option exn)
    : option exn :=
  snd r.
End Application.

(* ===================================================================== *)
(** * DeviceView *)
(* ===================================================================== *)

(** The view owns three dictionaries keyed by device type and writes into
    three [QTableWidget]s.  The widgets live outside the view: a table is
    known by its identity and the view only holds references, so the rows
    of the tables are kept in a store of their own, [Widgets].

    Of a table item the model keeps its text, its two flags, its check
    state and its foreground colour; fonts and alignment are left out.  An
    [item_changed] event of a run stands for a change of an item made
    outside the view (the user ticking a box) together with the
    [itemChanged] signal that Qt raises for it: the item takes the check
    state, then the callback runs.  The signals that Qt raises for the
    changes [update_device] makes itself are not modelled. *)

Module DeviceView.

Module Column.
Inductive t : Set := group | state | health | mode.

Definition value (c : t) : Z :=
  match c with group => 0 | state => 1 | health => 2 | mode => 3 end.
End Column.

Inductive Color : Set := green | yellow | red | black.

Record Item : Type := mkItem {
  text : string;
  is_enabled : bool;          (* [Qt.ItemIsEnabled] is among the flags *)
  is_user_checkable : bool;   (* [Qt.ItemIsUserCheckable] is among the flags *)
  checked : bool;             (* [checkState() == Qt.Checked] *)
  foreground : option Color   (* [None]: [setForeground] was never called *)
}.

(** A row: its vertical header and the items of the four columns. *)
Record Row : Type := mkRow {
  header : string;
  group_item : Item;
  state_item : Item;
  health_item : Item;
  mode_item : Item
}.

Definition Table := list Row.

(** The table widgets, by identity. *)
Definition Widgets := nat -> Table.

Definition rowCount (widgets : Widgets) (table : nat) : nat :=
  length (widgets table).

Definition set_table (widgets : Widgets) (table : nat) (rows : Table)
    : Widgets :=
  fun table' => if Nat.eqb table' table then rows else widgets table'.

(** A dictionary with the keys [tank], [turret] and [target], in this
    order. *)
Record ByType (A : Type) : Type := mkByType {
  of_tank : A;
  of_turret : A;
  of_target : A
}.
Arguments mkByType {A} _ _ _.
Arguments of_tank {A} _.
Arguments of_turret {A} _.
Arguments of_target {A} _.

Definition get {A} (d : ByType A) (key : DeviceType.t) : A :=
  match key with
  | DeviceType.tank => of_tank d
  | DeviceType.turret => of_turret d
  | DeviceType.target => of_target d
  end.

Definition set {A} (d : ByType A) (key : DeviceType.t) (v : A) : ByType A :=
  match key with
  | DeviceType.tank => mkByType v (of_turret d) (of_target d)
  | DeviceType.turret => mkByType (of_tank d) v (of_target d)
  | DeviceType.target => mkByType (of_tank d) (of_turret d) v
  end.

Definition items {A} (d : ByType A) : list (DeviceType.t * A) :=
  [(DeviceType.tank, of_tank d); (DeviceType.turret, of_turret d);
   (DeviceType.target, of_target d)].

(** [self._rows[device_type]]: device id to row, in insertion order. *)
Definition Rows := list (Z * nat).

Fixpoint rows_get (d : Rows) (k : Z) : option nat :=
  match d with
  | [] => None
  | (k', v') :: d' => if k' =? k then Some v' else rows_get d' k
  end.

Fixpoint rows_set (d : Rows) (k : Z) (v : nat) : Rows :=
  match d with
  | [] => [(k, v)]
  | (k', v') :: d' =>
      if k' =? k then (k, v) :: d' else (k', v') :: rows_set d' k v
  end.

Record t : Type := mk {
  _tables : ByType nat;
  _devices : ByType (gmap Z Device.t);
  _rows : ByType Rows;
  _colors : bool
}.

Definition __init__ (tank_table turret_table target_table : nat) : t :=
  mk (mkByType tank_table turret_table target_table)
     (mkByType ∅ ∅ ∅)
     (mkByType [] [] [])
     false.

(** What the methods can raise: [KeyError] from a dictionary lookup, and
    [AttributeError] from [table.item(row, column).setText(...)] when the
    table has no item there and [item] returns [None]. *)
Inductive Error : Set := KeyError | AttributeError.

Inductive Result (A : Type) : Type :=
| Done (a : A)
| Failed (e : Error).
Arguments Done {A} a.
Arguments Failed {A} e.

(** The last key of a dictionary whose value satisfies [p]: what the loops
    [for (key, value) in d.items(): if ...: found = key] leave in
    [found]. *)
Definition last_key {K V} (p : V -> bool) (d : list (K * V)) : option K :=
  fold_left (fun found kv => if p (snd kv) then Some (fst kv) else found)
            d None.

(** [item] is given by its table, column, row and check state; the result
    holds the arguments of [self.set_mode.emit], if it is reached. *)
Definition _item_changed_callback (self : t)
    (table : nat) (column : Z) (row : nat) (check : bool)
    : Result (option (Z * DeviceMode.t)) :=
  if negb (column =? Column.value Column.mode) then Done None else
  let mode := if check then DeviceMode.combat else DeviceMode.training in
  let device_type := last_key (Nat.eqb table) (items (_tables self)) in
  let device_id :=
    match device_type with
    | Some ty => last_key (Nat.eqb row) (get (_rows self) ty)
    | None => None
    end in
  match device_type, device_id with
  | Some ty, Some id =>
      match get (_devices self) ty !! id with
      | None => Failed KeyError
      | Some device =>
          match mode, Device.mode device with
          | DeviceMode.combat, DeviceMode.combat
          | DeviceMode.training, DeviceMode.training => Done None
          | _, _ => Done (Some (id, mode))
          end
      end
  | _, _ => Done None
  end.

Definition enable_colors (self : t) : t :=
  mk (_tables self) (_devices self) (_rows self) true.

Definition disable_colors (self : t) : t :=
  mk (_tables self) (_devices self) (_rows self) false.

(** The row that the first branch of [update_device] adds: the header with
    the device id and four empty items. *)
Definition new_row (device_id : Z) : Row :=
  mkRow (Py.format_d device_id)
        (mkItem EmptyString true false false None)
        (mkItem EmptyString true false false None)
        (mkItem EmptyString true false false None)
        (mkItem EmptyString true true false None).

Definition color_of (colors : bool) (state : DeviceState.t) : Color :=
  if colors then
    match state with
    | DeviceState.operational => green
    | DeviceState.reload => green
    | DeviceState.damaged => yellow
    | DeviceState.destroyed => red
    | _ => black
    end
  else black.

(** The second half of [update_device] on the items of one row. *)
Definition paint (color : Color) (device : Device.t) (r : Row) : Row :=
  let present := negb (Device.missing_in_action device) in
  mkRow (header r)
        (mkItem (Py.format_d (Device.group device)) present false
                (checked (group_item r)) (foreground (group_item r)))
        (mkItem (Py.upper (DeviceState.name (Device.state device)))
                present false (checked (state_item r)) (Some color))
        (mkItem (Py.format_d (Device.health device)) present false
                (checked (health_item r)) (Some color))
        (mkItem (text (mode_item r)) present true
                (match Device.mode device with
                 | DeviceMode.combat => true
                 | DeviceMode.training => false
                 end)
                (foreground (mode_item r))).

(** [update_device]: the row is found or added, the device is stored, the
    row is painted.  A raise ends the model's run ([Failed]). *)
Definition update_device (self : t) (widgets : Widgets) (device : Device.t)
    : Result (t * Widgets) :=
  let ty := Device.type device in
  let id := Device.id device in
  let table := get (_tables self) ty in
  let located :=
    match get (_devices self) ty !! id with
    | None =>
        let row := rowCount widgets table in
        Done (row,
              set_table widgets table (widgets table ++ [new_row id]),
              set (_rows self) ty (rows_set (get (_rows self) ty) id row))
    | Some _ =>
        match rows_get (get (_rows self) ty) id with
        | Some row => Done (row, widgets, _rows self)
        | None => Failed KeyError
        end
    end in
  match located with
  | Failed e => Failed e
  | Done (row, widgets1, rows1) =>
      let devices1 :=
        set (_devices self) ty (<[id := device]> (get (_devices self) ty)) in
      let color := color_of (_colors self) (Device.state device) in
      match widgets1 table !! row with
      | None => Failed AttributeError
      | Some r =>
          Done (mk (_tables self) devices1 rows1 (_colors self),
                set_table widgets1 table
                  (<[row := paint color device r]> (widgets1 table)))
      end
  end.

(** ** Runs *)

Definition set_checked (check : bool) (item : Item) : Item :=
  mkItem (text item) (is_enabled item) (is_user_checkable item) check
         (foreground item).

(** The item in [column] of a row takes the check state [check]. *)
Definition set_check (column : Z) (check : bool) (r : Row) : Row :=
  if column =? Column.value Column.group then
    mkRow (header r) (set_checked check (group_item r)) (state_item r)
          (health_item r) (mode_item r)
  else if column =? Column.value Column.state then
    mkRow (header r) (group_item r) (set_checked check (state_item r))
          (health_item r) (mode_item r)
  else if column =? Column.value Column.health then
    mkRow (header r) (group_item r) (state_item r)
          (set_checked check (health_item r)) (mode_item r)
  else if column =? Column.value Column.mode then
    mkRow (header r) (group_item r) (state_item r) (health_item r)
          (set_checked check (mode_item r))
  else r.

(** [item_changed table column row check]: the item at [row], [column] of
    [table] has changed and its check state is now [check]; this is what
    [item.tableWidget()], [item.column()], [item.row()] and
    [item.checkState()] answer in the callback. *)
Inductive Event : Type :=
| call_update_device (device : Device.t)
| call_enable_colors
| call_disable_colors
| item_changed (table : nat) (column : Z) (row : nat) (check : bool).

(** One event: the view, the tables and the [set_mode] signals emitted. *)
Definition step (self : t) (widgets : Widgets) (ev : Event)
    : Result (t * Widgets * list (Z * DeviceMode.t)) :=
  match ev with
  | call_update_device device =>
      match update_device self widgets device with
      | Done (self', widgets') => Done (self', widgets', [])
      | Failed e => Failed e
      end
  | call_enable_colors => Done (enable_colors self, widgets, [])
  | call_disable_colors => Done (disable_colors self, widgets, [])
  | item_changed table column row check =>
      let widgets :=
        set_table widgets table
          (alter (set_check column check) row (widgets table)) in
      match _item_changed_callback self table column row check with
      | Done (Some signal) => Done (self, widgets, [signal])
      | Done None => Done (self, widgets, [])
      | Failed e => Failed e
      end
  end.

Fixpoint run_from (self : t) (widgets : Widgets)
    (emitted : list (Z * DeviceMode.t)) (evs : list Event)
    : Result (t * Widgets * list (Z * DeviceMode.t)) :=
  match evs with
  | [] => Done (self, widgets, emitted)
  | ev :: evs' =>
      match step self widgets ev with
      | Done (self', widgets', out) =>
          run_from self' widgets' (emitted ++ out) evs'
      | Failed e => Failed e
      end
  end.

(** ** What a row shows *)

(** What [update_device] writes and nothing but [update_device] changes:
    the header, the texts and the flags. *)
Definition labelled (r : Row) (device : Device.t) : Prop :=
  header r = Py.format_d (Device.id device)
  /\ text (group_item r) = Py.format_d (Device.group device)
  /\ text (state_item r) = Py.upper (DeviceState.name (Device.state device))
  /\ text (health_item r) = Py.format_d (Device.health device)
  /\ is_user_checkable (mode_item r) = true
  /\ is_enabled (group_item r) = negb (Device.missing_in_action device)
  /\ is_enabled (state_item r) = negb (Device.missing_in_action device)
  /\ is_enabled (health_item r) = negb (Device.missing_in_action device)
  /\ is_enabled (mode_item r) = negb (Device.missing_in_action device).

(** The row shows the device: its labels, and the mode box is ticked
    exactly for combat mode. *)
Definition shows (r : Row) (device : Device.t) : Prop :=
  labelled r device
  /\ checked (mode_item r)
     = match Device.mode device with
       | DeviceMode.combat => true
       | DeviceMode.training => false
       end.

(** The bookkeeping of one device type: [base] rows were in the table
    before the view used it. *)
Definition kept (base : nat) (ty : DeviceType.t) (self : t)
    (widgets : Widgets) : Prop :=
  let rows := get (_rows self) ty in
  let table := get (_tables self) ty in
  map snd rows = seq base (length rows)
  /\ rowCount widgets table = (base + length rows)%nat
  /\ List.NoDup (map fst rows)
  /\ (forall id, get (_devices self) ty !! id = None
                 <-> rows_get rows id = None)
  /\ (forall id device, get (_devices self) ty !! id = Some device ->
        Device.type device = ty /\ Device.id device = id
        /\ exists row r, rows_get rows id = Some row
                         /\ widgets table !! row = Some r
                         /\ labelled r device).

Definition tidy (base : DeviceType.t -> nat) (self : t) (widgets : Widgets)
    : Prop :=
  forall ty, kept (base ty) ty self widgets.

Definition other (mode : DeviceMode.t) : DeviceMode.t :=
  match mode with
  | DeviceMode.combat => DeviceMode.training
  | DeviceMode.training => DeviceMode.combat
  end.

Definition same_type (a b : DeviceType.t) : bool :=
  match a, b with
  | DeviceType.tank, DeviceType.tank
  | DeviceType.turret, DeviceType.turret
  | DeviceType.target, DeviceType.target => true
  | _, _ => false
  end.

(** [ev] is a report about the device [id] of type [ty]. *)
Definition reports (ty : DeviceType.t) (id : Z) (ev : Event) : bool :=
  match ev with
  | call_update_device device =>
      same_type (Device.type device) ty && (Device.id device =? id)
  | _ => false
  end.

(** [ev] changes the mode box at [row] of [table]. *)
Definition ticks (table row : nat) (ev : Event) : bool :=
  match ev with
  | item_changed table' column row' _ =>
      Nat.eqb table' table && (column =? Column.value Column.mode)
      && Nat.eqb row' row
  | _ => false
  end.

(** [update_device] was called with [device] during [evs]. *)
Definition reported (device : Device.t) (evs : list Event) : Prop :=
  List.In (call_update_device device) evs.

(** [signal] asks a device that was reported during [evs] to leave the
    mode of one of its reports. *)
Definition asked_of (evs : list Event) (signal : Z * DeviceMode.t) : Prop :=
  exists device,
    reported device evs
    /\ fst signal = Device.id device
    /\ snd signal = other (Device.mode device).

(** Empty tables, and two devices for the examples. *)
Definition empty_tables : Widgets := fun _ => [].

Definition tank_3 : Device.t :=
  Device.mk 3 DeviceType.tank 1 DeviceMode.training
            DeviceState.operational 100 0 false.

Definition target_3 : Device.t :=
  Device.mk 3 DeviceType.target 2 DeviceMode.combat
            DeviceState.damaged 40 0 true.

Definition run (tank_table turret_table target_table : nat)
    (widgets : Widgets) (evs : list Event)
    : Result (t * Widgets * list (Z * DeviceMode.t)) :=
  run_from (__init__ tank_table turret_table target_table) widgets [] evs.

End DeviceView.

(* ===================================================================== *)
(** * Facts about the Python primitives *)
(* ===================================================================== *)

Module PyFacts.

(** [String.append] is kept folded by [simpl]; these unfold it by hand. *)
Lemma append_cons c (s t : string) :
  (String c s ++ t)%string = String c (s ++ t)%string.
Proof. reflexivity. Qed.

Lemma append_empty_r (s : string) : (s ++ EmptyString)%string = s.
Proof.
  induction s as [|c s IH]; [reflexivity|]. rewrite append_cons, IH. reflexivity.
Qed.

Lemma digit_not_separator c : re_digit c = true -> re_space_or_comma c = false.
Proof.
  destruct c as [[] [] [] [] [] [] [] []]; vm_compute; congruence.
Qed.

Lemma separator_not_digit c : re_space_or_comma c = true -> re_digit c = false.
Proof.
  destruct c as [[] [] [] [] [] [] [] []]; vm_compute; congruence.
Qed.

Lemma digit_value_bounds c : re_digit c = true -> 0 <= digit_value c <= 9.
Proof.
  destruct c as [[] [] [] [] [] [] [] []]; vm_compute; intuition congruence.
Qed.

(** ** [int] of a captured group is never negative *)

Lemma int_acc_nonneg s : forall acc,
  all_chars re_digit s = true -> 0 <= acc -> 0 <= int_acc s acc.
Proof.
  induction s as [|c s IH]; simpl; intros acc Hs Hacc; [lia|].
  apply andb_prop in Hs as [Hc Hs].
  apply IH; [assumption|]. pose proof (digit_value_bounds c Hc). lia.
Qed.

Lemma int_nonneg s : all_chars re_digit s = true -> 0 <= int s.
Proof. intros H. apply int_acc_nonneg; [assumption | lia]. Qed.

(** ** [int (format_d n) = n] for the numbers the wire carries *)

Ltac digit_code :=
  match goal with
  | |- context [Z.of_nat (code ?c)] =>
      let v := eval vm_compute in (Z.of_nat (code c)) in
      change (Z.of_nat (code c)) with v
  end.

Lemma int_acc_of_uint_acc d : forall acc,
  int_acc (NilEmpty.string_of_uint d) (Z.pos acc) = Z.pos (Pos.of_uint_acc d acc).
Proof.
  induction d; intros acc; simpl; try reflexivity;
    unfold digit_value; rewrite <- IHd; f_equal; digit_code; lia.
Qed.

Lemma int_acc_of_uint d :
  int_acc (NilEmpty.string_of_uint d) 0 = Z.of_N (Pos.of_uint d).
Proof.
  induction d; simpl; try reflexivity; try assumption;
    unfold digit_value; digit_code; apply (int_acc_of_uint_acc d).
Qed.

Lemma all_digits_of_uint d : all_chars re_digit (NilEmpty.string_of_uint d) = true.
Proof. induction d; simpl; auto. Qed.

Lemma string_of_uint_nonnil d :
  d <> Nil -> NilZero.string_of_uint d = NilEmpty.string_of_uint d.
Proof. destruct d; simpl; congruence. Qed.

Lemma string_of_uint_nonempty d :
  d <> Nil -> NilEmpty.string_of_uint d <> EmptyString.
Proof. destruct d; simpl; congruence. Qed.

(** A non-negative number prints as a non-empty run of digits that
    [int] reads back. *)
Lemma format_d_nonneg n :
  0 <= n ->
  all_chars re_digit (format_d n) = true
  /\ format_d n <> EmptyString
  /\ int (format_d n) = n.
Proof.
  intros Hn. unfold format_d, int.
  destruct n as [|p|p]; [vm_compute; intuition congruence | | lia].
  simpl. pose proof (DecimalPos.Unsigned.to_uint_nonnil p) as Hnil.
  rewrite (string_of_uint_nonnil _ Hnil).
  split; [apply all_digits_of_uint|].
  split; [apply string_of_uint_nonempty; assumption|].
  rewrite int_acc_of_uint, DecimalPos.Unsigned.of_to. reflexivity.
Qed.

(** ** The greedy [+] *)

Lemma plus_greedy_sound {A} p s : forall (k : string -> string -> option A) r,
  plus_greedy p s k = Some r ->
  exists m rest,
    s = (m ++ rest)%string /\ m <> EmptyString
    /\ all_chars p m = true /\ k m rest = Some r.
Proof.
  induction s as [|c s IH]; simpl; intros k r H; [discriminate|].
  destruct (p c) eqn:Hc; [|discriminate].
  destruct (plus_greedy p s _) eqn:Hg.
  - injection H as ->.
    apply IH in Hg as (m & rest & -> & Hm & Hall & Hk).
    exists (String c m), rest. simpl. rewrite Hc, Hall. repeat split; congruence.
  - exists (String c EmptyString), s. simpl. rewrite Hc. repeat split; congruence.
Qed.

Lemma plus_greedy_stops {A} p s (k : string -> string -> option A) :
  stops p s = true -> plus_greedy p s k = None.
Proof. destruct s; simpl; [reflexivity|]. destruct (p a); simpl; congruence. Qed.

(** The longest run is tried first. *)
Lemma plus_greedy_longest {A} p m : forall rest (k : string -> string -> option A) r,
  m <> EmptyString -> all_chars p m = true -> stops p rest = true ->
  k m rest = Some r ->
  plus_greedy p (m ++ rest) k = Some r.
Proof.
  induction m as [|c m IH]; intros rest k r Hne Hall Hstop Hk; [congruence|].
  simpl in *. apply andb_prop in Hall as [Hc Hall]. rewrite Hc.
  destruct m as [|c' m'].
  - simpl. rewrite plus_greedy_stops by assumption. assumption.
  - rewrite (IH rest (fun m0 rest0 => k (String c m0) rest0) r); auto; congruence.
Qed.

End PyFacts.
(* ===================================================================== *)
(** * Facts about the settings *)
(* ===================================================================== *)

Module SettingsManagerFacts.
Import SettingsManager.

Lemma dict_get_set {V} (d : list (string * V)) k v k' :
  dict_get (dict_set d k v) k'
  = if String.eqb k k' then Some v else dict_get d k'.
Proof.
  induction d as [|[k0 v0] d IH]; cbn [dict_set dict_get]; [reflexivity|].
  destruct (String.eqb_spec k0 k) as [->|Hne]; cbn [dict_get].
  - destruct (String.eqb k k'); reflexivity.
  - rewrite IH. destruct (String.eqb_spec k0 k') as [->|Hne']; [|reflexivity].
    destruct (String.eqb_spec k k'); [congruence | reflexivity].
Qed.

Lemma dict_get_app {V} (a b : list (string * V)) k :
  dict_get (a ++ b) k
  = match dict_get a k with Some v => Some v | None => dict_get b k end.
Proof.
  induction a as [|[k0 v0] a IH]; cbn [app dict_get]; [reflexivity|].
  destruct (String.eqb k0 k); [reflexivity | exact IH].
Qed.

Lemma dict_set_keys {V} (d : list (string * V)) k v x :
  In x (map fst (dict_set d k v)) <-> x = k \/ In x (map fst d).
Proof.
  induction d as [|[k0 v0] d IH]; cbn [dict_set map fst In];
    [intuition congruence|].
  destruct (String.eqb_spec k0 k) as [->|Hne]; cbn [map fst In].
  - intuition congruence.
  - rewrite IH. intuition congruence.
Qed.

Lemma dict_set_NoDup {V} (d : list (string * V)) k v :
  List.NoDup (map fst d) -> List.NoDup (map fst (dict_set d k v)).
Proof.
  induction d as [|[k0 v0] d IH]; cbn [dict_set map fst]; intros Hnd.
  - constructor; [intros [] | constructor].
  - apply List.NoDup_cons_iff in Hnd as [Hnin Hnd].
    destruct (String.eqb_spec k0 k) as [->|Hne]; cbn [map fst].
    + constructor; assumption.
    + constructor; [|apply IH; exact Hnd].
      rewrite dict_set_keys. intros [E|E]; [congruence | contradiction].
Qed.

(** One loop over a group: its assignments stand, everything else is
    kept. *)
Lemma add_group_get items : forall params key,
  dict_get (add_group items params) key
  = match assigned items key with
    | Some v => Some v
    | None => dict_get params key
    end.
Proof.
  unfold add_group, assigned.
  induction items as [|[k0 v0] items IH]; intros params key; [reflexivity|].
  cbn [fold_left rev fst snd]. rewrite IH, dict_get_app, dict_get_set.
  destruct (dict_get (rev items) key); [reflexivity|].
  cbn [dict_get]. destruct (String.eqb k0 key); reflexivity.
Qed.

Lemma add_group_NoDup items : forall params,
  List.NoDup (map fst params) -> List.NoDup (map fst (add_group items params)).
Proof.
  unfold add_group.
  induction items as [|[k0 v0] items IH]; intros params Hnd; [exact Hnd|].
  cbn [fold_left]. apply IH, dict_set_NoDup, Hnd.
Qed.

(** X14.  The parameters of a device are layered: what the group
    [Device_<id>] of the settings file assigns to a key stands; failing
    that, what [Type_<type>] assigns; failing that, what [Default]
    assigns; a key that none of the three has is not a parameter.  No
    key comes twice, so no parameter is uploaded twice. *)
Theorem device_settings_override_type_settings_override_defaults
    (self : SettingsManager.t) (settings : QSettings)
    (device_type : DeviceType.t) (device_id : Z) (key : string) :
  _settings self = Some settings ->
  let params := get_device_params self device_type device_id in
  List.NoDup (map fst params)
  /\ dict_get params key
     = first_of
         (assigned (group_items settings ("Device_" ++ format_d device_id)%string)
                   key)
         (assigned (group_items settings
                      ("Type_" ++ format_d (DeviceType.value device_type))%string)
                   key)
         (assigned (group_items settings "Default") key).
Proof.
  intros Hs. unfold get_device_params. rewrite Hs. cbn zeta. split.
  - do 3 apply add_group_NoDup. constructor.
  - rewrite !add_group_get. unfold first_of.
    destruct (assigned (group_items settings ("Device_" ++ _)%string) key);
      [reflexivity|].
    destruct (assigned (group_items settings ("Type_" ++ _)%string) key);
      [reflexivity|].
    destruct (assigned (group_items settings "Default") key); reflexivity.
Qed.

Lemma device_settings_override_type_settings_override_defaults_witness :
  let self :=
    mk (Some [("Default"%string, [("IRPower"%string, 7); ("Group"%string, 2)]);
              ("Type_0"%string, [("IRPower"%string, 9)]);
              ("Device_5"%string, [("Group"%string, 4)])]) in
  dict_get (get_device_params self DeviceType.tank 5) "IRPower" = Some 9
  /\ dict_get (get_device_params self DeviceType.tank 5) "Group" = Some 4
  /\ dict_get (get_device_params self DeviceType.target 6) "IRPower" = Some 7.
Proof.
  intros self. split; [|split].
  - exact (proj2 (device_settings_override_type_settings_override_defaults
                    self _ DeviceType.tank 5 "IRPower" eq_refl)).
  - exact (proj2 (device_settings_override_type_settings_override_defaults
                    self _ DeviceType.tank 5 "Group" eq_refl)).
  - exact (proj2 (device_settings_override_type_settings_override_defaults
                    self _ DeviceType.target 6 "IRPower" eq_refl)).
Defined.

End SettingsManagerFacts.


(* ===================================================================== *)
(** * Facts about the device poller *)
(* ===================================================================== *)

Module DeviceManagerFacts.
Import DeviceManager PyFacts.

(** ** The info parser *)

(** What a successful match looks like: six runs of digits. *)
Lemma info_match_groups response m :
  re_match info_regexp response = Some m ->
  exists g1 g2 g3 g4 g5 g6,
    m = [g1; g2; g3; g4; g5; g6]
    /\ Forall (fun g => all_chars re_digit g = true) m
    /\ g1 <> EmptyString
    /\ exists tail, response = (g1 ++ tail)%string.
Proof.
  unfold re_match. cbn [info_regexp field_count seq flat_map Nat.eqb Nat.sub app].
  cbn [re_match_from].
  intros H.
  apply plus_greedy_sound in H as (g1 & r1 & E1 & N1 & D1 & H).
  apply plus_greedy_sound in H as (s1 & r2 & E2 & _ & _ & H).
  apply plus_greedy_sound in H as (g2 & r3 & E3 & _ & D2 & H).
  apply plus_greedy_sound in H as (s2 & r4 & E4 & _ & _ & H).
  apply plus_greedy_sound in H as (g3 & r5 & E5 & _ & D3 & H).
  apply plus_greedy_sound in H as (s3 & r6 & E6 & _ & _ & H).
  apply plus_greedy_sound in H as (g4 & r7 & E7 & _ & D4 & H).
  apply plus_greedy_sound in H as (s4 & r8 & E8 & _ & _ & H).
  apply plus_greedy_sound in H as (g5 & r9 & E9 & _ & D5 & H).
  apply plus_greedy_sound in H as (s5 & r10 & E10 & _ & _ & H).
  apply plus_greedy_sound in H as (g6 & r11 & E11 & _ & D6 & H).
  simpl in H. injection H as <-.
  exists g1, g2, g3, g4, g5, g6. split; [reflexivity|]. split.
  - repeat constructor; assumption.
  - split; [assumption|]. exists r1. assumption.
Qed.

Lemma info_match_not_ack response m :
  re_match info_regexp response = Some m -> String.eqb response "Ack 2" = false.
Proof.
  intros H. apply info_match_groups in H
    as (g1 & g2 & g3 & g4 & g5 & g6 & -> & Hd & Hne & tail & ->).
  apply Forall_cons_1 in Hd as [Hd _].
  destruct g1 as [|c g1]; [congruence|].
  simpl in Hd. apply andb_prop in Hd as [Hc _].
  apply String.eqb_neq. intros E. simpl in E. injection E as -> _.
  vm_compute in Hc. discriminate.
Qed.

(** A line whose fields are runs of digits with separators between them
    is matched, and the groups are those runs. *)
Lemma info_match_line sep g1 g2 g3 g4 g5 g6 :
  is_separator sep = true ->
  Forall (fun g => all_chars re_digit g = true /\ g <> EmptyString)
         [g1; g2; g3; g4; g5; g6] ->
  re_match info_regexp
    (g1 ++ sep ++ g2 ++ sep ++ g3 ++ sep ++ g4 ++ sep ++ g5 ++ sep ++ g6)%string
  = Some [g1; g2; g3; g4; g5; g6].
Proof.
  intros Hsep Hg.
  unfold is_separator in Hsep. apply andb_prop in Hsep as [Hs Hsne].
  apply negb_true_iff, String.eqb_neq in Hsne.
  repeat match goal with
         | H : Forall _ (_ :: _) |- _ => apply Forall_cons_1 in H as [[? ?] H]
         end.
  assert (Hstop_sep : forall g tail,
             all_chars re_digit g = true -> g <> EmptyString ->
             stops re_space_or_comma (g ++ tail) = true).
  { intros g tail Hd Hne. destruct g as [|c g]; [congruence|].
    rewrite append_cons. simpl in *. apply andb_prop in Hd as [Hc _].
    rewrite (digit_not_separator c Hc). reflexivity. }
  assert (Hstop_dig : forall tail, stops re_digit (sep ++ tail) = true).
  { intros tail. destruct sep as [|c sep']; [congruence|].
    rewrite append_cons. simpl in *. apply andb_prop in Hs as [Hc _].
    rewrite (separator_not_digit c Hc). reflexivity. }
  assert (Hstop_last : stops re_space_or_comma g6 = true).
  { rewrite <- (append_empty_r g6). apply Hstop_sep; assumption. }
  unfold re_match. cbn [info_regexp field_count seq flat_map Nat.eqb Nat.sub app].
  cbn [re_match_from].
  do 4 (apply plus_greedy_longest; [assumption | assumption | apply Hstop_dig | ];
        apply plus_greedy_longest; [assumption | assumption | auto | ]).
  apply plus_greedy_longest; [assumption | assumption | apply Hstop_dig | ].
  apply plus_greedy_longest; [assumption | assumption | assumption | ].
  rewrite <- (append_empty_r g6) at 1.
  apply plus_greedy_longest; [assumption | assumption | reflexivity | ].
  reflexivity.
Qed.


(** ** Validation *)

(** Walks down an [if v =? c then ... else ...] chain. *)
Ltac enum_chain :=
  repeat match goal with
         | |- context [if (?a =? ?b) then _ else _] =>
             destruct (Z.eqb_spec a b); [subst|]
         end.

Lemma type_call_ok v ty : DeviceType.call v = Ok ty -> DeviceType.value ty = v.
Proof. unfold DeviceType.call. enum_chain; intros [= <-]; reflexivity. Qed.

Lemma type_call_range v : is_ok (DeviceType.call v) = true <-> 0 <= v <= 2.
Proof.
  unfold DeviceType.call. enum_chain; cbn; split; intros; try lia; try reflexivity;
    discriminate.
Qed.

Lemma type_call_raise v e : DeviceType.call v = Raise e -> e = ValueError.
Proof. unfold DeviceType.call. enum_chain; congruence. Qed.

Lemma mode_call_ok v mo : DeviceMode.call v = Ok mo -> DeviceMode.value mo = v.
Proof. unfold DeviceMode.call. enum_chain; intros [= <-]; reflexivity. Qed.

Lemma mode_call_range v : is_ok (DeviceMode.call v) = true <-> 0 <= v <= 1.
Proof.
  unfold DeviceMode.call. enum_chain; cbn; split; intros; try lia; try reflexivity;
    discriminate.
Qed.

Lemma mode_call_raise v e : DeviceMode.call v = Raise e -> e = ValueError.
Proof. unfold DeviceMode.call. enum_chain; congruence. Qed.

Lemma state_call_ok v st : DeviceState.call v = Ok st -> DeviceState.value st = v.
Proof. unfold DeviceState.call. enum_chain; intros [= <-]; reflexivity. Qed.

Lemma state_call_range v : is_ok (DeviceState.call v) = true <-> -1 <= v <= 5.
Proof.
  unfold DeviceState.call. enum_chain; cbn; split; intros; try lia; try reflexivity;
    discriminate.
Qed.

Lemma state_call_raise v e : DeviceState.call v = Raise e -> e = ValueError.
Proof. unfold DeviceState.call. enum_chain; congruence. Qed.

Lemma type_call_value ty : DeviceType.call (DeviceType.value ty) = Ok ty.
Proof. destruct ty; reflexivity. Qed.

Lemma mode_call_value mo : DeviceMode.call (DeviceMode.value mo) = Ok mo.
Proof. destruct mo; reflexivity. Qed.

Lemma state_call_value st : DeviceState.call (DeviceState.value st) = Ok st.
Proof. destruct st; reflexivity. Qed.

(** The validation of the source is the six range checks. *)
Lemma validate_checked_fields address g1 g2 g3 g4 g5 g6 :
  validate address [g1; g2; g3; g4; g5; g6]
  = Ok (checked_fields address (int g1) (int g2) (int g3) (int g4)
                       (int g5) (int g6)).
Proof.
  unfold validate, checked_fields, group. cbn [nth Nat.sub].
  generalize (int g1) (int g2) (int g3) (int g4) (int g5) (int g6).
  intros ty gr mo st he ti.
  rewrite !Z.gtb_ltb, !Z.leb_antisym.
  destruct (DeviceType.call ty) as [ty'|e1] eqn:E1;
    [|apply type_call_raise in E1 as ->];
  (destruct (DeviceMode.call mo) as [mo'|e2] eqn:E2;
    [|apply mode_call_raise in E2 as ->]);
  (destruct (DeviceState.call st) as [st'|e3] eqn:E3;
    [|apply state_call_raise in E3 as ->]);
  cbn;
  destruct (gr <? 0), (7 <? gr), (he <? 0), (255 <? he), (ti <? 0);
  reflexivity.
Qed.

Lemma checked_fields_ranges address ty gr mo st he ti :
  is_Some (checked_fields address ty gr mo st he ti)
  <-> (0 <= ty <= 2) /\ (0 <= gr <= 7) /\ (0 <= mo <= 1) /\ (-1 <= st <= 5)
      /\ (0 <= he <= 255) /\ 0 <= ti.
Proof.
  rewrite <- type_call_range, <- mode_call_range, <- state_call_range.
  unfold checked_fields.
  destruct (DeviceType.call ty), (DeviceMode.call mo), (DeviceState.call st);
    cbn;
    try (split; [intros [? [=]] | intros (? & ? & ? & ? & ? & ?); discriminate]).
  destruct (Z.leb_spec 0 gr), (Z.leb_spec gr 7), (Z.leb_spec 0 he),
    (Z.leb_spec he 255), (Z.leb_spec 0 ti); cbn;
    (split; [intros [? [=]] | intros (? & ? & ? & ? & ? & ?)]);
    try lia; try (repeat split; (reflexivity || lia)); eauto.
Qed.

(** The fields of a record that passed the checks. *)
Lemma checked_fields_values address ty gr mo st he ti d :
  checked_fields address ty gr mo st he ti = Some d ->
  Device.id d = address
  /\ DeviceType.value (Device.type d) = ty
  /\ Device.group d = gr
  /\ DeviceMode.value (Device.mode d) = mo
  /\ DeviceState.value (Device.state d) = st
  /\ Device.health d = he
  /\ Device.time d = ti
  /\ Device.missing_in_action d = false.
Proof.
  unfold checked_fields.
  destruct (DeviceType.call ty) as [ty'|] eqn:E1; [|discriminate].
  destruct (DeviceMode.call mo) as [mo'|] eqn:E2; [|discriminate].
  destruct (DeviceState.call st) as [st'|] eqn:E3; [|discriminate].
  destruct (_ && _); [|discriminate].
  intros [= <-]. cbn.
  rewrite (type_call_ok _ _ E1), (mode_call_ok _ _ E2), (state_call_ok _ _ E3).
  repeat split; reflexivity.
Qed.

(** ** The registry update *)

Lemma update_registry_ack self :
  update_registry self "Ack 2"
  = Ok (match _devices self !! _current_device self with
        | Some device =>
            let device := Device.set_missing_in_action true device in
            (store device self, [emit (Signal.device_updated device)])
        | None => (self, [])
        end).
Proof.
  unfold update_registry, store. cbn [String.eqb Ascii.eqb Bool.eqb].
  destruct (_devices self !! _current_device self); reflexivity.
Qed.

Lemma update_registry_info self response g1 g2 g3 g4 g5 g6 :
  re_match info_regexp response = Some [g1; g2; g3; g4; g5; g6] ->
  update_registry self response
  = Ok (match checked_fields (_current_device self) (int g1) (int g2) (int g3)
                             (int g4) (int g5) (int g6) with
        | Some device =>
            (store device self, [emit (Signal.device_updated device)])
        | None => (self, [])
        end).
Proof.
  intros Hm. unfold update_registry.
  rewrite (info_match_not_ack _ _ Hm), Hm, validate_checked_fields.
  cbn. destruct (checked_fields _ _ _ _ _ _ _); reflexivity.
Qed.

Lemma update_registry_unmatched self response :
  String.eqb response "Ack 2" = false ->
  re_match info_regexp response = None ->
  update_registry self response = Ok (self, []).
Proof. intros H1 H2. unfold update_registry. rewrite H1, H2. reflexivity. Qed.

(** The update never raises, and touches nothing but the entry of the
    polled address. *)
Lemma update_registry_frame self response :
  exists self' out,
    update_registry self response = Ok (self', out)
    /\ _settings_manager self' = _settings_manager self
    /\ _current_device self' = _current_device self
    /\ _upload self' = _upload self
    /\ _first_uploaded self' = _first_uploaded self
    /\ _enabled self' = _enabled self
    /\ (forall address, address <> _current_device self ->
          _devices self' !! address = _devices self !! address)
    /\ sends out = []
    /\ List.filter is_upload_finished out = [].
Proof.
  destruct (String.eqb response "Ack 2") eqn:Hack.
  - apply String.eqb_eq in Hack as ->. rewrite update_registry_ack.
    destruct (_devices self !! _current_device self) eqn:E; cbn;
      eexists _, _; (split; [reflexivity|]); cbn; repeat split; auto.
    intros a Ha. apply lookup_insert_ne. congruence.
  - destruct (re_match info_regexp response) as [m|] eqn:Hm.
    + destruct (info_match_groups _ _ Hm)
        as (g1 & g2 & g3 & g4 & g5 & g6 & -> & _).
      rewrite (update_registry_info _ _ _ _ _ _ _ _ Hm).
      destruct (checked_fields _ _ _ _ _ _ _); cbn;
        eexists _, _; (split; [reflexivity|]); cbn; repeat split; auto.
      intros a Ha. apply lookup_insert_ne. congruence.
    + rewrite update_registry_unmatched by assumption.
      eexists _, _; (split; [reflexivity|]); cbn; repeat split; auto.
Qed.

(** ** The upload loop *)

(** With parameter names only, the loop sends one command per key. *)
Lemma upload_params_known address params :
  Forall (fun kv => is_ok (DeviceParam.getitem (fst kv)) = true) params ->
  upload_params address params
  = Ok (map (fun rc => send_command (fst rc) (snd rc))
            (flat_map
               (fun kv =>
                  match DeviceParam.getitem (fst kv) with
                  | Ok p => [(set_parameter_command address (DeviceParam.value p)
                                                    (snd kv), None)]
                  | Raise _ => []
                  end) params)).
Proof.
  induction 1 as [|[name value] params Hk _ IH]; [reflexivity|].
  cbn [upload_params flat_map fst snd] in *.
  destruct (DeviceParam.getitem name) as [p|]; [|discriminate].
  cbn. rewrite IH. reflexivity.
Qed.

(** A key that is not a parameter name makes the loop raise [KeyError]:
    the [except ValueError] clause does not catch it. *)
Lemma upload_params_unknown address params :
  Exists (fun kv => is_ok (DeviceParam.getitem (fst kv)) = false) params ->
  upload_params address params = Raise KeyError.
Proof.
  induction params as [|[name value] params IH]; intros H; [inversion H|].
  cbn [upload_params fst snd].
  unfold DeviceParam.getitem in *.
  destruct (DeviceParam.lookup_member DeviceParam.members name) eqn:E.
  - cbn. rewrite IH; [reflexivity|].
    inversion H as [? ? H0|]; subst; [|assumption].
    cbn [fst] in H0. rewrite E in H0. discriminate.
  - reflexivity.
Qed.

(** ** The next query *)

(** Whatever it sends, [_query_next_device] leaves the registry, the
    cursor and the enabled flag alone. *)
Lemma _query_next_device_frame self self' out :
  _query_next_device self = Ok (self', out) ->
  _devices self' = _devices self
  /\ _current_device self' = _current_device self
  /\ _enabled self' = _enabled self
  /\ _settings_manager self' = _settings_manager self.
Proof.
  unfold _query_next_device.
  destruct (_enabled self) eqn:He; cbn; [|intros [= <- <-]; auto].
  destruct (_upload self) eqn:Hu; cbn.
  - destruct (_first_uploaded self) as [first|] eqn:Hf; cbn.
    + destruct (first =? _current_device self); cbn.
      * intros [= <- <-]. cbn. auto.
      * rewrite Hu, Hf.
        destruct (_devices self !! _current_device self) as [d|]; cbn.
        -- destruct (Device.missing_in_action d); cbn.
           ++ intros [= <- <-]; auto.
           ++ destruct (upload_params _ _); cbn; [|discriminate].
              intros [= <- <-]; auto.
        -- intros [= <- <-]; auto.
    + rewrite Hu, Hf. cbn.
      destruct (_devices self !! _current_device self) as [d|]; cbn.
      * destruct (Device.missing_in_action d); cbn.
        -- intros [= <- <-]; auto.
        -- destruct (upload_params _ _); cbn; [|discriminate].
           intros [= <- <-]; auto.
      * intros [= <- <-]; auto.
  - rewrite Hu. intros [= <- <-]; auto.
Qed.

Lemma advance_frame self self' out :
  advance self = Ok (self', out) ->
  _devices self' = _devices self
  /\ _enabled self' = _enabled self
  /\ _settings_manager self' = _settings_manager self.
Proof.
  unfold advance.
  set (s1 := set_current_device (_current_device self + 1) self).
  set (s2 := if _current_device s1 >? LAST_DEVICE
             then set_current_device FIRST_DEVICE s1 else s1).
  assert (Hs2 : _devices s2 = _devices self /\ _enabled s2 = _enabled self
                /\ _settings_manager s2 = _settings_manager self).
  { subst s2 s1. destruct (_ >? _); cbn; auto. }
  destruct Hs2 as (Hd & He & Hs).
  destruct (_enabled s2) eqn:E.
  - intros H. apply _query_next_device_frame in H as (H1 & _ & H2 & H3).
    repeat split; congruence.
  - intros [= <- <-]. repeat split; congruence.
Qed.

(** What the callback leaves in the registry is what the registry update
    put there. *)
Lemma _process_query_response_devices self response self' out :
  _process_query_response self response = Ok (self', out) ->
  exists self1 out1,
    update_registry self response = Ok (self1, out1)
    /\ _devices self' = _devices self1.
Proof.
  unfold _process_query_response.
  destruct (update_registry self response) as [[self1 out1]|] eqn:E1;
    cbn; [|discriminate].
  destruct (advance self1) as [[self2 out2]|] eqn:E2; cbn; [|discriminate].
  intros [= <- <-]. exists self1, out1. split; [reflexivity|].
  apply advance_frame in E2 as (-> & _). reflexivity.
Qed.

Lemma sends_as_effects calls : sends (as_effects calls) = calls.
Proof.
  induction calls as [|[r c] calls IH]; [reflexivity|].
  cbn. unfold as_effects in IH. fold (sends (map (fun rc => send_command (fst rc) (snd rc)) calls)).
  rewrite IH. reflexivity.
Qed.

Lemma sends_app (a b : list Effect) : sends (a ++ b) = sends a ++ sends b.
Proof. unfold sends. apply flat_map_app. Qed.

(** [_query_next_device] of an enabled poller whose settings only have
    parameter names. *)
Lemma _query_next_device_known self :
  known_keys (_settings_manager self) ->
  _enabled self = true ->
  _query_next_device self
  = Ok (if finishing self then
          (set_upload false (set_first_uploaded None self),
           [send_command (get_info_command (_current_device self))
                         (Some Callback._process_query_response);
            emit Signal.upload_finished])
        else if _upload self then
          (match _first_uploaded self with
           | None => set_first_uploaded (Some (_current_device self)) self
           | Some _ => self
           end,
           send_command (get_info_command (_current_device self))
                        (Some Callback._process_query_response)
           :: as_effects (uploads_for (_settings_manager self) (_devices self)
                                      (_current_device self)))
        else
          (self,
           [send_command (get_info_command (_current_device self))
                         (Some Callback._process_query_response)])).
Proof.
  intros Hk He. unfold _query_next_device, finishing, uploads_for.
  rewrite He. cbn [negb].
  destruct (_upload self) eqn:Hu; cbn [andb].
  - destruct (_first_uploaded self) as [first|] eqn:Hf.
    + destruct (first =? _current_device self) eqn:Hc; cbn.
      * reflexivity.
      * rewrite Hu, Hf.
        destruct (_devices self !! _current_device self) as [d|]; cbn;
          [|reflexivity].
        destruct (Device.missing_in_action d); cbn; [reflexivity|].
        rewrite (upload_params_known _ _ (Hk _ _)). reflexivity.
    + cbn. rewrite Hu, Hf. cbn.
      destruct (_devices self !! _current_device self) as [d|]; cbn;
        [|reflexivity].
      destruct (Device.missing_in_action d); cbn; [reflexivity|].
      rewrite (upload_params_known _ _ (Hk _ _)). reflexivity.
  - rewrite Hu. reflexivity.
Qed.

Lemma _query_next_device_ok self :
  known_keys (_settings_manager self) ->
  is_ok (_query_next_device self) = true.
Proof.
  intros Hk. destruct (_enabled self) eqn:He.
  - rewrite _query_next_device_known by assumption. reflexivity.
  - unfold _query_next_device. rewrite He. reflexivity.
Qed.

Lemma advance_ok self :
  known_keys (_settings_manager self) -> is_ok (advance self) = true.
Proof.
  intros Hk. unfold advance.
  match goal with
  | |- context [if _enabled ?s then _ else _] =>
      assert (Hs : _settings_manager s = _settings_manager self)
        by (destruct (_ >? _); reflexivity);
      destruct (_enabled s); [|reflexivity];
      apply _query_next_device_ok; rewrite Hs; assumption
  end.
Qed.

Lemma _process_query_response_ok self response :
  known_keys (_settings_manager self) ->
  is_ok (_process_query_response self response) = true.
Proof.
  intros Hk. unfold _process_query_response.
  destruct (update_registry_frame self response)
    as (self1 & out1 & -> & Hs & _).
  cbn. rewrite <- Hs in Hk. pose proof (advance_ok self1 Hk) as Hok.
  destruct (advance self1) as [[? ?]|]; [reflexivity | discriminate].
Qed.

(** A settings manager whose [load] failed has no keys at all. *)
Lemma known_keys_unloaded : known_keys (SettingsManager.mk None).
Proof. intros ty id. constructor. Qed.

(** ** Negative acknowledgment *)

(** C6.  The answer ["Ack 2"] to the poll of an address that has a record
    replaces that record by the same record with [missing_in_action] set:
    [id], [type], [group], [mode], [state], [health] and [time] are those
    of the old record and the other addresses keep their records.  When
    the address has no record the registry stays as it is.  This is what
    the whole callback leaves in the registry, and the callback returns
    whenever the settings only hold parameter names. *)
Theorem negative_ack_only_marks_missing (self : DeviceManager.t) :
  match _devices self !! _current_device self with
  | Some device =>
      let marked := Device.set_missing_in_action true device in
      update_registry self "Ack 2"
      = Ok (store marked self, [emit (Signal.device_updated marked)])
      /\ Device.missing_in_action marked = true
      /\ Device.id marked = Device.id device
      /\ Device.type marked = Device.type device
      /\ Device.group marked = Device.group device
      /\ Device.mode marked = Device.mode device
      /\ Device.state marked = Device.state device
      /\ Device.health marked = Device.health device
      /\ Device.time marked = Device.time device
      /\ (forall address, address <> _current_device self ->
            _devices (store marked self) !! address = _devices self !! address)
      /\ (forall self' out,
            _process_query_response self "Ack 2" = Ok (self', out) ->
            _devices self' = <[_current_device self := marked]> (_devices self))
  | None =>
      update_registry self "Ack 2" = Ok (self, [])
      /\ (forall self' out,
            _process_query_response self "Ack 2" = Ok (self', out) ->
            _devices self' = _devices self)
  end
  /\ (known_keys (_settings_manager self) ->
      is_ok (_process_query_response self "Ack 2") = true).
Proof.
  split; [|apply _process_query_response_ok].
  pose proof (update_registry_ack self) as Hack.
  destruct (_devices self !! _current_device self) as [device|] eqn:E.
  - cbn zeta. split; [exact Hack|].
    repeat (split; [reflexivity|]).
    split.
    + intros address Hne. cbn. apply lookup_insert_ne. congruence.
    + intros self' out H.
      apply _process_query_response_devices in H as (s1 & o1 & H1 & ->).
      rewrite Hack in H1. injection H1 as <- _. reflexivity.
  - split; [exact Hack|].
    intros self' out H.
    apply _process_query_response_devices in H as (s1 & o1 & H1 & ->).
    rewrite Hack in H1. injection H1 as <- _. reflexivity.
Qed.

(** ** Acceptance of an info line *)

(** C5 (as amended).  For a line that the info pattern matches, the six
    fields are read as non-negative integers (the pattern only has
    digits, so no field can read -1), and the line is accepted -- a
    record with these fields, the polled address as [id] and
    [missing_in_action] cleared replaces the entry of that address -- if
    and only if type is in 0..2, group in 0..7, mode in 0..1, state in
    0..5 and health in 0..255; otherwise the registry is left alone.  A
    line that the pattern does not match (and that is not ["Ack 2"]) is
    ignored. *)
Theorem info_line_accepted_iff_in_range (self : DeviceManager.t) (response : string) :
  match re_match info_regexp response with
  | Some m =>
      let ty := int (group m 1) in
      let gr := int (group m 2) in
      let mo := int (group m 3) in
      let st := int (group m 4) in
      let he := int (group m 5) in
      let ti := int (group m 6) in
      (0 <= ty /\ 0 <= gr /\ 0 <= mo /\ 0 <= st /\ 0 <= he /\ 0 <= ti)
      /\ ((ty <= 2 /\ gr <= 7 /\ mo <= 1 /\ st <= 5 /\ he <= 255)
          <-> exists device,
                update_registry self response
                = Ok (store device self, [emit (Signal.device_updated device)]))
      /\ (forall device,
            update_registry self response
            = Ok (store device self, [emit (Signal.device_updated device)]) ->
            Device.id device = _current_device self
            /\ DeviceType.value (Device.type device) = ty
            /\ Device.group device = gr
            /\ DeviceMode.value (Device.mode device) = mo
            /\ DeviceState.value (Device.state device) = st
            /\ Device.health device = he
            /\ Device.time device = ti
            /\ Device.missing_in_action device = false
            /\ forall self' out,
                 _process_query_response self response = Ok (self', out) ->
                 _devices self' = <[_current_device self := device]> (_devices self))
      /\ (~ (ty <= 2 /\ gr <= 7 /\ mo <= 1 /\ st <= 5 /\ he <= 255) ->
          update_registry self response = Ok (self, []))
  | None =>
      String.eqb response "Ack 2" = false ->
      update_registry self response = Ok (self, [])
  end.
Proof.
  destruct (re_match info_regexp response) as [m|] eqn:Hm;
    [|intros H; apply update_registry_unmatched; assumption].
  destruct (info_match_groups _ _ Hm)
    as (g1 & g2 & g3 & g4 & g5 & g6 & -> & Hd & _).
  unfold group. cbn [nth Nat.sub]. cbn zeta.
  pose proof (update_registry_info self _ _ _ _ _ _ _ Hm) as Hu.
  apply Forall_cons_1 in Hd as [D1 Hd]. apply int_nonneg in D1.
  apply Forall_cons_1 in Hd as [D2 Hd]. apply int_nonneg in D2.
  apply Forall_cons_1 in Hd as [D3 Hd]. apply int_nonneg in D3.
  apply Forall_cons_1 in Hd as [D4 Hd]. apply int_nonneg in D4.
  apply Forall_cons_1 in Hd as [D5 Hd]. apply int_nonneg in D5.
  apply Forall_cons_1 in Hd as [D6 _]. apply int_nonneg in D6.
  pose proof (checked_fields_ranges (_current_device self) (int g1) (int g2)
                (int g3) (int g4) (int g5) (int g6)) as Hr.
  destruct (checked_fields _ _ _ _ _ _ _) as [d|] eqn:Hc.
  - assert (Hin : is_Some (Some d)) by eauto. apply Hr in Hin.
    split; [tauto|]. split; [|split].
    + split; [intros _; eauto | intros _; lia].
    + intros device Hdev. rewrite Hu in Hdev. injection Hdev as _ Hdev.
      subst device.
      destruct (checked_fields_values _ _ _ _ _ _ _ _ Hc)
        as (? & ? & ? & ? & ? & ? & ? & ?).
      repeat (split; [assumption|]).
      intros self' out Hp.
      apply _process_query_response_devices in Hp as (s1 & o1 & Hs1 & ->).
      rewrite Hu in Hs1. injection Hs1 as <- _. reflexivity.
    + intros Hn. exfalso. apply Hn. lia.
  - assert (Hout : ~ is_Some (@None Device.t)) by (intros [? [=]]).
    rewrite Hr in Hout.
    split; [tauto|]. split; [|split].
    + split; [intros ?; exfalso; apply Hout; lia|].
      intros [device Hdev]. rewrite Hu in Hdev. discriminate.
    + intros device Hdev. rewrite Hu in Hdev. discriminate.
    + intros _. exact Hu.
Qed.

(** C5, the claim as worded fails: a line whose state field is written
    [-1], all other fields in range, is not accepted.  The pattern does
    not match it, the registry stays empty and only the next query is
    sent. *)
Lemma state_minus_one_not_accepted :
  let self := set_enabled true (init (SettingsManager.mk None)) in
  re_match info_regexp "0 1 0 -1 100 5" = None
  /\ update_registry self "0 1 0 -1 100 5" = Ok (self, [])
  /\ exists self',
       _process_query_response self "0 1 0 -1 100 5"
       = Ok (self', [send_command (get_info_command 2)
                                  (Some Callback._process_query_response)])
       /\ _devices self' = ∅.
Proof.
  cbn zeta. split; [reflexivity|]. split; [reflexivity|].
  eexists. split; reflexivity.
Qed.

(** ** Round trip *)

(** C9.  When an info line is accepted with record [device], the line
    that carries the fields of [device] (in decimal, with any run of
    blanks and commas as separator) is accepted again with the very same
    record, by this poller and by any poller whose cursor is on the same
    address.  The registry update never raises, and for a matched line
    it is a function of the six integers alone: it is [checked_fields]
    of them. *)
Theorem info_round_trip (self : DeviceManager.t) (response sep : string)
    (device : Device.t) :
  String.eqb response "Ack 2" = false ->
  update_registry self response
  = Ok (store device self, [emit (Signal.device_updated device)]) ->
  is_separator sep = true ->
  (forall other,
      _current_device other = _current_device self ->
      update_registry other (info_line sep device)
      = Ok (store device other, [emit (Signal.device_updated device)]))
  /\ (forall other line, is_ok (update_registry other line) = true)
  /\ (forall other line m,
        re_match info_regexp line = Some m ->
        update_registry other line
        = Ok (match checked_fields (_current_device other)
                      (int (group m 1)) (int (group m 2)) (int (group m 3))
                      (int (group m 4)) (int (group m 5)) (int (group m 6)) with
              | Some d => (store d other, [emit (Signal.device_updated d)])
              | None => (other, [])
              end)).
Proof.
  intros Hack Hacc Hsep. split; [|split].
  - destruct (re_match info_regexp response) as [m|] eqn:Hm;
      [|rewrite update_registry_unmatched in Hacc by assumption; discriminate].
    destruct (info_match_groups _ _ Hm)
      as (g1 & g2 & g3 & g4 & g5 & g6 & -> & Hd & _).
    rewrite (update_registry_info _ _ _ _ _ _ _ _ Hm) in Hacc.
    destruct (checked_fields _ _ _ _ _ _ _) as [d|] eqn:Hc; [|discriminate].
    injection Hacc as _ Hdev. subst d.
    apply Forall_cons_1 in Hd as [D1 Hd]. apply int_nonneg in D1.
    apply Forall_cons_1 in Hd as [D2 Hd]. apply int_nonneg in D2.
    apply Forall_cons_1 in Hd as [D3 Hd]. apply int_nonneg in D3.
    apply Forall_cons_1 in Hd as [D4 Hd]. apply int_nonneg in D4.
    apply Forall_cons_1 in Hd as [D5 Hd]. apply int_nonneg in D5.
    apply Forall_cons_1 in Hd as [D6 _]. apply int_nonneg in D6.
    destruct (checked_fields_values _ _ _ _ _ _ _ _ Hc)
      as (_ & V1 & V2 & V3 & V4 & V5 & V6 & _).
    rewrite <- V1 in D1. rewrite <- V2 in D2. rewrite <- V3 in D3.
    rewrite <- V4 in D4. rewrite <- V5 in D5. rewrite <- V6 in D6.
    destruct (format_d_nonneg _ D1) as (A1 & N1 & I1).
    destruct (format_d_nonneg _ D2) as (A2 & N2 & I2).
    destruct (format_d_nonneg _ D3) as (A3 & N3 & I3).
    destruct (format_d_nonneg _ D4) as (A4 & N4 & I4).
    destruct (format_d_nonneg _ D5) as (A5 & N5 & I5).
    destruct (format_d_nonneg _ D6) as (A6 & N6 & I6).
    intros other Hcur. unfold info_line.
    erewrite update_registry_info
      by (apply info_match_line; [assumption | repeat constructor; assumption]).
    rewrite I1, I2, I3, I4, I5, I6, V1, V2, V3, V4, V5, V6, Hcur, Hc.
    reflexivity.
  - intros other line.
    destruct (update_registry_frame other line) as (s & o & -> & _).
    reflexivity.
  - intros other line m Hm.
    destruct (info_match_groups _ _ Hm)
      as (g1 & g2 & g3 & g4 & g5 & g6 & -> & _).
    apply update_registry_info. assumption.
Qed.

Lemma info_round_trip_witness :
  let self := init (SettingsManager.mk None) in
  let device :=
    Device.mk 1 DeviceType.tank 1 DeviceMode.training DeviceState.operational
              100 5 false in
  update_registry self (info_line ", " device)
  = Ok (store device self, [emit (Signal.device_updated device)]).
Proof.
  cbn zeta.
  refine (proj1 (info_round_trip (init (SettingsManager.mk None))
                   "0 1  0,2 100 5" ", " _ _ _ _) _ _);
    reflexivity.
Defined.

(** ** Keys that are not parameter names *)

(** C3.  What the code does with a key that is not a parameter name:
    while an upload pass is on and the polled address has a record that
    is not missing in action, such a key among the parameters of the
    device makes [_query_next_device] raise [KeyError]; [DeviceParam[name]]
    raises [KeyError] and the handler is for [ValueError]. *)
Theorem unknown_key_raises_KeyError (self : DeviceManager.t) (device : Device.t) :
  _enabled self = true ->
  _upload self = true ->
  finishing self = false ->
  _devices self !! _current_device self = Some device ->
  Device.missing_in_action device = false ->
  Exists (fun kv => is_ok (DeviceParam.getitem (fst kv)) = false)
         (SettingsManager.get_device_params
            (_settings_manager self) (Device.type device) (Device.id device)) ->
  _query_next_device self = Raise KeyError.
Proof.
  intros He Hu Hf Hd Hm Hx.
  unfold finishing in Hf. rewrite Hu in Hf. cbn [andb] in Hf.
  unfold _query_next_device. rewrite He, Hu. cbn [negb].
  destruct (_first_uploaded self) as [first|] eqn:Hfirst.
  - rewrite Hf, Hu, Hfirst, Hd, Hm. cbn [negb].
    rewrite (upload_params_unknown _ _ Hx). reflexivity.
  - rewrite Hu, Hfirst. cbn. rewrite Hd, Hm. cbn [negb].
    rewrite (upload_params_unknown _ _ Hx). reflexivity.
Qed.

Lemma unknown_key_raises_KeyError_witness :
  _query_next_device uploading_poller = Raise KeyError.
Proof.
  refine (unknown_key_raises_KeyError uploading_poller _ _ _ _ _ _ _);
    try reflexivity.
  apply Exists_cons_tl, Exists_cons_hd. reflexivity.
Defined.

(** The poll step itself: the answer for address 31 brings the cursor to
    address 1 and the upload for it raises. *)
Example poll_step_raises_KeyError :
  _process_query_response (set_current_device 31 uploading_poller) "Ack 2"
  = Raise KeyError.
Proof. reflexivity. Qed.

(** ** The cursor *)

Lemma address_after_range a k : 1 <= address_after a k <= 31.
Proof.
  unfold address_after, FIRST_DEVICE, LAST_DEVICE.
  pose proof (Z.mod_pos_bound (a - 1 + k) 31). lia.
Qed.

Lemma address_after_0 a : 1 <= a <= 31 -> address_after a 0 = a.
Proof.
  intros H. unfold address_after, FIRST_DEVICE, LAST_DEVICE.
  rewrite Z.add_0_r, Z.mod_small; lia.
Qed.

Lemma address_after_add a j k :
  address_after (address_after a j) k = address_after a (j + k).
Proof.
  unfold address_after, FIRST_DEVICE, LAST_DEVICE.
  replace ((a - 1 + j) mod 31 + 1 - 1 + k) with ((a - 1 + j) mod 31 + k) by lia.
  rewrite Zplus_mod_idemp_l. f_equal. f_equal. lia.
Qed.




(** The cursor arithmetic of [advance]. *)
Lemma advance_cursor (a : Z) :
  1 <= a <= 31 ->
  (if a + 1 >? LAST_DEVICE then FIRST_DEVICE else a + 1) = address_after a 1.
Proof.
  intros H. unfold address_after, FIRST_DEVICE, LAST_DEVICE.
  destruct (Z.gtb_spec (a + 1) 31).
  - replace a with 31 by lia. reflexivity.
  - rewrite Z.mod_small; lia.
Qed.

Lemma addresses_after_S a n :
  addresses_after a (S n)
  = address_after a 1 :: addresses_after (address_after a 1) n.
Proof.
  unfold addresses_after. cbn [seq map]. f_equal.
  rewrite <- seq_shift, map_map. apply map_ext. intros i.
  rewrite address_after_add. f_equal. lia.
Qed.


(** The cursor of a poller never leaves 1..31: it starts on 1, [clear]
    puts it back on 1 and the callback moves it to the next address. *)
Lemma cursor_in_range self response self' out :
  1 <= _current_device (init (_settings_manager self)) <= 31
  /\ 1 <= _current_device (clear self) <= 31
  /\ (1 <= _current_device self <= 31 ->
      _process_query_response self response = Ok (self', out) ->
      1 <= _current_device self' <= 31).
Proof.
  split; [cbn; unfold FIRST_DEVICE; lia|].
  split; [cbn; unfold FIRST_DEVICE; lia|].
  intros Hr. unfold _process_query_response.
  destruct (update_registry_frame self response)
    as (s1 & o1 & -> & _ & Hc & _).
  cbn [mbind Res_bind Py.bind]. unfold advance.
  set (s2 := if _current_device (set_current_device (_current_device s1 + 1) s1)
                >? LAST_DEVICE
             then set_current_device FIRST_DEVICE
                    (set_current_device (_current_device s1 + 1) s1)
             else set_current_device (_current_device s1 + 1) s1).
  assert (E : 1 <= _current_device s2 <= 31).
  { subst s2. cbn. unfold FIRST_DEVICE, LAST_DEVICE.
    destruct (Z.gtb_spec (_current_device s1 + 1) 31); cbn; lia. }
  clearbody s2. destruct (_enabled s2).
  - destruct (_query_next_device s2) as [[s3 o3]|] eqn:Eq; cbn; [|discriminate].
    intros [= <- <-].
    apply _query_next_device_frame in Eq as (_ & -> & _). exact E.
  - cbn. intros [= <- <-]. exact E.
Qed.

(** ** One poll *)



(** The callback of an enabled poller: the registry update, then the
    query at the next address. *)
Lemma poll_step self response :
  _enabled self = true ->
  1 <= _current_device self <= 31 ->
  exists s1 o1,
    update_registry self response = Ok (s1, o1)
    /\ _settings_manager s1 = _settings_manager self
    /\ _upload s1 = _upload self
    /\ _first_uploaded s1 = _first_uploaded self
    /\ _enabled s1 = true
    /\ (forall address, address <> _current_device self ->
          _devices s1 !! address = _devices self !! address)
    /\ _devices s1 = devices_after self response
    /\ sends o1 = []
    /\ List.filter is_upload_finished o1 = []
    /\ _process_query_response self response
       = ('(s3, o3) ← _query_next_device
                        (set_current_device
                           (address_after (_current_device self) 1) s1);
          Ok (s3, o1 ++ o3)).
Proof.
  intros He Hr.
  destruct (update_registry_frame self response)
    as (s1 & o1 & Hu & Hs & Hc & Hup & Hf & Hen & Hd & Hsend & Hfin).
  exists s1, o1. unfold devices_after. rewrite Hu.
  repeat (split; [first [assumption | congruence | reflexivity]|]).
  unfold _process_query_response. rewrite Hu. cbn.
  unfold advance.
  assert (E : (if _current_device (set_current_device (_current_device s1 + 1) s1)
                    >? LAST_DEVICE
               then set_current_device FIRST_DEVICE
                      (set_current_device (_current_device s1 + 1) s1)
               else set_current_device (_current_device s1 + 1) s1)
              = set_current_device (address_after (_current_device self) 1) s1).
  { rewrite <- Hc in Hr. rewrite <- Hc, <- advance_cursor by assumption.
    cbn. destruct (_ >? _); reflexivity. }
  rewrite E. cbn. rewrite Hen, He.
  destruct (_query_next_device _) as [[s3 o3]|]; reflexivity.
Qed.



(** ** A run of polls *)



(** ** The upload pass *)


Lemma known_keys_sample : known_keys sample_settings.
Proof.
  intros device_type device_id. vm_compute. repeat constructor.
Qed.


(** ** What the poller can raise *)

Lemma upload_params_raises address params e :
  upload_params address params = Raise e -> e = KeyError.
Proof.
  induction params as [|[name value] params IH]; [discriminate|].
  cbn [upload_params]. unfold DeviceParam.getitem.
  destruct (DeviceParam.lookup_member DeviceParam.members name);
    cbn; [|congruence].
  destruct (upload_params address params); cbn; [discriminate|].
  intros [= <-]. apply IH. reflexivity.
Qed.

Lemma _query_next_device_raises self e :
  _query_next_device self = Raise e -> e = KeyError.
Proof.
  unfold _query_next_device.
  destruct (_enabled self); cbn [negb]; [|discriminate].
  destruct (_upload self) eqn:Hu.
  - destruct (_first_uploaded self) as [first|] eqn:Ef.
    + destruct (first =? _current_device self); cbn; [discriminate|].
      rewrite Hu, Ef.
      destruct (_devices self !! _current_device self) as [d|]; [|discriminate].
      destruct (Device.missing_in_action d); cbn; [discriminate|].
      destruct (upload_params _ _) eqn:E; cbn; [discriminate|].
      intros [= <-]. exact (upload_params_raises _ _ _ E).
    + cbn. rewrite Hu, Ef. cbn.
      destruct (_devices self !! _current_device self) as [d|]; [|discriminate].
      destruct (Device.missing_in_action d); cbn; [discriminate|].
      destruct (upload_params _ _) eqn:E; cbn; [discriminate|].
      intros [= <-]. exact (upload_params_raises _ _ _ E).
  - rewrite Hu. discriminate.
Qed.

Lemma _process_query_response_raises self response e :
  _process_query_response self response = Raise e -> e = KeyError.
Proof.
  unfold _process_query_response.
  destruct (update_registry_frame self response) as (s1 & o1 & -> & _).
  cbn [mbind Res_bind Py.bind]. unfold advance.
  match goal with
  | |- context [if _enabled ?s then _ else _] =>
      destruct (_enabled s); [|discriminate];
      destruct (_query_next_device s) as [[s3 o3]|] eqn:E; cbn; [discriminate|]
  end.
  intros [= <-]. exact (_query_next_device_raises _ _ E).
Qed.

Lemma enable_raises self e : enable self = Raise e -> e = KeyError.
Proof.
  unfold enable. destruct (_enabled self); [discriminate|].
  apply _query_next_device_raises.
Qed.

(** ** What every method keeps *)

Lemma sound_query_next_device self self' out :
  sound self -> _query_next_device self = Ok (self', out) -> sound self'.
Proof.
  intros Hs. pose proof Hs as (Hc & Hd & Hf). unfold _query_next_device.
  destruct (_enabled self); cbn [negb]; [|intros [= <- <-]; exact Hs].
  assert (Hkeep : forall s,
             _current_device s = _current_device self ->
             _devices s = _devices self ->
             (forall first, _first_uploaded s = Some first ->
                _upload s = true /\ FIRST_DEVICE <= first <= LAST_DEVICE) ->
             sound s).
  { intros s E1 E2 H3. unfold sound. rewrite E1, E2.
    exact (conj Hc (conj Hd H3)). }
  destruct (_upload self) eqn:Hu.
  - destruct (_first_uploaded self) as [first|] eqn:Ef.
    + destruct (first =? _current_device self); cbn.
      * intros [= <- <-]. apply Hkeep; [reflexivity | reflexivity |].
        cbn. discriminate.
      * rewrite Hu, Ef.
        destruct (_devices self !! _current_device self) as [d|];
          [|intros [= <- <-]; apply Hkeep; [reflexivity | reflexivity | exact (proj2 (proj2 Hs))]].
        destruct (Device.missing_in_action d); cbn;
          [intros [= <- <-]; apply Hkeep; [reflexivity | reflexivity | exact (proj2 (proj2 Hs))]|].
        destruct (upload_params _ _); cbn; [|discriminate].
        intros [= <- <-]. apply Hkeep; [reflexivity | reflexivity | exact (proj2 (proj2 Hs))].
    + cbn. rewrite Hu, Ef. cbn.
      assert (Ha : sound (set_first_uploaded (Some (_current_device self)) self)).
      { apply Hkeep; [reflexivity | reflexivity |].
        cbn. intros first [= <-]. split; assumption. }
      destruct (_devices self !! _current_device self) as [d|];
        [|intros [= <- <-]; exact Ha].
      destruct (Device.missing_in_action d); cbn; [intros [= <- <-]; exact Ha|].
      destruct (upload_params _ _); cbn; [|discriminate].
      intros [= <- <-]. exact Ha.
  - rewrite Hu. intros [= <- <-]. apply Hkeep; [reflexivity | reflexivity | exact (proj2 (proj2 Hs))].
Qed.

Lemma sound_update_registry self response self' out :
  sound self -> update_registry self response = Ok (self', out) -> sound self'.
Proof.
  intros Hs. pose proof Hs as (Hc & Hd & Hf).
  assert (Hstore : forall device,
             Device.id device = _current_device self ->
             sound (set_devices (<[_current_device self := device]> (_devices self))
                                self)).
  { intros device Hid. split; [exact Hc|]. split; [|exact Hf].
    intros address d H. cbn in H.
    destruct (decide (address = _current_device self)) as [->|Hne].
    - rewrite lookup_insert_eq in H. injection H as <-.
      split; [exact Hid | exact Hc].
    - rewrite lookup_insert_ne in H by congruence. exact (Hd _ _ H). }
  unfold update_registry.
  destruct (String.eqb response "Ack 2").
  - destruct (_devices self !! _current_device self) as [d|] eqn:E;
      [|intros [= <- <-]; exact Hs].
    intros [= <- <-]. apply Hstore. cbn. apply (Hd _ _ E).
  - destruct (re_match info_regexp response) as [m|] eqn:Em;
      [|intros [= <- <-]; exact Hs].
    apply info_match_groups in Em
      as (g1 & g2 & g3 & g4 & g5 & g6 & -> & _).
    rewrite validate_checked_fields. cbn [mbind Res_bind Py.bind].
    destruct (checked_fields _ _ _ _ _ _ _) as [d|] eqn:Ec;
      [|intros [= <- <-]; exact Hs].
    intros [= <- <-]. apply Hstore.
    apply checked_fields_values in Ec as (Hid & _). exact Hid.
Qed.

Lemma sound_process_query_response self response self' out :
  sound self -> _process_query_response self response = Ok (self', out) ->
  sound self'.
Proof.
  intros Hs. unfold _process_query_response.
  destruct (update_registry self response) as [[s1 o1]|] eqn:E1; cbn; [|discriminate].
  pose proof (sound_update_registry _ _ _ _ Hs E1) as (Hc & Hd & Hf).
  unfold advance.
  set (s2 := if _current_device (set_current_device (_current_device s1 + 1) s1)
                >? LAST_DEVICE
             then set_current_device FIRST_DEVICE
                    (set_current_device (_current_device s1 + 1) s1)
             else set_current_device (_current_device s1 + 1) s1).
  assert (Hs2 : sound s2).
  { subst s2. cbn [_current_device set_current_device].
    unfold FIRST_DEVICE, LAST_DEVICE in Hc |- *.
    destruct (Z.gtb_spec (_current_device s1 + 1) 31);
      (split; [cbn; unfold FIRST_DEVICE, LAST_DEVICE; lia|]);
      exact (conj Hd Hf). }
  clearbody s2. destruct (_enabled s2).
  - destruct (_query_next_device s2) as [[s3 o3]|] eqn:E3; cbn; [|discriminate].
    intros [= <- <-]. exact (sound_query_next_device _ _ _ Hs2 E3).
  - intros [= <- <-]. exact Hs2.
Qed.

Lemma sound_step self ev self' out :
  sound self -> step self ev = Ok (self', out) ->
  sound self' /\ _settings_manager self' = _settings_manager self.
Proof.
  intros Hs. pose proof Hs as (Hc & Hd & Hf).
  destruct ev as [| | | |device_id mode|response|response]; cbn [step].
  - unfold enable. destruct (_enabled self) eqn:He;
      [intros [= <- <-]; split; [assumption | reflexivity]|].
    intros E. split.
    + exact (sound_query_next_device (set_enabled true self) _ out Hs E).
    + apply _query_next_device_frame in E as (_ & _ & _ & ->). reflexivity.
  - intros [= <- <-]. split; [exact Hs | reflexivity].
  - intros [= <- <-]. split; [|reflexivity].
    split; [cbn; unfold FIRST_DEVICE, LAST_DEVICE; lia|]. split; [|exact Hf].
    intros address d H. cbn in H. rewrite lookup_empty in H. discriminate.
  - intros [= <- <-]. split; [|reflexivity].
    split; [exact Hc|]. split; [exact Hd|].
    intros first H. split; [reflexivity | exact (proj2 (Hf _ H))].
  - unfold set_mode. destruct (_enabled self); cbn; intros [= <- <-];
      (split; [exact Hs | reflexivity]).
  - intros E. split; [exact (sound_process_query_response _ _ _ _ Hs E)|].
    unfold _process_query_response in E.
    destruct (update_registry_frame self response)
      as (s1 & o1 & E1 & Hsm & _).
    rewrite E1 in E. cbn in E.
    destruct (advance s1) as [[s2 o2]|] eqn:E2; cbn in E; [|discriminate].
    injection E as <- <-.
    apply advance_frame in E2 as (_ & _ & ->). exact Hsm.
  - unfold _process_set_mode_response.
    destruct (negb _); intros [= <- <-];
      (split; [exact Hs | reflexivity]).
Qed.

(** X10.  What the poller keeps, whatever is called on it and whatever
    the devices answer: the cursor stays on an address (1..31), every
    record of the registry is filed under its own address, which is in
    1..31, a pass has an anchor address only while it is armed, and the
    settings manager is the one it was built with. *)
Theorem poller_keeps_cursor_registry_and_anchor
    (settings_manager : SettingsManager.t) (evs : list Event) :
  let self := reached (run settings_manager evs) in
  sound self /\ _settings_manager self = settings_manager.
Proof.
  unfold run.
  assert (H0 : sound (init settings_manager)
               /\ _settings_manager (init settings_manager) = settings_manager).
  { split; [|reflexivity].
    split; [cbn; unfold FIRST_DEVICE, LAST_DEVICE; lia|]. split.
    - intros address d H. cbn in H. rewrite lookup_empty in H. discriminate.
    - intros first H. discriminate. }
  generalize dependent (init settings_manager). generalize (@nil Effect).
  induction evs as [|ev evs IH]; intros done self H0; [exact H0|].
  cbn [run_from]. destruct (step self ev) as [[s1 o1]|] eqn:E; [|exact H0].
  apply IH. destruct H0 as [Hs Hsm].
  destruct (sound_step _ _ _ _ Hs E) as [Hs1 Hsm1].
  split; [exact Hs1 | congruence].
Qed.

(** ** The order of the queries *)

Lemma queries_app (a b : list Effect) : queries (a ++ b) = queries a ++ queries b.
Proof. unfold queries. rewrite sends_app. apply flat_map_app. Qed.

Lemma queries_as_effects_uploads settings_manager (devices : gmap Z Device.t) address :
  queries (as_effects (uploads_for settings_manager devices address)) = [].
Proof.
  unfold queries. rewrite sends_as_effects. unfold uploads_for.
  destruct (devices !! address) as [d|]; [|reflexivity].
  destruct (Device.missing_in_action d); [reflexivity|].
  induction (SettingsManager.get_device_params _ _ _) as [|kv params IH];
    [reflexivity|].
  cbn [flat_map]. rewrite flat_map_app, IH, app_nil_r.
  destruct (DeviceParam.getitem (fst kv)); reflexivity.
Qed.

(** One answer to an enabled poller: exactly one query follows, for the
    next address. *)
Lemma round_robin_step self response :
  known_keys (_settings_manager self) ->
  _enabled self = true ->
  1 <= _current_device self <= 31 ->
  exists self' out,
    _process_query_response self response = Ok (self', out)
    /\ _settings_manager self' = _settings_manager self
    /\ _enabled self' = true
    /\ _current_device self' = address_after (_current_device self) 1
    /\ queries out = [get_info_command (address_after (_current_device self) 1)].
Proof.
  intros Hk He Hr.
  destruct (poll_step self response He Hr)
    as (s1 & o1 & _ & Hs & _ & _ & Hen & _ & _ & Hsend & _ & ->).
  set (next := address_after (_current_device self) 1).
  set (s2 := set_current_device next s1).
  assert (Hk2 : known_keys (_settings_manager s2)) by (cbn; rewrite Hs; exact Hk).
  rewrite (_query_next_device_known s2 Hk2 Hen).
  assert (Hq1 : queries o1 = []) by (unfold queries; rewrite Hsend; reflexivity).
  cbn [mbind Res_bind Py.bind].
  destruct (finishing s2); [|destruct (_upload s2)];
    (eexists _, _; split; [reflexivity|]); rewrite queries_app, Hq1.
  - repeat split; [exact Hs | exact Hen].
  - destruct (_first_uploaded s2);
      (split; [exact Hs|]; split; [exact Hen|]; split; [reflexivity|]);
      change (queries (?e :: ?l)) with (queries [e] ++ queries l);
      rewrite queries_as_effects_uploads; reflexivity.
  - repeat split; [exact Hs | exact Hen].
Qed.

(** X11.  Polling is a round robin.  An enabled poller whose settings
    only have parameter names answers each response, whatever it says
    and whether or not an upload pass is under way, with exactly one
    [GetInfo] query, for the next address in the cycle 1, 2, ..., 31,
    1, ...; after [n] responses the cursor is [n] addresses further. *)
Theorem polling_is_round_robin (self : DeviceManager.t) (responses : list string) :
  known_keys (_settings_manager self) ->
  _enabled self = true ->
  1 <= _current_device self <= 31 ->
  exists self' out,
    poll self responses = Ok (self', out)
    /\ _enabled self' = true
    /\ _current_device self'
       = address_after (_current_device self) (Z.of_nat (length responses))
    /\ queries out
       = map get_info_command
             (addresses_after (_current_device self) (length responses)).
Proof.
  revert self. induction responses as [|r rs IH]; intros self Hk He Hr.
  - exists self, []. cbn [poll length]. rewrite address_after_0 by exact Hr.
    repeat split; [exact He].
  - destruct (round_robin_step self r Hk He Hr)
      as (s1 & o1 & E1 & Hs1 & He1 & Hc1 & Hq1).
    destruct (IH s1) as (s2 & o2 & E2 & He2 & Hc2 & Hq2);
      [rewrite Hs1; exact Hk | exact He1
       | rewrite Hc1; apply address_after_range |].
    exists s2, (o1 ++ o2). cbn [poll]. rewrite E1. cbn [mbind Res_bind Py.bind].
    rewrite E2. cbn [mbind Res_bind Py.bind].
    split; [reflexivity|]. split; [exact He2|]. split.
    + rewrite Hc2, Hc1, address_after_add. f_equal. cbn [length]. lia.
    + rewrite queries_app, Hq1, Hq2, Hc1.
      change (length (r :: rs)) with (S (length rs)).
      rewrite (addresses_after_S (_current_device self) (length rs)).
      reflexivity.
Qed.

Lemma polling_is_round_robin_witness :
  exists self' out,
    poll sample_poller ["Ack 2"; "0 1 0 2 100 5"; "garbage"]%string = Ok (self', out)
    /\ _current_device self' = 4
    /\ queries out = map get_info_command [2; 3; 4].
Proof.
  destruct (polling_is_round_robin sample_poller
              ["Ack 2"; "0 1 0 2 100 5"; "garbage"]%string
              known_keys_sample eq_refl ltac:(change (1 <= 1 <= 31); lia))
    as (self' & out & E & _ & Hc & Hq).
  exists self', out. split; [exact E|]. split; [exact Hc | exact Hq].
Defined.

(** ** A disabled poller *)

(** X12.  [disable()] only clears a flag: the answer to the query that
    is still in flight is taken in as usual.  On a disabled poller no
    method other than [enable()] raises or sends anything or re-enables
    it; [_process_query_response] still files the answer in the registry
    and moves the cursor to the next address, so that [enable()] resumes
    there, and [set_mode] is dropped without a word. *)
Theorem disabled_poller_records_and_stays_silent
    (self : DeviceManager.t) (ev : Event) :
  _enabled self = false ->
  ev <> call_enable ->
  exists self' out,
    step self ev = Ok (self', out)
    /\ sends out = []
    /\ _enabled self' = false
    /\ (forall device_id mode, ev = call_set_mode device_id mode ->
          self' = self /\ out = [])
    /\ (forall response, ev = query_response response ->
          _devices self' = devices_after self response
          /\ (1 <= _current_device self <= 31 ->
              _current_device self' = address_after (_current_device self) 1)).
Proof.
  intros He Hne.
  destruct ev as [| | | |device_id mode|response|response]; cbn [step];
    try congruence.
  - eexists _, _. split; [reflexivity|]. cbn.
    repeat split; try reflexivity; intros; discriminate.
  - eexists _, _. split; [reflexivity|]. cbn.
    repeat split; try exact He; intros; discriminate.
  - eexists _, _. split; [reflexivity|]. cbn.
    repeat split; try exact He; intros; discriminate.
  - unfold set_mode. rewrite He. cbn.
    eexists _, _. split; [reflexivity|].
    repeat split; try exact He; intros; discriminate.
  - destruct (update_registry_frame self response)
      as (s1 & o1 & Hu & _ & Hc & _ & _ & Hen & _ & Hsend & _).
    unfold _process_query_response. rewrite Hu. cbn [mbind Res_bind Py.bind].
    unfold advance.
    match goal with
    | |- context [if _enabled ?s then _ else _] =>
        assert (E : _enabled s = false)
          by (destruct (_ >? _); cbn; congruence);
        rewrite E; set (s2 := s)
    end.
    cbn [mbind Res_bind Py.bind].
    eexists _, _. split; [reflexivity|].
    split; [rewrite sends_app, Hsend; reflexivity|].
    split; [exact E|]. split; [intros; discriminate|].
    intros r [= <-]. split.
    + unfold devices_after. rewrite Hu. subst s2.
      destruct (_ >? _); reflexivity.
    + intros Hr. rewrite <- Hc in Hr. rewrite <- Hc, <- advance_cursor by exact Hr.
      subst s2. cbn. destruct (_ >? _); reflexivity.
  - unfold _process_set_mode_response.
    destruct (negb _); (eexists _, _; split; [reflexivity|]);
      repeat split; try exact He; intros; discriminate.
Qed.

Lemma disabled_poller_records_and_stays_silent_witness :
  exists self' out,
    step (disable sample_poller) (query_response "0 1 0 2 100 5")
    = Ok (self', out)
    /\ sends out = []
    /\ _enabled self' = false.
Proof.
  destruct (disabled_poller_records_and_stays_silent
              (disable sample_poller) (query_response "0 1 0 2 100 5")
              eq_refl ltac:(discriminate))
    as (self' & out & E & Hs & He & _).
  exists self', out. split; [exact E|]. split; [exact Hs | exact He].
Defined.

(** ** What the info parser does not look at *)

Lemma info_match_line_then sep g1 g2 g3 g4 g5 g6 tail :
  is_separator sep = true ->
  Forall (fun g => all_chars re_digit g = true /\ g <> EmptyString)
         [g1; g2; g3; g4; g5; g6] ->
  stops re_digit tail = true ->
  re_match info_regexp
    (g1 ++ sep ++ g2 ++ sep ++ g3 ++ sep ++ g4 ++ sep ++ g5 ++ sep ++ g6 ++ tail)%string
  = Some [g1; g2; g3; g4; g5; g6].
Proof.
  intros Hsep Hg Htail.
  unfold is_separator in Hsep. apply andb_prop in Hsep as [Hs Hsne].
  apply negb_true_iff, String.eqb_neq in Hsne.
  repeat match goal with
         | H : Forall _ (_ :: _) |- _ => apply Forall_cons_1 in H as [[? ?] H]
         end.
  assert (Hstop_sep : forall g rest,
             all_chars re_digit g = true -> g <> EmptyString ->
             stops re_space_or_comma (g ++ rest) = true).
  { intros g rest Hd Hne. destruct g as [|c g]; [congruence|].
    rewrite append_cons. simpl in *. apply andb_prop in Hd as [Hc _].
    rewrite (digit_not_separator c Hc). reflexivity. }
  assert (Hstop_dig : forall rest, stops re_digit (sep ++ rest) = true).
  { intros rest. destruct sep as [|c sep']; [congruence|].
    rewrite append_cons. simpl in *. apply andb_prop in Hs as [Hc _].
    rewrite (separator_not_digit c Hc). reflexivity. }
  unfold re_match. cbn [info_regexp field_count seq flat_map Nat.eqb Nat.sub app].
  cbn [re_match_from].
  do 5 (apply plus_greedy_longest; [assumption | assumption | apply Hstop_dig | ];
        apply plus_greedy_longest; [assumption | assumption | auto | ]).
  apply plus_greedy_longest; [assumption | assumption | assumption | ].
  reflexivity.
Qed.

(** X13.  The pattern is anchored at the start of the line only
    ([match], no [$]).  Whatever follows the sixth field of an info line
    and does not begin with a digit (a seventh field, a unit, a
    comment) is ignored: the line does to the registry exactly what the
    six fields alone do. *)
Theorem text_after_the_sixth_field_is_ignored
    (self : DeviceManager.t) (sep g1 g2 g3 g4 g5 g6 tail : string) :
  is_separator sep = true ->
  Forall (fun g => all_chars re_digit g = true /\ g <> EmptyString)
         [g1; g2; g3; g4; g5; g6] ->
  stops re_digit tail = true ->
  update_registry self
    (g1 ++ sep ++ g2 ++ sep ++ g3 ++ sep ++ g4 ++ sep ++ g5 ++ sep ++ g6 ++ tail)%string
  = update_registry self
      (g1 ++ sep ++ g2 ++ sep ++ g3 ++ sep ++ g4 ++ sep ++ g5 ++ sep ++ g6)%string.
Proof.
  intros Hsep Hg Htail.
  rewrite (update_registry_info self _ g1 g2 g3 g4 g5 g6
             (info_match_line_then sep g1 g2 g3 g4 g5 g6 tail Hsep Hg Htail)).
  rewrite (update_registry_info self _ g1 g2 g3 g4 g5 g6
             (info_match_line sep g1 g2 g3 g4 g5 g6 Hsep Hg)).
  reflexivity.
Qed.

Lemma text_after_the_sixth_field_is_ignored_witness :
  update_registry sample_poller "0 1 0 2 100 5 ms, 77"
  = update_registry sample_poller "0 1 0 2 100 5".
Proof.
  apply (text_after_the_sixth_field_is_ignored sample_poller
           " " "0" "1" "0" "2" "100" "5" " ms, 77");
    [reflexivity | repeat constructor; discriminate | reflexivity].
Defined.

(** An enabled poller always queues a query. *)
Lemma _query_next_device_sends self self' out :
  _enabled self = true ->
  _query_next_device self = Ok (self', out) ->
  exists rest,
    sends out
    = (get_info_command (_current_device self),
       Some Callback._process_query_response) :: rest.
Proof.
  intros He. unfold _query_next_device. rewrite He. cbn [negb].
  destruct (_upload self) eqn:Hu.
  - destruct (_first_uploaded self) as [first|] eqn:Ef.
    + destruct (first =? _current_device self); cbn.
      * intros [= <- <-]. eexists. reflexivity.
      * rewrite Hu, Ef.
        destruct (_devices self !! _current_device self) as [d|];
          [|intros [= <- <-]; eexists; reflexivity].
        destruct (Device.missing_in_action d); cbn;
          [intros [= <- <-]; eexists; reflexivity|].
        destruct (upload_params _ _); cbn; [|discriminate].
        intros [= <- <-]. eexists. reflexivity.
    + cbn. rewrite Hu, Ef. cbn.
      destruct (_devices self !! _current_device self) as [d|];
        [|intros [= <- <-]; eexists; reflexivity].
      destruct (Device.missing_in_action d); cbn;
        [intros [= <- <-]; eexists; reflexivity|].
      destruct (upload_params _ _); cbn; [|discriminate].
      intros [= <- <-]. eexists. reflexivity.
  - rewrite Hu. intros [= <- <-]. eexists. reflexivity.
Qed.

End DeviceManagerFacts.

(* ===================================================================== *)
(** * Facts about the session controller *)
(* ===================================================================== *)

Module GameManagerFacts.
Import GameManager.

(** ** The stopwatch *)

Lemma _stop_timer_spec self now reset :
  let self' := fst (_stop_timer self now reset) in
  _elapsed_timer self' = None
  /\ _state self' = _state self
  /\ _game_duration self' = _game_duration self
  /\ _prev_elapsed_time self'
     = (if reset then 0 else elapsed_time self now)
  /\ sends (snd (_stop_timer self now reset)) = [].
Proof.
  unfold _stop_timer, elapsed_time.
  destruct reset; cbn; [repeat split; reflexivity|].
  destruct (_elapsed_timer self); cbn; repeat split; reflexivity.
Qed.

Lemma _start_timer_spec self now reset :
  let self' := fst (_start_timer self now reset) in
  _elapsed_timer self' = Some now
  /\ _state self' = _state self
  /\ _game_duration self' = _game_duration self
  /\ _prev_elapsed_time self'
     = (if reset then 0 else _prev_elapsed_time self)
  /\ sends (snd (_start_timer self now reset)) = [].
Proof.
  unfold _start_timer. destruct reset; cbn; repeat split; reflexivity.
Qed.

Lemma step_timed cfg ev :
  timed (fst cfg) -> timed (fst (fst (step cfg ev))).
Proof.
  destruct cfg as [self now]. unfold timed. cbn [fst]. intros H.
  destruct ev; cbn [step fst];
    try exact H;
    unfold enable, disable, reset_game, start_game, stop_game, pause_game,
      _process_reset_response, _process_start_response, _process_stop_response,
      _process_pause_response, _process_unpause_response, _timer_callback,
      refresh_time, _stop_timer, _start_timer;
    unfold stop_game;
    repeat match goal with
           | |- context [if ?c then _ else _] => destruct c eqn:?
           | |- context [match _elapsed_timer ?s with _ => _ end] =>
               destruct (_elapsed_timer s) eqn:?
           end;
    cbn in *; try exact H; try (split; congruence); try tauto.
Qed.

Lemma run_from_timed evs : forall cfg,
  timed (fst cfg) -> timed (fst (run_from cfg evs)).
Proof.
  induction evs as [|ev evs IH]; intros cfg H; [exact H|].
  cbn [run_from].
  pose proof (step_timed cfg ev H) as H'.
  destruct (step cfg ev) as [[self now] out]. apply IH. exact H'.
Qed.

Lemma run_timed game_duration start evs :
  timed (fst (run game_duration start evs)).
Proof.
  apply run_from_timed. unfold timed. cbn. split; [congruence | discriminate].
Qed.

Lemma run_from_app evs1 evs2 cfg :
  run_from cfg (evs1 ++ evs2) = run_from (run_from cfg evs1) evs2.
Proof.
  revert cfg. induction evs1 as [|ev evs1 IH]; intros cfg; [reflexivity|].
  cbn [app run_from]. destruct (step cfg ev) as [[self now] out]. apply IH.
Qed.

(** ** Reset *)

(** C4 (as amended).  [reset_game] sends [Reset4Combat], with the reset
    callback, in every state but [disabled]; in state [disabled] it does
    nothing.  On the answer ["Ack 0"] the state becomes [ready], the
    elapsed time is zero from then on, nothing is sent and
    [game_resetted] is emitted; on any other answer the object is left
    as it is and only the error message is emitted. *)
Theorem reset_sent_unless_disabled
    (self : GameManager.t) (now later : Z) (response : string) :
  (_state self = disabled -> reset_game self = (self, []))
  /\ (_state self <> disabled ->
      reset_game self
      = (self, [send_command reset_command
                             (Some Callback._process_reset_response)]))
  /\ (let acked := _process_reset_response self now "Ack 0" in
      _state (fst acked) = ready
      /\ elapsed_time (fst acked) later = 0
      /\ sends (snd acked) = []
      /\ In (emit Signal.game_resetted) (snd acked))
  /\ (String.eqb response "Ack 0" = false ->
      _process_reset_response self now response
      = (self, [emit (Signal.message reset_failed)])).
Proof.
  split; [|split; [|split]].
  - unfold reset_game. intros ->. reflexivity.
  - unfold reset_game. destruct (_state self); cbn; congruence.
  - cbn zeta. unfold _process_reset_response, _stop_timer, refresh_time,
      elapsed_time.
    cbn. repeat split; auto.
  - intros H. unfold _process_reset_response. rewrite H. reflexivity.
Qed.

(** C4, the claim as worded fails: in state [running], which is not
    [idle], [reset_game] does send the command. *)
Lemma reset_sent_while_running :
  let self := GameManager.mk 600 true (Some 0) 0 running in
  _state self <> idle
  /\ reset_game self
     = (self, [send_command reset_command
                            (Some Callback._process_reset_response)]).
Proof. cbn zeta. split; [discriminate | reflexivity]. Qed.

(** ** Elapsed time *)

(** What does hold of the elapsed time.  Along every run of the session
    controller from its creation, waiting adds to the elapsed time exactly
    when the state is [running].  The acknowledgment of a pause or of a
    stop leaves the elapsed time at the value it had when it arrived, for
    good; the acknowledgment of a resume that finds the stopwatch stopped
    lets it grow on from that value; the acknowledgment of a reset,
    [disable] and [enable] (it acts in state [disabled]) make it zero.
    From a running session, pause/resume cycles in which every request is
    acknowledged once add up the time spent running and none of the time
    spent paused. *)
Lemma elapsed_advances_only_while_running
    (game_duration start : Z) (evs : list Event) (d : N)
    (self : GameManager.t) (now later : Z) (cycles : list (N * N)) :
  (let '(reached, clock) := run game_duration start evs in
   elapsed_time reached (clock + Z.of_N d)
   = elapsed_time reached clock
     + (if State_eqb (_state reached) running then Z.of_N d else 0))
  /\ (let acked := fst (_process_pause_response self now "Ack 0") in
      _state acked = paused
      /\ elapsed_time acked later = elapsed_time self now)
  /\ (_elapsed_timer self = None ->
      let acked := fst (_process_unpause_response self now "Ack 0") in
      _state acked = running
      /\ elapsed_time acked later = elapsed_time self now + (later - now))
  /\ (let acked := fst (_process_stop_response self now "Ack 0") in
      _state acked = idle
      /\ elapsed_time acked later = elapsed_time self now)
  /\ elapsed_time (fst (_process_reset_response self now "Ack 0")) later = 0
  /\ elapsed_time (fst (disable self now)) later = 0
  /\ (_state self = disabled -> elapsed_time (fst (enable self now)) later = 0)
  /\ (let '(reached, clock) := run game_duration start evs in
      _state reached = running ->
      let '(reached', clock') :=
        run_from (reached, clock) (flat_map pause_resume cycles) in
      _state reached' = running
      /\ elapsed_time reached' clock'
         = elapsed_time reached clock + running_time cycles).
Proof.
  repeat match goal with |- _ /\ _ => split end.
  - pose proof (run_timed game_duration start evs) as Ht.
    destruct (run game_duration start evs) as [reached clock].
    unfold timed in Ht. cbn [fst] in Ht. unfold elapsed_time.
    destruct (_state reached) eqn:Es; cbn [State_eqb];
      destruct (_elapsed_timer reached) eqn:Et; try lia;
      exfalso; destruct Ht as [Ht1 Ht2];
      try (assert (running = running) as X by reflexivity;
           apply Ht2 in X; congruence);
      try (assert (Some z <> None) as X by discriminate;
           apply Ht1 in X; discriminate).
  - cbn zeta. unfold _process_pause_response, _stop_timer, refresh_time,
      elapsed_time. cbn.
    destruct (_elapsed_timer self); cbn; split; reflexivity.
  - intros Hn. cbn zeta.
    unfold _process_unpause_response, _start_timer, refresh_time, elapsed_time.
    cbn. rewrite Hn. split; reflexivity.
  - cbn zeta. unfold _process_stop_response, _stop_timer, refresh_time,
      elapsed_time. cbn.
    destruct (_elapsed_timer self); cbn; split; reflexivity.
  - reflexivity.
  - reflexivity.
  - intros Hs. unfold enable. rewrite Hs. reflexivity.
  - pose proof (run_timed game_duration start evs) as Ht.
    destruct (run game_duration start evs) as [reached clock].
    cbn [fst] in Ht. clear evs. intros Hrun.
    revert reached clock Ht Hrun.
    induction cycles as [|[r p] cycles IH]; intros reached clock Ht Hrun.
    + cbn. split; [assumption | lia].
    + cbn [flat_map]. rewrite run_from_app.
      assert (Hv : exists started, _elapsed_timer reached = Some started).
      { unfold timed in Ht. destruct (_elapsed_timer reached) as [s|]; [eauto|].
        apply Ht in Hrun. congruence. }
      destruct Hv as [started Hv].
      set (cfg1 := run_from (reached, clock) (pause_resume (r, p))).
      assert (H1 : _state (fst cfg1) = running
                   /\ timed (fst cfg1)
                   /\ elapsed_time (fst cfg1) (snd cfg1)
                      = elapsed_time reached clock + Z.of_N r).
      { subst cfg1. unfold pause_resume, timed. cbn [fst snd].
        cbn [run_from step].
        unfold _process_pause_response, _process_unpause_response, _stop_timer,
          _start_timer, refresh_time, elapsed_time.
        cbn. rewrite Hv. cbn.
        split; [reflexivity|]. split; [split; congruence|].
        generalize (Z.of_N r) (Z.of_N p) (_prev_elapsed_time reached).
        clear. intros. lia. }
      destruct cfg1 as [reached1 clock1]. cbn [fst snd] in H1.
      destruct H1 as (Hr1 & Ht1 & He1).
      specialize (IH reached1 clock1 Ht1 Hr1).
      destruct (run_from (reached1, clock1) (flat_map pause_resume cycles))
        as [reached' clock'].
      destruct IH as [IH1 IH2]. split; [assumption|].
      rewrite IH2, He1.
      change (running_time ((r, p) :: cycles))
        with (Z.of_N r + running_time cycles).
      lia.
Qed.

(** The scenario of the description: reset, start, 3 s, pause, 5 s,
    resume, 2 s leave 5 s on the clock. *)
Example pause_excluded_from_elapsed :
  let '(reached, clock) :=
    run 600 0
        [call_enable; call_reset_game; reset_response "Ack 0";
         call_start_game; start_response "Ack 0"; wait 3000;
         call_pause_game; pause_response "Ack 0"; wait 5000;
         call_pause_game; unpause_response "Ack 0"; wait 2000] in
  _state reached = running /\ elapsed_time reached clock = 5000.
Proof. cbn. split; reflexivity. Qed.

(** C7.  The claim fails when a resume is acknowledged twice.  A session
    runs 3 s and is paused; while it is paused [pause_game] is called twice
    (nothing keeps track of a resume that is under way), so two resume
    commands are sent.  The first acknowledgment resumes the session and
    2 s later the elapsed time is 5 s.  The second acknowledgment arrives
    in state [running]: [_start_timer] restarts the stopwatch without
    folding what it has measured ([_stop_timer] does fold), and the
    elapsed time of a running session falls from 5 s to 3 s. *)
Theorem second_resume_ack_loses_running_time :
  let resume := (set_state_command DeviceState.previous,
                 Some Callback._process_unpause_response) in
  let paused_session :=
    run 600 0 [call_enable; call_reset_game; reset_response "Ack 0";
               call_start_game; start_response "Ack 0"; wait 3000;
               call_pause_game; pause_response "Ack 0"; wait 4000] in
  let resumed :=
    run_from paused_session
      [call_pause_game; call_pause_game; unpause_response "Ack 0";
       wait 2000] in
  let resumed_again := run_from resumed [unpause_response "Ack 0"] in
  _state (fst paused_session) = paused
  /\ elapsed_time (fst paused_session) (snd paused_session) = 3000
  /\ sends (trace_from paused_session [call_pause_game; call_pause_game])
     = [resume; resume]
  /\ _state (fst resumed) = running
  /\ elapsed_time (fst resumed) (snd resumed) = 5000
  /\ _state (fst resumed_again) = running
  /\ snd resumed_again = snd resumed
  /\ elapsed_time (fst resumed_again) (snd resumed_again) = 3000.
Proof. cbn zeta. repeat split; reflexivity. Qed.

(** ** Late acknowledgments *)

(** C10.  The acknowledgment callbacks do not look at the state: the
    answer ["Ack 0"] moves any session, and in particular one that was
    just disabled, to [ready] (reset), [running] (start and resume),
    [paused] (pause) or [idle] (stop).  The commands in question are
    the ones that [reset_game], [start_game] and [pause_game] queue from
    the states [idle], [ready] and [running]. *)
Theorem late_ack_leaves_disabled (self : GameManager.t) (now later : Z) :
  let off := fst (disable self now) in
  _state off = disabled
  /\ _state (fst (_process_reset_response off later "Ack 0")) = ready
  /\ _state (fst (_process_start_response off later "Ack 0")) = running
  /\ _state (fst (_process_pause_response off later "Ack 0")) = paused
  /\ _state (fst (_process_unpause_response off later "Ack 0")) = running
  /\ _state (fst (_process_stop_response off later "Ack 0")) = idle
  /\ _state (fst (_process_reset_response self later "Ack 0")) = ready
  /\ _state (fst (_process_start_response self later "Ack 0")) = running
  /\ _state (fst (_process_pause_response self later "Ack 0")) = paused
  /\ (_state self = idle ->
      snd (reset_game self)
      = [send_command reset_command (Some Callback._process_reset_response)])
  /\ (_state self = ready ->
      snd (start_game self)
      = [send_command (set_state_command DeviceState.operational)
                      (Some Callback._process_start_response)])
  /\ (_state self = running ->
      snd (pause_game self)
      = [send_command (set_state_command DeviceState.paused)
                      (Some Callback._process_pause_response)]).
Proof.
  cbn zeta.
  repeat match goal with |- _ /\ _ => split end; try reflexivity;
    intros H; unfold reset_game, start_game, pause_game; rewrite H; reflexivity.
Qed.

(** ** What a run keeps *)

Lemma step_steady start game_duration cfg ev :
  steady start game_duration cfg ->
  steady start game_duration (fst (step cfg ev)).
Proof.
  destruct cfg as [self now]. unfold steady. cbn [fst snd].
  intros (Ht & Hv & Hs & Hn & Hp & Hd).
  destruct ev; cbn [step fst snd];
    unfold enable, disable, reset_game, start_game, stop_game, pause_game,
      _process_reset_response, _process_start_response, _process_stop_response,
      _process_pause_response, _process_unpause_response, _timer_callback,
      _stop_timer, _start_timer;
    unfold stop_game, refresh_time;
    repeat match goal with
           | |- context [if ?c then _ else _] => destruct c eqn:?
           | |- context [match _elapsed_timer ?s with _ => _ end] =>
               destruct (_elapsed_timer s) eqn:?
           end;
    cbn [fst snd _timer _state _elapsed_timer _prev_elapsed_time _game_duration
         set_timer set_state set_elapsed_timer set_prev_elapsed_time] in *;
    try match goal with
        | H : _timer self = _ |- _ => rewrite H
        end;
    (split; [first [exact Ht | split; congruence]|]);
    (split; [first [exact Hv | split; congruence]|]);
    (split; [intros started' E;
             first [discriminate E
                   | injection E as <-; lia
                   | specialize (Hs _ E); lia]|]);
    (split; [lia|]);
    (split; [first [exact Hp | lia
                   | match goal with
                     | E : _elapsed_timer _ = Some ?s |- _ =>
                         specialize (Hs _ E); lia
                     end]|]);
    exact Hd.
Qed.

Lemma run_from_steady start game_duration evs : forall cfg,
  steady start game_duration cfg ->
  steady start game_duration (run_from cfg evs).
Proof.
  induction evs as [|ev evs IH]; intros cfg H; [exact H|].
  cbn [run_from].
  pose proof (step_steady start game_duration cfg ev H) as H'.
  destruct (step cfg ev) as [[self now] out]. apply IH. exact H'.
Qed.

(** X15.  In every run of a session, between any two events: the 250 ms
    timer is active exactly in state [running], and so is the
    stopwatch; the stopwatch was started during the run and not after
    the present clock reading; the time shown is never negative and
    never less than the time folded at the last stop; the game duration
    is the one the session was built with. *)
Theorem timers_run_exactly_while_running
    (game_duration start : Z) (evs : list Event) :
  let self := fst (run game_duration start evs) in
  let now := snd (run game_duration start evs) in
  (_timer self = true <-> _state self = running)
  /\ (_elapsed_timer self <> None <-> _state self = running)
  /\ (forall started, _elapsed_timer self = Some started -> start <= started <= now)
  /\ 0 <= _prev_elapsed_time self <= elapsed_time self now
  /\ _game_duration self = game_duration.
Proof.
  cbn zeta.
  assert (H : steady start game_duration (run game_duration start evs)).
  { apply run_from_steady. unfold steady. cbn.
    split; [split; [discriminate | discriminate]|].
    split; [split; [congruence | discriminate]|].
    split; [discriminate|]. split; [lia|]. split; [lia | reflexivity]. }
  destruct H as (Ht & Hv & Hs & Hn & Hp & Hd).
  split; [exact Ht|]. split; [exact Hv|]. split; [exact Hs|].
  split; [|exact Hd]. unfold elapsed_time.
  destruct (_elapsed_timer _) as [started|]; [specialize (Hs _ eq_refl)|]; lia.
Qed.

(** ** What changes the session *)

(** X16.  Only [enable()], [disable()] and the answer ["Ack 0"] handed
    to a callback change the session object; requests, other answers,
    ticks of the 250 ms timer and the passing of time leave every
    attribute as it is.  The events that change it send nothing, no
    event sends more than one command, and in state [disabled] none
    sends any. *)
Theorem only_enable_disable_and_acks_change_the_session
    (self : GameManager.t) (now : Z) (ev : Event) :
  let self' := fst (fst (step (self, now) ev)) in
  let out := snd (step (self, now) ev) in
  (moves ev = false -> self' = self)
  /\ (moves ev = true -> sends out = [])
  /\ (length (sends out) <= 1)%nat
  /\ (_state self = disabled -> sends out = []).
Proof.
  cbn zeta.
  destruct ev; cbn [step moves fst snd];
    unfold enable, disable, reset_game, start_game, stop_game, pause_game,
      _process_reset_response, _process_start_response, _process_stop_response,
      _process_pause_response, _process_unpause_response, _timer_callback,
      _stop_timer, _start_timer;
    unfold stop_game, refresh_time;
    repeat match goal with
           | |- context [if ?c then _ else _] => destruct c eqn:?
           | |- context [match _elapsed_timer ?s with _ => _ end] =>
               destruct (_elapsed_timer s) eqn:?
           end;
    cbn [fst snd sends flat_map app length];
    (split; [first [reflexivity | discriminate | congruence]|]);
    (split; [first [reflexivity | discriminate | congruence]|]);
    (split; [lia|]);
    try (intros _; reflexivity);
    intros Hdis;
    repeat match goal with
           | H : context [State_eqb (_state self) _] |- _ => rewrite Hdis in H
           end;
    cbn in *; congruence.
Qed.

(** ** The end of the game *)

Lemma elapsed_time_mono self now later :
  now <= later -> elapsed_time self now <= elapsed_time self later.
Proof. unfold elapsed_time. destruct (_elapsed_timer self); lia. Qed.

Lemma tick_while_running self now :
  _state self = running ->
  _timer self = true ->
  step (self, now) timer_timeout
  = (self, now,
     emit (Signal.time (format_time (elapsed_time self now / 1000)))
     :: (if elapsed_time self now / 1000 >=? _game_duration self
         then [send_command (fst stop_call) (snd stop_call)] else [])).
Proof.
  intros Hs Ht. cbn [step]. rewrite Ht.
  unfold _timer_callback, refresh_time, stop_game. rewrite Hs. cbn.
  destruct (_ >=? _); reflexivity.
Qed.

Lemma idle_run evs : forall self now,
  forallb idles evs = true ->
  _state self = running ->
  _timer self = true ->
  fst (run_from (self, now) evs) = self /\ now <= snd (run_from (self, now) evs).
Proof.
  induction evs as [|ev evs IH]; intros self now Hi Hs Ht; [split; [reflexivity | cbn; lia]|].
  cbn [forallb] in Hi. apply andb_prop in Hi as [Hev Hi].
  destruct ev; try discriminate Hev.
  - cbn [run_from step].
    destruct (IH self (now + Z.of_N milliseconds) Hi Hs Ht) as [E1 E2].
    split; [exact E1 | lia].
  - cbn [run_from]. rewrite (tick_while_running self now Hs Ht).
    exact (IH self now Hi Hs Ht).
Qed.

(** X17.  The game ends itself through the 250 ms timer, and only asks:
    [_timer_callback] sends the stop command when the elapsed seconds
    have reached the game duration and leaves the state as it is.  So
    in state [running], as long as nothing but time and ticks happens:
    no tick before the duration is reached sends anything, and once it
    is reached every tick sends the stop command again, one per tick,
    until an acknowledgment arrives. *)
Theorem overdue_game_asks_to_stop_on_every_tick
    (self : GameManager.t) (now : Z) (evs : list Event) :
  _state self = running ->
  _timer self = true ->
  forallb idles evs = true ->
  fst (run_from (self, now) evs) = self
  /\ (_game_duration self <= elapsed_time self now / 1000 ->
      sends (trace_from (self, now) evs)
      = List.repeat stop_call (length (List.filter is_tick evs)))
  /\ (elapsed_time self (snd (run_from (self, now) evs)) / 1000
      < _game_duration self ->
      sends (trace_from (self, now) evs) = []).
Proof.
  intros Hs Ht Hi. split; [exact (proj1 (idle_run evs self now Hi Hs Ht))|].
  revert now. induction evs as [|ev evs IH]; intros now;
    [split; reflexivity|].
  cbn [forallb] in Hi. apply andb_prop in Hi as [Hev Hi].
  specialize (IH Hi).
  destruct ev; try discriminate Hev.
  - cbn [trace_from run_from step List.filter is_tick app].
    destruct (IH (now + Z.of_N milliseconds)) as [IHa IHb].
    split; [|exact IHb].
    intros Hdue. apply IHa.
    pose proof (elapsed_time_mono self now (now + Z.of_N milliseconds)
                  ltac:(lia)) as Hm.
    apply (Z.div_le_mono _ _ 1000) in Hm; lia.
  - cbn [trace_from run_from List.filter is_tick length List.repeat].
    rewrite (tick_while_running self now Hs Ht).
    destruct (IH now) as [IHa IHb]. split.
    + intros Hdue. destruct (Z.geb_spec (elapsed_time self now / 1000)
                                        (_game_duration self)); [|lia].
      cbn [app].
      change (sends (emit ?s :: send_command ?r ?c :: ?l)) with ((r, c) :: sends l).
      rewrite (IHa Hdue). reflexivity.
    + intros Hearly.
      pose proof (proj2 (idle_run evs self now Hi Hs Ht)) as Hclock.
      pose proof (elapsed_time_mono self now _ Hclock) as Hm.
      apply (Z.div_le_mono _ _ 1000) in Hm; [|lia].
      destruct (Z.geb_spec (elapsed_time self now / 1000)
                           (_game_duration self)); [lia|].
      cbn [app]. change (sends (emit ?s :: ?l)) with (sends l).
      apply IHb. exact Hearly.
Qed.

Lemma overdue_game_asks_to_stop_on_every_tick_witness :
  let cfg := run 2 0 [call_enable; reset_response "Ack 0"; start_response "Ack 0"] in
  sends (trace_from cfg [wait 1500; timer_timeout; wait 600; timer_timeout;
                         wait 250; timer_timeout])
  = [stop_call; stop_call].
Proof.
  cbn zeta.
  pose proof (overdue_game_asks_to_stop_on_every_tick
                (fst (run 2 0 [call_enable; reset_response "Ack 0";
                               start_response "Ack 0"]))
                2100 [timer_timeout; wait 250; timer_timeout]
                eq_refl eq_refl eq_refl) as (_ & H & _).
  specialize (H ltac:(vm_compute; discriminate)).
  exact H.
Defined.

(** ** A resume acknowledged twice *)

(** X18.  [_start_timer] restarts the stopwatch without folding what it
    has measured.  When the acknowledgment of a resume arrives while the
    stopwatch is already running (the resume was requested twice), the
    time run since the stopwatch was started is discarded: the elapsed
    time drops back to the time folded at the last pause and counts on
    from there. *)
Theorem second_resume_ack_discards_the_time_since_the_first
    (self : GameManager.t) (now started : Z) :
  _elapsed_timer self = Some started ->
  let acked := fst (_process_unpause_response self now "Ack 0") in
  _state acked = running
  /\ elapsed_time acked now = elapsed_time self now - (now - started)
  /\ forall later,
       elapsed_time acked later = _prev_elapsed_time self + (later - now).
Proof.
  intros E. cbn zeta. unfold elapsed_time. rewrite E. cbn.
  repeat split; lia.
Qed.

Lemma second_resume_ack_discards_the_time_since_the_first_witness :
  let self := fst (run 600 0 twice_resumed) in
  let now := snd (run 600 0 twice_resumed) in
  elapsed_time self now = 8000
  /\ elapsed_time (fst (_process_unpause_response self now "Ack 0")) now = 5000.
Proof.
  cbn zeta. split; [reflexivity|].
  exact (proj1 (proj2
    (second_resume_ack_discards_the_time_since_the_first
       (fst (run 600 0 twice_resumed)) (snd (run 600 0 twice_resumed)) 5000
       eq_refl))).
Defined.

End GameManagerFacts.

(* ===================================================================== *)
(** * Facts about the command transport *)
(* ===================================================================== *)

Module CommandTransportFacts.
Import CommandTransport.

Section Discipline.

Context {C Owners : Type}.
Variable invoke :
  C -> string -> Owners -> Res (Owners * list (string * option C)).

Implicit Types (self : t C) (l : Ledger) (out : list (Action C)).

Lemma observe_all_app l out1 out2 :
  observe_all l (out1 ++ out2)
  = match observe_all l out1 with
    | Some l' => observe_all l' out2
    | None => None
    end.
Proof.
  revert l. induction out1 as [|a out1 IH]; intros l; [reflexivity|].
  cbn. destruct (observe l a); [apply IH | reflexivity].
Qed.

(** ** Reading a disciplined trace *)

Lemma observe_all_split l l' out pre a post :
  observe_all l out = Some l' ->
  out = pre ++ a :: post ->
  exists before after,
    observe_all l pre = Some before /\ observe before a = Some after.
Proof.
  intros H ->. rewrite observe_all_app in H.
  destruct (observe_all l pre) as [before|]; [|discriminate].
  cbn in H. destruct (observe before a) as [after|] eqn:E; [|discriminate].
  exists before, after. split; [reflexivity | exact E].
Qed.

(** At a write nothing is in flight, the data is the request at the head
    of the queue, and every command queued earlier is settled. *)
Lemma observe_written before after data :
  observe before (written (C := C) data) = Some after ->
  flight before = None
  /\ exists n rest,
       pending before = (n, data) :: rest
       /\ flight after = Some n
       /\ forall m, (m < n)%nat -> settled before m = true.
Proof.
  cbn [observe]. destruct (flight before); [discriminate|].
  destruct (pending before) as [|[n req] rest]; [discriminate|].
  destruct (String.eqb data req) eqn:E; [|discriminate].
  destruct (forallb (settled before) (seq 0 n)) eqn:F; [|discriminate].
  cbn. intros [= <-]. split; [reflexivity|].
  apply String.eqb_eq in E as <-. exists n, rest.
  split; [reflexivity|]. split; [reflexivity|].
  intros m Hm. rewrite forallb_forall in F. apply F, in_seq. lia.
Qed.

(** At a pop the command popped is the head of the queue and the one in
    flight, and both its completions are recorded. *)
Lemma observe_popped before after (c : Command C) :
  observe before (popped c) = Some after ->
  exists n rest,
    pending before = (n, request c) :: rest
    /\ flight before = Some n
    /\ write_recorded before = true
    /\ read_recorded before = true
    /\ pending after = rest
    /\ flight after = None.
Proof.
  cbn [observe]. destruct (flight before) as [n|]; [|discriminate].
  destruct (pending before) as [|[h req] rest]; [discriminate|].
  destruct (Nat.eqb_spec n h) as [->|]; [|discriminate].
  destruct (String.eqb (request c) req) eqn:E; [|discriminate].
  destruct (write_recorded before); [|discriminate].
  destruct (read_recorded before); [|discriminate].
  cbn. intros [= <-]. apply String.eqb_eq in E as <-.
  exists h, rest. repeat split; reflexivity.
Qed.

Lemma settled_seq l n :
  (forall m, (m < n)%nat -> settled l m = true) ->
  forallb (settled l) (seq 0 n) = true.
Proof.
  intros H. apply forallb_forall. intros m Hm. apply in_seq in Hm.
  apply H. lia.
Qed.

Lemma existsb_eqb_In m (xs : list nat) :
  In m xs -> existsb (Nat.eqb m) xs = true.
Proof.
  intros H. apply existsb_exists. exists m. split; [assumption|].
  apply Nat.eqb_refl.
Qed.

(** ** What the ledger refuses *)

(** A write while another command is in flight. *)
Example two_in_flight_refused :
  disciplined [appended (mkCommand (C := C) "first" None);
               appended (mkCommand "second" None);
               written "first"; written "second"]
  = false.
Proof. reflexivity. Qed.

(** A write that skips the head of the queue. *)
Example out_of_order_refused :
  disciplined [appended (mkCommand (C := C) "first" None);
               appended (mkCommand "second" None); written "second"]
  = false.
Proof. reflexivity. Qed.

(** A pop before the read completion. *)
Example early_pop_refused :
  disciplined [appended (mkCommand (C := C) "first" None); written "first";
               write_completed; popped (mkCommand "first" None)]
  = false.
Proof. reflexivity. Qed.

(** The regular life of two commands. *)
Example regular_life_accepted :
  disciplined [appended (mkCommand (C := C) "first" None);
               appended (mkCommand "second" None);
               written "first"; write_completed; read_completed;
               popped (mkCommand "first" None);
               written "second"; read_completed; write_completed;
               popped (mkCommand "second" None)]
  = true.
Proof. reflexivity. Qed.

(** ** Each method keeps the ledger in agreement *)

Lemma agrees_send_command l self request callback :
  agrees l self ->
  exists l',
    observe_all l (snd (send_command self request callback)) = Some l'
    /\ agrees l' (fst (send_command self request callback)).
Proof.
  intros (Hq & Hn & Hle & Hs & Hst).
  eexists. split; [reflexivity|].
  unfold send_command. cbn [fst].
  assert (Hstate : forall (b : bool) (s : t C),
             _state (if b then set_timer true s else s) = _state s)
    by (intros b0 s0; destruct b0; reflexivity).
  assert (Hqueue : forall (b : bool) (s : t C),
             _command_queue (if b then set_timer true s else s)
             = _command_queue s)
    by (intros b0 s0; destruct b0; reflexivity).
  assert (Hwc : forall (b : bool) (s : t C),
             _write_complete (if b then set_timer true s else s)
             = _write_complete s)
    by (intros b0 s0; destruct b0; reflexivity).
  assert (Hrc : forall (b : bool) (s : t C),
             _read_complete (if b then set_timer true s else s)
             = _read_complete s)
    by (intros b0 s0; destruct b0; reflexivity).
  unfold agrees. rewrite Hstate, Hqueue, Hwc, Hrc. cbn.
  rewrite !map_app, !length_app. cbn.
  repeat split.
  - rewrite Hq. reflexivity.
  - rewrite Hn.
    replace (S (next l) - (length (pending l) + 1))%nat
      with (next l - length (pending l))%nat by lia.
    rewrite Nat.add_1_r, seq_S. f_equal. f_equal. lia.
  - lia.
  - intros m Hm. apply Hs. lia.
  - destruct (_state self); try assumption.
    destruct Hst as (n & req & rest & Hp & Hf & Hw & Hr).
    exists n, req, (rest ++ [(next l, request)]).
    rewrite Hp. repeat split; assumption.
Qed.


Lemma agrees_send_all calls : forall l self,
  agrees l self ->
  exists l',
    observe_all l (snd (send_all self calls)) = Some l'
    /\ agrees l' (fst (send_all self calls))
    /\ _state (fst (send_all self calls)) = _state self
    /\ _write_complete (fst (send_all self calls)) = _write_complete self
    /\ (_command_queue self <> [] ->
        exists rest,
          _command_queue (fst (send_all self calls))
          = hd (mkCommand EmptyString None) (_command_queue self) :: rest).
Proof.
  induction calls as [|[request callback] calls IH]; intros l self Ha.
  - exists l. cbn [send_all fst snd].
    split; [reflexivity|]. split; [assumption|].
    split; [reflexivity|]. split; [reflexivity|].
    intros Hne. destruct (_command_queue self) as [|c q]; [congruence|].
    exists q. reflexivity.
  - cbn [send_all].
    destruct (agrees_send_command l self request callback Ha)
      as (l1 & Ho1 & Ha1).
    destruct (send_command self request callback) as [self1 out1] eqn:E1.
    cbn [fst snd] in Ho1, Ha1.
    assert (Hs1 : _state self1 = _state self
                  /\ _write_complete self1 = _write_complete self
                  /\ _command_queue self1
                     = _command_queue self ++ [mkCommand request callback]).
    { unfold send_command in E1. injection E1 as <- _.
      destruct (State_eqb _ _); cbn; repeat split; reflexivity. }
    destruct Hs1 as (Hst1 & Hw1 & Hq1).
    destruct (IH l1 self1 Ha1) as (l2 & Ho2 & Ha2 & Hst2 & Hw2 & Hq2).
    destruct (send_all self1 calls) as [self2 out2].
    cbn [fst snd] in *.
    exists l2. rewrite observe_all_app, Ho1.
    split; [assumption|]. split; [assumption|].
    split; [congruence|]. split; [congruence|].
    intros Hne. destruct (_command_queue self) as [|c q]; [congruence|].
    destruct Hq2 as [rest Hrest]; [rewrite Hq1; discriminate|].
    exists rest. rewrite Hrest, Hq1. reflexivity.
Qed.

Lemma agrees_process_request l self is_open self' out :
  agrees l self ->
  _process_request self is_open = Ok (self', out) ->
  exists l', observe_all l out = Some l' /\ agrees l' self'.
Proof.
  intros (Hq & Hn & Hle & Hs & Hst). unfold _process_request.
  destruct (_state self) eqn:Est; cbn [State_eqb negb].
  - intros [= <- <-]. exists l. split; [reflexivity|].
    unfold agrees. rewrite Est. auto.
  - destruct is_open; cbn [negb].
    + destruct (_command_queue self) as [|head q] eqn:Eq; [discriminate|].
      intros [= <- <-].
      destruct (pending l) as [|[n req] rest] eqn:Ep; [discriminate|].
      cbn in Hq, Hn. injection Hq as Hreq Hq. injection Hn as Hnum Hn.
      cbn [observe_all observe]. rewrite Hst, Ep.
      rewrite Hreq, String.eqb_refl.
      rewrite settled_seq
        by (intros m Hm; apply Hs; rewrite ?Ep; cbn [length]; lia).
      cbn [andb]. eexists. split; [reflexivity|].
      unfold agrees. cbn.
      split; [rewrite Eq; cbn; congruence|].
      split; [congruence|].
      split; [exact Hle|].
      split; [intros m Hm; apply (Hs m); exact Hm|].
      eauto 10.
    + intros [= <- <-]. cbn [observe_all observe].
      eexists. split; [reflexivity|].
      unfold agrees. cbn. repeat split; assumption.
  - intros [= <- <-]. exists l. split; [reflexivity|].
    unfold agrees. rewrite Est. auto.
Qed.

Lemma settled_finalized l m n :
  settled l m = true \/ m = n ->
  settled (mkLedger (tl (pending l)) (next l) None false false
             (n :: finalized l) (dropped l)) m = true.
Proof.
  unfold settled. cbn. intros [H| ->].
  - apply orb_true_iff in H as [H|H]; rewrite H;
      rewrite ?orb_true_r; reflexivity.
  - rewrite Nat.eqb_refl. reflexivity.
Qed.

Lemma agrees_finalize_request l self self' out :
  agrees l self ->
  (_state self = work ->
   _write_complete self = true /\ _read_complete self = true) ->
  _finalize_request self = Ok (self', out) ->
  exists l', observe_all l out = Some l' /\ agrees l' self'.
Proof.
  intros (Hq & Hn & Hle & Hs & Hst) Hflags. unfold _finalize_request.
  destruct (_state self) eqn:Est; cbn [State_eqb negb];
    try (intros [= <- <-]; exists l; split; [reflexivity|];
         unfold agrees; rewrite Est; auto).
  destruct (_command_queue self) as [|head q] eqn:Eq; [discriminate|].
  intros [= <- <-].
  destruct Hst as (n & req & rest & Hp & Hf & Hw & Hr).
  destruct (Hflags eq_refl) as [Hwc Hrc].
  rewrite Hp in Hq, Hn, Hle, Hs. cbn in Hq, Hn, Hle.
  injection Hq as Hreq Hq. injection Hn as Hnum Hn.
  cbn [observe_all observe]. rewrite Hf, Hp, Nat.eqb_refl, Hreq,
    String.eqb_refl, Hw, Hr, Hwc, Hrc.
  cbn [andb]. eexists. split; [reflexivity|].
  assert (Hstate : forall (b : bool) (s : t C),
             _state (if b then set_timer true s else s) = _state s)
    by (intros b0 s0; destruct b0; reflexivity).
  assert (Hqueue : forall (b : bool) (s : t C),
             _command_queue (if b then set_timer true s else s)
             = _command_queue s)
    by (intros b0 s0; destruct b0; reflexivity).
  unfold agrees. rewrite Hstate, Hqueue. cbn.
  repeat split.
  - assumption.
  - rewrite Hn. f_equal. lia.
  - lia.
  - intros m Hm.
    apply (settled_finalized (mkLedger ((n, req) :: rest) (next l) (flight l)
                                (write_recorded l) (read_recorded l)
                                (finalized l) (dropped l)) m n).
    destruct (Nat.eq_dec m n) as [->|Hne]; [right; reflexivity | left].
    change (settled l m = true). apply Hs. cbn [length]. lia.
Qed.


(** Agreement only looks at the queue, the state and the two flags. *)
Lemma agrees_fields l self self' :
  _command_queue self' = _command_queue self ->
  _state self' = _state self ->
  _write_complete self' = _write_complete self ->
  _read_complete self' = _read_complete self ->
  agrees l self -> agrees l self'.
Proof.
  unfold agrees. intros -> -> -> ->. exact (fun H => H).
Qed.

Lemma agrees_write_completed l self :
  agrees l self -> _state self = work ->
  exists l',
    observe l (write_completed (C := C)) = Some l'
    /\ agrees l' (set_write_complete true self).
Proof.
  intros (Hq & Hn & Hle & Hs & Hst) Est. rewrite Est in Hst.
  destruct Hst as (n & req & rest & Hp & Hf & Hw & Hr).
  cbn [observe]. rewrite Hf. eexists. split; [reflexivity|].
  unfold agrees. cbn. rewrite Est.
  repeat (split; [assumption|]). eauto 10.
Qed.

Lemma agrees_read_completed l self :
  agrees l self -> _state self = work ->
  exists l',
    observe l (read_completed (C := C)) = Some l'
    /\ agrees l' (set_read_complete true self).
Proof.
  intros (Hq & Hn & Hle & Hs & Hst) Est. rewrite Est in Hst.
  destruct Hst as (n & req & rest & Hp & Hf & Hw & Hr).
  cbn [observe]. rewrite Hf. eexists. split; [reflexivity|].
  unfold agrees. cbn. rewrite Est.
  repeat (split; [assumption|]). eauto 10.
Qed.

Lemma agrees_handle_write l self sent_bytes self' out :
  agrees l self ->
  _handle_write self sent_bytes = Ok (self', out) ->
  exists l', observe_all l out = Some l' /\ agrees l' self'.
Proof.
  intros Ha. unfold _handle_write.
  destruct (_state self) eqn:Est; cbn [State_eqb negb];
    try (intros [= <- <-]; exists l; split; [reflexivity | assumption]).
  set (s1 := set_unsent_bytes (_unsent_bytes self - sent_bytes) self).
  assert (Ha1 : agrees l s1) by (revert Ha; apply agrees_fields; reflexivity).
  assert (Est1 : _state s1 = work) by exact Est.
  destruct (_unsent_bytes s1 =? 0).
  - destruct (agrees_write_completed l s1 Ha1 Est1) as (l1 & Ho1 & Ha2).
    destruct (_read_complete (set_write_complete true s1)) eqn:Erc.
    + destruct (_finalize_request (set_write_complete true s1))
        as [[s3 o3]|] eqn:Ef; cbn; [|discriminate].
      intros [= <- <-].
      destruct (agrees_finalize_request l1 _ _ _ Ha2 (fun _ => conj eq_refl Erc) Ef)
        as (l3 & Ho3 & Ha3).
      exists l3. cbn [observe_all]. rewrite Ho1. split; assumption.
    + intros [= <- <-]. exists l1. cbn [observe_all]. rewrite Ho1.
      split; [reflexivity | assumption].
  - intros [= <- <-]. exists l. split; [reflexivity | assumption].
Qed.

Lemma agrees_handle_read l self owners line self' owners' out :
  agrees l self ->
  _handle_read invoke self owners line = Ok (self', owners', out) ->
  exists l', observe_all l out = Some l' /\ agrees l' self'.
Proof.
  intros Ha. unfold _handle_read.
  destruct (_state self) eqn:Est; cbn [State_eqb negb];
    try (intros [= <- <- <-]; exists l; split; [reflexivity | assumption]).
  destruct line as [raw|];
    [|intros [= <- <- <-]; exists l; split; [reflexivity | assumption]].
  destruct (decode_ascii raw) as [response|]; cbn; [|discriminate].
  destruct (String.length (strip response) =? 0)%nat; cbn [negb];
    [intros [= <- <- <-]; exists l; split; [reflexivity | assumption]|].
  destruct (_command_queue self) as [|head q] eqn:Eq; cbn; [discriminate|].
  assert (Hflight : exists n, flight l = Some n).
  { destruct Ha as (_ & _ & _ & _ & Hst). rewrite Est in Hst.
    destruct Hst as (n & _ & _ & _ & Hf & _). eauto. }
  destruct Hflight as [n Hflight].
  (* the callback and its sends *)
  assert (Hcb : forall s1 o1 out1,
             match callback head with
             | Some cb =>
                 '(owners0, calls) ← invoke cb (strip response) owners;
                 (let '(self0, out0) := send_all self calls in
                  Ok (self0, owners0, called_back cb (strip response) :: out0))
             | None => Ok (self, owners, [])
             end = Ok (s1, o1, out1) ->
             exists l1,
               observe_all l out1 = Some l1 /\ agrees l1 s1
               /\ _state s1 = work
               /\ _write_complete s1 = _write_complete self).
  { intros s1 o1 out1. destruct (callback head) as [cb|].
    - destruct (invoke cb (strip response) owners) as [[owners0 calls]|];
        cbn; [|discriminate].
      destruct (agrees_send_all calls l self Ha)
        as (l1 & Ho1 & Ha1 & Hs1 & Hw1 & _).
      destruct (send_all self calls) as [self0 out0]. cbn [fst snd] in *.
      intros [= <- <- <-]. exists l1. cbn [observe_all observe].
      rewrite Hflight. split; [assumption|]. split; [assumption|].
      split; congruence.
    - intros [= <- <- <-]. exists l. split; [reflexivity|].
      split; [assumption|]. split; [assumption | reflexivity]. }
  destruct (match callback head with Some _ => _ | None => _ end)
    as [[[s1 o1] out1]|] eqn:Ecb; cbn; [|discriminate].
  destruct (Hcb _ _ _ eq_refl) as (l1 & Ho1 & Ha1 & Hs1 & Hw1).
  destruct (agrees_read_completed l1 s1 Ha1 Hs1) as (l2 & Ho2 & Ha2).
  destruct (_write_complete s1) eqn:Ewc.
  - destruct (_finalize_request (set_read_complete true s1))
      as [[s3 o3]|] eqn:Ef; cbn; [|discriminate].
    intros [= <- <- <-].
    destruct (agrees_finalize_request l2 _ _ _ Ha2 (fun _ => conj Ewc eq_refl) Ef)
      as (l3 & Ho3 & Ha3).
    exists l3. rewrite observe_all_app, Ho1. cbn [observe_all]. rewrite Ho2.
    split; assumption.
  - intros [= <- <- <-]. exists l2.
    rewrite observe_all_app, Ho1. cbn [observe_all]. rewrite Ho2.
    split; [reflexivity | assumption].
Qed.


Lemma agrees_enable l self is_open self' out :
  agrees l self ->
  enable self is_open = Ok (self', out) ->
  exists l', observe_all l out = Some l' /\ agrees l' self'.
Proof.
  intros Ha. unfold enable.
  destruct (_state self) eqn:Est; cbn [State_eqb negb];
    try (intros [= <- <-]; exists l; split; [reflexivity | assumption]).
  assert (Ha0 : agrees l (set_state idle self)).
  { destruct Ha as (Hq & Hn & Hle & Hs & Hst). rewrite Est in Hst.
    unfold agrees. cbn. auto. }
  destruct (agrees_send_command l (set_state idle self) ping None Ha0)
    as (l1 & Ho1 & Ha1).
  destruct (send_command (set_state idle self) ping None) as [s1 o1].
  cbn [fst snd] in Ho1, Ha1.
  destruct (length (_command_queue s1) =? 0)%nat; cbn [negb].
  - intros [= <- <-]. exists l1. split; assumption.
  - destruct (_process_request s1 is_open) as [[s2 o2]|] eqn:Ep; cbn;
      [|discriminate].
    intros [= <- <-].
    destruct (agrees_process_request l1 _ _ _ _ Ha1 Ep) as (l2 & Ho2 & Ha2).
    exists l2. rewrite observe_all_app, Ho1. split; assumption.
Qed.

Lemma agrees_disable l self :
  agrees l self ->
  exists l',
    observe_all l (snd (disable self)) = Some l'
    /\ agrees l' (fst (disable self)).
Proof.
  intros (Hq & Hn & Hle & Hs & Hst).
  eexists. split; [reflexivity|]. unfold agrees. cbn. auto.
Qed.

Lemma agrees_clear l self :
  agrees l self -> _state self <> work ->
  exists l',
    observe_all l (snd (clear self)) = Some l'
    /\ agrees l' (fst (clear self)).
Proof.
  intros (Hq & Hn & Hle & Hs & Hst) Hnw.
  eexists. split; [reflexivity|]. unfold agrees. cbn.
  split; [reflexivity|]. split; [reflexivity|]. split; [lia|]. split.
  - intros m Hm. unfold settled. cbn.
    destruct (Nat.lt_ge_cases m (next l - length (pending l))) as [Hlt|Hge].
    + specialize (Hs m Hlt). unfold settled in Hs.
      apply orb_true_iff in Hs as [Hs|Hs]; apply orb_true_iff;
        [left; assumption | right].
      rewrite existsb_app, Hs. apply orb_true_r.
    + apply orb_true_iff. right. rewrite existsb_app.
      apply orb_true_iff. left. apply existsb_eqb_In.
      rewrite Hn. apply in_seq. lia.
  - destruct (_state self); [assumption | assumption | congruence].
Qed.

Lemma agrees_step l self owners ev self' owners' out :
  agrees l self ->
  (ev = call_clear -> _state self <> work) ->
  step invoke (self, owners) ev = Ok (self', owners', out) ->
  exists l', observe_all l out = Some l' /\ agrees l' self'.
Proof.
  intros Ha Hclear.
  destruct ev as [is_open| | |req cb|is_open|sent_bytes|line]; cbn [step].
  - destruct (enable self is_open) as [[s o]|] eqn:E; cbn; [|discriminate].
    intros [= <- <- <-]. eapply agrees_enable; eassumption.
  - destruct (agrees_disable l self Ha) as (l' & Ho & Ha').
    destruct (disable self) as [s o]. intros [= <- <- <-]. eauto.
  - destruct (agrees_clear l self Ha (Hclear eq_refl)) as (l' & Ho & Ha').
    destruct (clear self) as [s o]. intros [= <- <- <-]. eauto.
  - destruct (agrees_send_command l self req cb Ha) as (l' & Ho & Ha').
    destruct (send_command self req cb) as [s o].
    intros [= <- <- <-]. eauto.
  - destruct (_timer self); [|intros [= <- <- <-]; exists l; split;
                               [reflexivity | assumption]].
    destruct (_process_request (set_timer false self) is_open)
      as [[s o]|] eqn:E; cbn; [|discriminate].
    intros [= <- <- <-].
    eapply agrees_process_request; [|eassumption].
    revert Ha. apply agrees_fields; reflexivity.
  - destruct (_handle_write self sent_bytes) as [[s o]|] eqn:E; cbn;
      [|discriminate].
    intros [= <- <- <-]. eapply agrees_handle_write; eassumption.
  - intros H. eapply agrees_handle_read; eassumption.
Qed.

Lemma agrees_run evs : forall cfg done l0 l,
  observe_all l0 done = Some l ->
  agrees l (fst cfg) ->
  clears_outside_work invoke cfg evs = true ->
  exists l',
    observe_all l0 (trace (run_from invoke cfg done evs)) = Some l'
    /\ agrees l' (fst (reached (run_from invoke cfg done evs))).
Proof.
  induction evs as [|ev evs IH]; intros [self owners] done l0 l Ho Ha Hc.
  - exists l. split; assumption.
  - cbn [run_from clears_outside_work fst] in *.
    apply andb_prop in Hc as [Hc1 Hc2].
    destruct (step invoke (self, owners) ev) as [[[s o] out]|] eqn:E.
    + destruct (agrees_step l self owners ev s o out Ha) as (l1 & Ho1 & Ha1);
        [|exact E|].
      { intros ->. intros Hw. rewrite Hw in Hc1. discriminate. }
      apply (IH (s, o) (done ++ out) l0 l1); [|assumption|assumption].
      rewrite observe_all_app, Ho. assumption.
    + exists l. split; assumption.
Qed.

(** ** The queue discipline *)

(** C1 (as amended).  Take any sequence of method calls and signals on a
    fresh transport, with any callbacks, in which [clear()] is not called
    while a command is in flight.  Everything the transport does keeps
    the discipline that the ledger checks.  In particular: whenever it
    writes, no command is in flight, what it writes is the request at the
    head of the queue, and every command queued before that one has been
    finalized (or dropped by [clear()]); whenever it pops a command and
    goes back to [idle], that command is the head of the queue, it is the
    one in flight, and both its write completion and its read completion
    have been recorded. *)
Theorem one_command_in_flight_fifo (owners : Owners) (evs : list (Event C)) :
  clears_outside_work invoke (init, owners) evs = true ->
  let done := trace (run invoke owners evs) in
  disciplined done = true
  /\ (forall pre data post,
        done = pre ++ written data :: post ->
        exists before n rest,
          observe_all ledger0 pre = Some before
          /\ flight before = None
          /\ pending before = (n, data) :: rest
          /\ forall m, (m < n)%nat -> settled before m = true)
  /\ (forall pre c post,
        done = pre ++ popped c :: post ->
        exists before n rest,
          observe_all ledger0 pre = Some before
          /\ pending before = (n, request c) :: rest
          /\ flight before = Some n
          /\ write_recorded before = true
          /\ read_recorded before = true).
Proof.
  intros Hc done.
  destruct (agrees_run evs (init, owners) [] ledger0 ledger0)
    as (l' & Ho & _).
  - reflexivity.
  - unfold agrees. cbn. repeat split; try reflexivity. intros m Hm. lia.
  - assumption.
  - fold (run invoke owners evs) in Ho. fold done in Ho.
    split; [unfold disciplined; rewrite Ho; reflexivity|]. split.
    + intros pre data post E.
      destruct (observe_all_split _ _ _ _ _ _ Ho E) as (before & after & Hb & Ha).
      apply observe_written in Ha as (Hf & n & rest & Hp & _ & Hs).
      exists before, n, rest. auto.
    + intros pre c post E.
      destruct (observe_all_split _ _ _ _ _ _ Ho E) as (before & after & Hb & Ha).
      apply observe_popped in Ha as (n & rest & Hp & Hf & Hw & Hr & _).
      exists before, n, rest. auto.
Qed.

(** Outside state [work] the two completion signals are ignored. *)
Lemma signals_ignored_outside_work (self : t C) (owners : Owners)
    (sent_bytes : Z) (line : option string) :
  _state self <> work ->
  _handle_write self sent_bytes = Ok (self, [])
  /\ _handle_read invoke self owners line = Ok (self, owners, []).
Proof.
  intros H. unfold _handle_write, _handle_read.
  destruct (_state self); [split; reflexivity | split; reflexivity | congruence].
Qed.

(** ** [clear()] *)

(** C2 (as amended).  In every state [clear()] stops the timer, empties
    the queue, zeroes the unsent-byte counter and leaves the state as it
    is.  When it is called in state [disabled] or [idle], as the program
    does (right after [disable()]), the signals that are delivered
    afterwards (timer shots, write completions, lines read, in any number
    and order) raise nothing and change nothing. *)
Theorem clear_is_safe_outside_work
    (self : t C) (owners : Owners) (done : list (Action C))
    (evs : list (Event C)) :
  let cleared := fst (clear self) in
  (_timer cleared = false
   /\ _command_queue cleared = []
   /\ _unsent_bytes cleared = 0
   /\ _state cleared = _state self)
  /\ (_state self <> work ->
      forallb is_signal evs = true ->
      run_from invoke (cleared, owners) done evs
      = mkOutcome (cleared, owners) done None).
Proof.
  cbn zeta. split; [repeat split; reflexivity|].
  intros Hs. set (cleared := fst (clear self)).
  assert (Hc : _state cleared <> work) by exact Hs.
  assert (Ht : _timer cleared = false) by reflexivity.
  clearbody cleared. revert done.
  induction evs as [|ev evs IH]; intros done Hall; [reflexivity|].
  cbn [forallb] in Hall. apply andb_prop in Hall. destruct Hall as [Hev Hall].
  cbn [run_from].
  assert (E : step invoke (cleared, owners) ev = Ok (cleared, owners, [])).
  { destruct ev as [| | | |is_open|sent_bytes|line]; try discriminate;
      cbn [step].
    - rewrite Ht. reflexivity.
    - rewrite (proj1 (signals_ignored_outside_work cleared owners
                        sent_bytes None Hc)).
      reflexivity.
    - exact (proj2 (signals_ignored_outside_work cleared owners 0 line Hc)). }
  rewrite E, List.app_nil_r. apply IH. exact Hall.
Qed.

(** [clear()] while a command is in flight: the state stays [work], and
    the next line that arrives (ASCII, not blank) makes [_handle_read]
    raise [IndexError] at [self._command_queue[0]].  The program never
    does this: it calls [clear()] after [disable()]. *)
Lemma read_after_clear_in_flight_raises
    (self : t C) (owners : Owners) (raw : string) :
  _state self = work ->
  decode_ascii raw = Ok raw ->
  strip raw <> EmptyString ->
  let cleared := fst (clear self) in
  _timer cleared = false
  /\ _command_queue cleared = []
  /\ _unsent_bytes cleared = 0
  /\ _state cleared = work
  /\ _handle_read invoke cleared owners (Some raw) = Raise IndexError.
Proof.
  intros Est Hdec Hne. cbn zeta. cbn [clear fst].
  repeat (split; [first [reflexivity | assumption]|]).
  unfold _handle_read. cbn [_state set_unsent_bytes set_command_queue set_timer].
  rewrite Est. cbn [State_eqb negb]. rewrite Hdec. cbn [mbind Res_bind Py.bind].
  destruct (strip raw) as [|c r] eqn:E; [congruence|]. reflexivity.
Qed.

End Discipline.

Lemma one_command_in_flight_fifo_witness :
  disciplined
    (trace (run Application.invoke
                (Application.init (SettingsManager.mk None) 600)
                Application.sample_session)) = true.
Proof.
  refine (proj1 (one_command_in_flight_fifo Application.invoke _ _ _)).
  vm_compute. reflexivity.
Defined.

Lemma clear_is_safe_outside_work_witness :
  let owners := Application.init (SettingsManager.mk None) 600 in
  let o := run Application.invoke owners
             [call_enable true; bytesWritten 6; call_disable] in
  let cleared := fst (clear (fst (reached o))) in
  _state (fst (reached o)) = disabled
  /\ _command_queue (fst (reached o)) <> []
  /\ run_from Application.invoke (cleared, snd (reached o)) (trace o)
       [readyRead (Some ("Ack 0" ++ CRLF)%string); bytesWritten 6;
        timeout true; readyRead None]
     = mkOutcome (cleared, snd (reached o)) (trace o) None.
Proof.
  cbn zeta. split; [reflexivity|]. split; [discriminate|].
  refine (proj2 (clear_is_safe_outside_work Application.invoke _ _ _ _) _ _);
    [discriminate | reflexivity].
Defined.

(** C2, the claim as worded fails in state [work]: with the probe written
    and its write completed, [clear()] and then the answer to the probe
    end in [IndexError]. *)
Lemma line_after_clear_in_flight_raises :
  let owners := Application.init (SettingsManager.mk None) 600 in
  let o := run Application.invoke owners
             [call_enable true; bytesWritten 6; call_clear;
              readyRead (Some ("Ack 0" ++ CRLF)%string)] in
  _state (fst (reached o)) = work
  /\ _command_queue (fst (reached o)) = []
  /\ raised o = Some IndexError.
Proof. cbn zeta. split; [|split]; reflexivity. Qed.

(** C1, the claim as worded fails when [clear()] is called while a command
    is in flight: the state stays [work], so the command queued next is
    taken for the one in flight; the answer to the probe is handed to its
    callback and the command is popped although it was never written. *)
Lemma command_queued_after_clear_in_flight_is_popped_unwritten :
  let owners := Application.init (SettingsManager.mk None) 600 in
  let c := mkCommand GameManager.reset_command
                     (Some Callback._process_reset_response) in
  let o := run Application.invoke owners
             [call_enable true; bytesWritten 6; call_clear;
              call_send_command (request c) (callback c);
              readyRead (Some ("Ack 0" ++ CRLF)%string)] in
  raised o = None
  /\ trace o
     = [appended (mkCommand ping None); discarded_input; written ping;
        write_completed; cleared; appended c;
        called_back Callback._process_reset_response "Ack 0";
        read_completed; popped c]
  /\ ~ List.In (written (request c)) (trace o)
  /\ disciplined (trace o) = false.
Proof.
  cbn zeta. split; [reflexivity|]. split; [reflexivity|]. split; [|reflexivity].
  intros H. vm_compute in H. intuition discriminate.
Qed.

Lemma read_after_clear_in_flight_raises_example :
  let self := fst (reached (run Application.invoke
                                (Application.init (SettingsManager.mk None) 600)
                                [call_enable true; bytesWritten 6])) in
  _state self = work
  /\ _handle_read Application.invoke (fst (clear self))
                  (Application.init (SettingsManager.mk None) 600)
                  (Some ("Ack 0" ++ CRLF)%string)
     = Raise IndexError.
Proof.
  cbn zeta. split; [reflexivity|].
  refine (proj2 (proj2 (proj2 (proj2
    (read_after_clear_in_flight_raises Application.invoke _ _ _ _ _ _)))));
    [reflexivity | reflexivity | vm_compute; discriminate].
Defined.

(** ** The transport inside the application *)

Lemma agrees_deliver l (transport : Application.Transport) r :
  agrees l transport ->
  exists l',
    observe_all l (snd (Application.deliver transport r)) = Some l'
    /\ agrees l' (fst (fst (Application.deliver transport r)))
    /\ _state (fst (fst (Application.deliver transport r))) = _state transport.
Proof.
  intros Ha. unfold Application.deliver.
  destruct (agrees_send_all (snd r) l transport Ha) as (l' & Ho & Ha' & Hs & _).
  destruct (send_all transport (snd r)) as [t' out]. eauto.
Qed.

Lemma agrees_application_step l transport o ev transport' o' out :
  agrees l transport ->
  Application.step (transport, o) ev = Ok (transport', o', out) ->
  exists l', observe_all l out = Some l' /\ agrees l' transport'.
Proof.
  intros Ha.
  assert (Hdeliver : forall r,
             Ok (Application.deliver transport r) = Ok (transport', o', out) ->
             exists l', observe_all l out = Some l' /\ agrees l' transport').
  { intros r [= E]. destruct (agrees_deliver l transport r Ha) as (l' & Ho & Ha' & _).
    rewrite E in Ho, Ha'. eauto. }
  destruct ev; cbn [Application.step]; try apply Hdeliver.
  - (* connect *)
    destruct opened; cbn [negb];
      [|intros [= <- <- <-]; exists l; split; [reflexivity | assumption]].
    destruct (enable transport true) as [[t1 out1]|] eqn:E1; cbn; [|discriminate].
    destruct (agrees_enable l _ _ _ _ Ha E1) as (l1 & Ho1 & Ha1).
    destruct (DeviceManager.enable _) as [r|]; cbn; [|discriminate].
    destruct (agrees_deliver l1 t1 (Application.with_device_manager o r) Ha1)
      as (l2 & Ho2 & Ha2 & _).
    destruct (Application.deliver t1 _) as [[t2 o2] out2]. cbn [fst snd] in *.
    destruct (agrees_deliver l2 t2
                (Application.with_game_manager o2
                   (GameManager.enable (Application.game_manager o2)
                      (Application.now o2))) Ha2)
      as (l3 & Ho3 & Ha3 & _).
    destruct (Application.deliver t2 _) as [[t3 o3] out3]. cbn [fst snd] in *.
    intros [= <- <- <-]. exists l3.
    rewrite observe_all_app, Ho1. cbn beta iota.
    rewrite observe_all_app, Ho2. split; assumption.
  - (* disconnect: [clear] comes after [disable] *)
    destruct (agrees_disable l transport Ha) as (l1 & Ho1 & Ha1).
    assert (Hs1 : _state (fst (disable transport)) = disabled) by reflexivity.
    destruct (disable transport) as [t1 out1]. cbn [fst snd] in *.
    match goal with
    | |- context [Application.deliver t1 ?r] =>
        destruct (agrees_deliver l1 t1 r Ha1) as (l2 & Ho2 & Ha2 & Hs2);
        destruct (Application.deliver t1 r) as [[t2 o2] out2]
    end.
    cbn [fst snd] in *.
    destruct (agrees_clear l2 t2 Ha2) as (l3 & Ho3 & Ha3); [congruence|].
    destruct (clear t2) as [t3 out3]. cbn [fst snd] in *.
    intros [= <- <- <-]. exists l3.
    rewrite observe_all_app, Ho1. cbn beta iota.
    rewrite observe_all_app, Ho2. split; assumption.
  - apply (agrees_step Application.invoke l transport o _ _ _ _ Ha). discriminate.
  - apply (agrees_step Application.invoke l transport o _ _ _ _ Ha). discriminate.
  - apply (agrees_step Application.invoke l transport o _ _ _ _ Ha). discriminate.
  - destruct (GameManager._timer _); [apply Hdeliver|].
    intros [= <- <- <-]. exists l. split; [reflexivity | assumption].
  - intros [= <- <- <-]. exists l. split; [reflexivity | assumption].
Qed.

Lemma agrees_application_run evs : forall cfg done l0 l,
  observe_all l0 done = Some l ->
  agrees l (fst cfg) ->
  exists l',
    observe_all l0 (Application.transport_trace (Application.run_from cfg done evs))
    = Some l'.
Proof.
  induction evs as [|ev evs IH]; intros [transport o] done l0 l Ho Ha.
  - exists l. assumption.
  - cbn [Application.run_from fst] in *.
    destruct (Application.step (transport, o) ev) as [[[t1 o1] out]|] eqn:E.
    + destruct (agrees_application_step l _ _ _ _ _ _ Ha E) as (l1 & Ho1 & Ha1).
      apply (IH (t1, o1) (done ++ out) l0 l1); [|assumption].
      rewrite observe_all_app, Ho. assumption.
    + exists l. assumption.
Qed.

(** X1.  In the application, whatever the user, the timers and the serial
    port do, the transport keeps the discipline (one command in flight,
    written from the head of the queue, popped only with both
    completions recorded): [main] only calls [clear()] right after
    [disable()]. *)
Lemma application_keeps_discipline settings_manager game_duration evs :
  disciplined
    (Application.transport_trace (Application.run settings_manager game_duration evs))
  = true.
Proof.
  unfold disciplined, Application.run.
  destruct (agrees_application_run evs
              (init, Application.init settings_manager game_duration)
              [] ledger0 ledger0) as (l' & Ho).
  - reflexivity.
  - unfold agrees. cbn. repeat split; try reflexivity. intros m Hm. lia.
  - rewrite Ho. reflexivity.
Qed.

(** Connecting: the probe is written at once and the first query waits
    behind it. *)
Example connect_writes_probe_and_queues_first_query :
  let '(transport, o, done, raised) :=
    Application.run (SettingsManager.mk None) 600 [Application.click_connect true] in
  raised = None
  /\ _state transport = work
  /\ map request (_command_queue transport)
     = [ping; DeviceManager.get_info_command 1]
  /\ GameManager._state (Application.game_manager o) = GameManager.idle
  /\ done = [appended (mkCommand ping None); discarded_input; written ping;
             appended (mkCommand (DeviceManager.get_info_command 1)
                                 (Some Callback._process_query_response))].
Proof. vm_compute. repeat split; reflexivity. Qed.

(** A late acknowledgment, end to end: the session is idle, [reset_game]
    queues its command, the command is written, the session is disabled,
    and then the answer arrives: the transport hands it to the callback
    and the session is [ready]. *)
Example late_ack_through_the_transport :
  let owners :=
    Application.mkOwners
      (DeviceManager.init (SettingsManager.mk None))
      (fst (GameManager.enable (GameManager.init 600) 0)) 0 [] in
  let before :=
    reached (run Application.invoke owners
               [call_enable true;
                call_send_command GameManager.reset_command
                                  (Some Callback._process_reset_response);
                bytesWritten 6;
                readyRead (Some ("Ack 0" ++ CRLF)%string);
                timeout true;
                bytesWritten 14]) in
  let disabled :=
    fst (Application.with_game_manager
           (snd before)
           (GameManager.disable (Application.game_manager (snd before)) 0)) in
  GameManager._state (Application.game_manager disabled) = GameManager.disabled
  /\ exists self owners' out,
       step Application.invoke (fst before, disabled)
            (readyRead (Some ("Ack 0" ++ CRLF)%string))
       = Ok (self, owners', out)
       /\ GameManager._state (Application.game_manager owners')
          = GameManager.ready.
Proof.
  cbn zeta. split; [reflexivity|].
  eexists _, _, _. split; [vm_compute; reflexivity | reflexivity].
Qed.

(** ** The queue, the timer and the flags, method by method *)

Section Queue.

Context {C Owners : Type}.
Variable invoke :
  C -> string -> Owners -> Res (Owners * list (string * option C)).

Implicit Types (self : t C) (out : list (Action C)).

Lemma ct_run_from_app evs1 : forall (cfg : t C * Owners) done evs2,
  run_from invoke cfg done (evs1 ++ evs2)
  = match raised (run_from invoke cfg done evs1) with
    | None =>
        run_from invoke (reached (run_from invoke cfg done evs1))
                 (trace (run_from invoke cfg done evs1)) evs2
    | Some _ => run_from invoke cfg done evs1
    end.
Proof.
  induction evs1 as [|ev evs1 IH]; intros cfg done evs2; [reflexivity|].
  cbn [app run_from].
  destruct (step invoke cfg ev) as [[[self owners] out]|]; [apply IH | reflexivity].
Qed.

(** What a batch of [send_command] calls does to every attribute. *)
Lemma send_all_fields calls : forall self,
  _command_queue (fst (send_all self calls))
  = _command_queue self ++ map (fun rc => mkCommand (fst rc) (snd rc)) calls
  /\ _state (fst (send_all self calls)) = _state self
  /\ _unsent_bytes (fst (send_all self calls)) = _unsent_bytes self
  /\ _read_complete (fst (send_all self calls)) = _read_complete self
  /\ _write_complete (fst (send_all self calls)) = _write_complete self
  /\ _timer (fst (send_all self calls))
     = _timer self
       || (State_eqb (_state self) idle && negb (length calls =? 0)%nat)
  /\ snd (send_all self calls)
     = map (fun rc => appended (mkCommand (fst rc) (snd rc))) calls.
Proof.
  induction calls as [|[req cb] calls IH]; intros self.
  - cbn. rewrite app_nil_r, andb_false_r, orb_false_r. repeat split; reflexivity.
  - cbn [send_all send_command].
    match goal with
    | |- context [send_all ?s calls] =>
        destruct (IH s) as (Hq & Hs & Hu & Hr & Hw & Ht & Ho);
        destruct (send_all s calls) as [self' out']
    end.
    cbn [fst snd] in *. rewrite Hq, Hs, Hu, Hr, Hw, Ht, Ho. clear.
    destruct self as [q tm u st rc wc].
    destruct st; cbn; rewrite <- ?app_assoc; repeat split; try reflexivity;
      destruct tm; cbn; try reflexivity;
      destruct calls; reflexivity.
Qed.

Lemma tally_appended (cs : list (Command C)) : forall books,
  fold_left tally (map (fun c => appended c) cs) books
  = (fst books ++ cs, snd books).
Proof.
  induction cs as [|c cs IH]; intros [a p]; cbn.
  - rewrite app_nil_r. reflexivity.
  - rewrite IH. cbn. rewrite <- app_assoc. reflexivity.
Qed.

(** The books balance: what was appended is what was popped followed by
    what is still queued. *)
Lemma balanced_step (books : list (Command C) * list (Command C))
    self owners ev self' owners' out :
  fst books = snd books ++ _command_queue self ->
  step invoke (self, owners) ev = Ok (self', owners', out) ->
  fst (fold_left tally out books)
  = snd (fold_left tally out books) ++ _command_queue self'.
Proof.
  intros Hb.
  assert (Hfin : forall (s s' : t C) o,
             _finalize_request s = Ok (s', o) ->
             forall b : list (Command C) * list (Command C),
             fst b = snd b ++ _command_queue s ->
             fst (fold_left tally o b) = snd (fold_left tally o b) ++ _command_queue s').
  { intros s s' o. unfold _finalize_request.
    destruct (State_eqb (_state s) work); cbn [negb];
      [|intros [= <- <-] b Hbb; exact Hbb].
    destruct (_command_queue s) as [|head rest] eqn:Eq; [discriminate|].
    intros [= <- <-] b Hbb. cbn [fold_left tally fst snd].
    rewrite Hbb, <- app_assoc.
    destruct (negb (length rest =? 0)%nat); reflexivity. }
  assert (Hproc : forall (s s' : t C) o b,
             _process_request s b = Ok (s', o) ->
             _command_queue s' = _command_queue s
             /\ forall bk : list (Command C) * list (Command C),
                  fold_left tally o bk = bk).
  { intros s s' o b. unfold _process_request.
    destruct (State_eqb (_state s) idle); cbn [negb];
      [|intros [= <- <-]; split; reflexivity].
    destruct b; cbn [negb]; [|intros [= <- <-]; split; reflexivity].
    destruct (_command_queue s) as [|head rest] eqn:Eq; [discriminate|].
    intros [= <- <-]. split; [exact Eq | reflexivity]. }
  destruct ev as [is_open| | |req cb|is_open|sent_bytes|line]; cbn [step].
  - (* enable *)
    unfold enable.
    destruct (State_eqb (_state self) disabled); cbn [negb];
      [|intros [= <- <- <-]; exact Hb].
    cbn [send_command].
    match goal with
    | |- context [if negb (length (_command_queue ?s) =? 0)%nat then _ else _] =>
        set (s1 := s)
    end.
    destruct (negb (length (_command_queue s1) =? 0)%nat).
    + destruct (_process_request s1 is_open) as [[s2 o2]|] eqn:E; cbn; [|discriminate].
      destruct (Hproc _ _ _ _ E) as [Hq Ht].
      intros [= <- <- <-]. cbn [app fold_left tally]. rewrite Ht, Hq.
      cbn [fst snd]. rewrite Hb, <- app_assoc.
      subst s1. cbn. rewrite <- ?app_assoc. reflexivity.
    + cbn. intros [= <- <- <-]. cbn [fold_left tally fst snd].
      rewrite Hb, <- app_assoc.
      subst s1. cbn. rewrite <- ?app_assoc. reflexivity.
  - (* disable *)
    cbn. intros [= <- <- <-]. exact Hb.
  - (* clear *)
    cbn. intros [= <- <- <-]. reflexivity.
  - (* send_command *)
    cbn. intros [= <- <- <-]. cbn [fold_left tally fst snd].
    rewrite Hb, <- app_assoc.
    destruct (State_eqb (_state self) idle); reflexivity.
  - (* timeout *)
    destruct (_timer self).
    + destruct (_process_request _ is_open) as [[s2 o2]|] eqn:E; cbn; [|discriminate].
      destruct (Hproc _ _ _ _ E) as [Hq Ht].
      intros [= <- <- <-]. rewrite Ht, Hq. exact Hb.
    + intros [= <- <- <-]. exact Hb.
  - (* bytesWritten *)
    unfold _handle_write.
    destruct (State_eqb (_state self) work); cbn [negb];
      [|cbn; intros [= <- <- <-]; exact Hb].
    cbn [_unsent_bytes set_unsent_bytes].
    destruct (_unsent_bytes self - sent_bytes =? 0);
      [|cbn; intros [= <- <- <-]; exact Hb].
    cbn [_read_complete set_write_complete set_unsent_bytes].
    destruct (_read_complete self); [|cbn; intros [= <- <- <-]; exact Hb].
    match goal with
    | |- context [_finalize_request ?s] =>
        destruct (_finalize_request s) as [[s2 o2]|] eqn:E; cbn; [|discriminate];
        pose proof (Hfin _ _ _ E books Hb) as Hf
    end.
    intros [= <- <- <-]. exact Hf.
  - (* readyRead *)
    unfold _handle_read.
    destruct (State_eqb (_state self) work); cbn [negb];
      [|intros [= <- <- <-]; exact Hb].
    destruct line as [raw|]; [|intros [= <- <- <-]; exact Hb].
    destruct (decode_ascii raw) as [response|]; cbn [mbind Res_bind Py.bind];
      [|discriminate].
    destruct (negb (String.length (strip response) =? 0)%nat);
      [|intros [= <- <- <-]; exact Hb].
    destruct (_command_queue self) as [|head rest] eqn:Eq;
      cbn [mbind Res_bind Py.bind]; [discriminate|].
    assert (Hrest : forall (s : t C) o (bk : list (Command C) * list (Command C)),
               fst bk = snd bk ++ _command_queue s ->
               (if _write_complete (set_read_complete true s)
                then '(s2, o2) ← _finalize_request (set_read_complete true s);
                     Ok (s2, owners', o ++ read_completed :: o2)
                else Ok (set_read_complete true s, owners', o ++ [read_completed]))
               = Ok (self', owners', out) ->
               forall b0, fold_left tally o b0 = bk ->
               fst (fold_left tally out b0)
               = snd (fold_left tally out b0) ++ _command_queue self').
    { intros s o bk Hbk.
      destruct (_write_complete (set_read_complete true s)).
      - destruct (_finalize_request (set_read_complete true s))
          as [[s2 o2]|] eqn:E; cbn; [|discriminate].
        intros [= <- <-] b0 Hb0. rewrite fold_left_app, Hb0. cbn [fold_left tally].
        apply (Hfin _ _ _ E). exact Hbk.
      - intros [= <- <-] b0 Hb0. rewrite fold_left_app, Hb0. exact Hbk. }
    destruct (callback head) as [cb|].
    + destruct (invoke cb (strip response) owners) as [[o1 calls]|];
        cbn [mbind Res_bind Py.bind]; [|discriminate].
      destruct (send_all_fields calls self) as (Hq & _ & _ & _ & _ & _ & Ho).
      destruct (send_all self calls) as [s1 out1]. cbn [fst snd] in Hq, Ho.
      cbn [mbind Res_bind Py.bind].
      intros H.
      assert (o1 = owners') as ->.
      { destruct (_write_complete (set_read_complete true s1));
          [destruct (_finalize_request _) as [[? ?]|]; cbn in H|];
          congruence. }
      apply (Hrest s1 (called_back cb (strip response) :: out1)
                   (fst books ++ map (fun rc => mkCommand (fst rc) (snd rc)) calls,
                    snd books)); [| exact H |].
      * cbn [fst snd]. rewrite Hq, Hb, Eq, <- app_assoc. reflexivity.
      * cbn [fold_left tally]. rewrite Ho.
        rewrite <- (map_map (fun rc => mkCommand (fst rc) (snd rc))
                            (fun c => appended c)).
        apply tally_appended.
    + cbn [mbind Res_bind Py.bind]. intros H.
      assert (owners = owners') as <-.
      { destruct (_write_complete (set_read_complete true self));
          [destruct (_finalize_request _) as [[? ?]|]; cbn in H|];
          congruence. }
      rewrite <- Eq in Hb. apply (Hrest self [] books Hb H). reflexivity.
Qed.

Lemma balanced_run evs : forall (cfg : t C * Owners) done,
  fst (tally_all done) = snd (tally_all done) ++ _command_queue (fst cfg) ->
  let o := run_from invoke cfg done evs in
  fst (tally_all (trace o))
  = snd (tally_all (trace o)) ++ _command_queue (fst (reached o)).
Proof.
  induction evs as [|ev evs IH]; intros [self owners] done Hb; [exact Hb|].
  cbn [run_from].
  destruct (step invoke (self, owners) ev) as [[[s1 o1] out]|] eqn:E; [|exact Hb].
  apply IH. unfold tally_all. rewrite fold_left_app. cbn [fst].
  exact (balanced_step _ _ _ _ _ _ _ Hb E).
Qed.

(** X2.  Nothing is lost, duplicated or reordered on the way through the
    queue: in every run, the commands appended since the last [clear()],
    in order, are the commands popped since then, in order, followed by
    the queue as it stands.  Callbacks that send, exceptions, [disable()]
    and a closed port change nothing to it. *)
Theorem queue_is_conserved (owners : Owners) (evs : list (Event C)) :
  let o := run invoke owners evs in
  fst (tally_all (trace o))
  = snd (tally_all (trace o)) ++ _command_queue (fst (reached o)).
Proof. apply balanced_run. reflexivity. Qed.

(** ** A command that gets no answer *)

Lemma unanswered_step self owners ev :
  _state self = work ->
  _read_complete self = false ->
  unanswered ev = true ->
  exists self' out more,
    step invoke (self, owners) ev = Ok (self', owners, out)
    /\ _state self' = work
    /\ _read_complete self' = false
    /\ _command_queue self' = _command_queue self ++ more
    /\ existsb progress out = false.
Proof.
  intros Hs Hr Hu.
  destruct ev as [is_open| | |req cb|is_open|sent_bytes|line];
    cbn [unanswered] in Hu; try discriminate; cbn [step].
  - unfold enable. rewrite Hs. cbn.
    exists self, [], []. rewrite app_nil_r. auto.
  - cbn. rewrite Hs. cbn.
    eexists _, _, [mkCommand req cb]. repeat split; [exact Hs | exact Hr].
  - destruct (_timer self).
    + unfold _process_request. cbn [_state set_timer]. rewrite Hs. cbn.
      eexists _, _, []. rewrite app_nil_r. repeat split; [exact Hs | exact Hr].
    + exists self, [], []. rewrite app_nil_r. auto.
  - unfold _handle_write. rewrite Hs. cbn [State_eqb negb].
    cbn [_unsent_bytes set_unsent_bytes].
    destruct (_unsent_bytes self - sent_bytes =? 0).
    + cbn [_read_complete set_write_complete set_unsent_bytes]. rewrite Hr. cbn.
      eexists _, _, []. rewrite app_nil_r. repeat split; [exact Hs | exact Hr].
    + cbn. eexists _, _, []. rewrite app_nil_r.
      repeat split; [exact Hs | exact Hr].
  - unfold _handle_read. rewrite Hs. cbn [State_eqb negb].
    destruct line as [raw|]; cbn [blank] in Hu.
    + destruct (decode_ascii raw) as [response|]; [|discriminate].
      cbn [mbind Res_bind Py.bind]. rewrite Hu. cbn [negb].
      exists self, [], []. rewrite app_nil_r. auto.
    + exists self, [], []. rewrite app_nil_r. auto.
Qed.

(** X4.  There is no timeout on an answer.  While a command is in
    flight and no answer to it has been recorded, nothing but a line
    that is not blank (or [disable()], [clear()]) moves the transport:
    after any number of [send_command] and [enable] calls, delay-timer
    shots, [bytesWritten] signals and [readyRead] signals without a line
    or with a blank one, no exception was raised, the state is still
    [work], the queue only grew at its tail, the owners are untouched,
    and nothing was written, called back, recorded as read or popped. *)
Theorem unanswered_command_stays_in_flight
    (self : t C) (owners : Owners) (done : list (Action C))
    (evs : list (Event C)) :
  _state self = work ->
  _read_complete self = false ->
  forallb unanswered evs = true ->
  let o := run_from invoke (self, owners) done evs in
  raised o = None
  /\ _state (fst (reached o)) = work
  /\ snd (reached o) = owners
  /\ (exists more,
        _command_queue (fst (reached o)) = _command_queue self ++ more)
  /\ exists new, trace o = done ++ new /\ existsb progress new = false.
Proof.
  revert self done. induction evs as [|ev evs IH]; intros self done Hs Hr Hu.
  - cbn. repeat split; [exact Hs | exists []; apply eq_sym, app_nil_r |].
    exists []. split; [apply eq_sym, app_nil_r | reflexivity].
  - cbn [forallb] in Hu. apply andb_prop in Hu as [Hu Hus].
    destruct (unanswered_step self owners ev Hs Hr Hu)
      as (self' & out & more & E & Hs' & Hr' & Hq & Hp).
    cbn [run_from]. rewrite E.
    destruct (IH self' (done ++ out) Hs' Hr' Hus)
      as (Hn & Hw & Ho & (more' & Hq') & (new & Ht & Hp')).
    cbn zeta. repeat split; [exact Hn | exact Hw | exact Ho | |].
    + exists (more ++ more'). rewrite Hq', Hq, app_assoc. reflexivity.
    + exists (out ++ new). rewrite Ht, app_assoc. split; [reflexivity|].
      rewrite existsb_app, Hp, Hp'. reflexivity.
Qed.

(** ** Writes that complete in pieces *)

Lemma sum_firstn_lt (chunks : list Z) : forall k,
  Forall (fun n => 0 < n) chunks ->
  (k < length chunks)%nat ->
  fold_right Z.add 0 (firstn k chunks) < fold_right Z.add 0 chunks.
Proof.
  induction chunks as [|n chunks IH]; intros k Hpos Hk; [cbn in Hk; lia|].
  apply Forall_cons_iff in Hpos as [Hn Hpos].
  assert (Hge : 0 <= fold_right Z.add 0 chunks).
  { clear -Hpos. induction Hpos; cbn; lia. }
  destruct k as [|k]; cbn [firstn fold_right]; [lia|].
  cbn [length] in Hk. specialize (IH k Hpos ltac:(lia)). lia.
Qed.

Lemma partial_writes (chunks : list Z) : forall self owners done,
  _state self = work ->
  _write_complete self = false ->
  Forall (fun n => 0 < n) chunks ->
  fold_right Z.add 0 chunks < _unsent_bytes self ->
  let o := run_from invoke (self, owners) done (map (@bytesWritten C) chunks) in
  raised o = None
  /\ trace o = done
  /\ reached o
     = (set_unsent_bytes (_unsent_bytes self - fold_right Z.add 0 chunks) self,
        owners).
Proof.
  induction chunks as [|n chunks IH]; intros self owners done Hs Hw Hpos Hlt.
  - cbn. rewrite Z.sub_0_r. destruct self; repeat split; reflexivity.
  - apply Forall_cons_iff in Hpos as [Hn Hpos].
    assert (Hge : 0 <= fold_right Z.add 0 chunks).
    { clear -Hpos. induction Hpos; cbn; lia. }
    cbn [fold_right] in Hlt.
    cbn [map run_from step]. unfold _handle_write. rewrite Hs.
    cbn [State_eqb negb _unsent_bytes set_unsent_bytes].
    destruct (Z.eqb_spec (_unsent_bytes self - n) 0) as [E|_]; [lia|].
    cbn [mbind Res_bind Py.bind]. rewrite app_nil_r.
    destruct (IH (set_unsent_bytes (_unsent_bytes self - n) self) owners done)
      as (Hr & Ht & Hre); [exact Hs | exact Hw | exact Hpos | cbn; lia |].
    cbn zeta in *. rewrite Hr, Ht, Hre. repeat split.
    cbn [fold_right]. unfold set_unsent_bytes. cbn. do 2 f_equal. lia.
Qed.

(** X5.  [_handle_write] counts the bytes down and completes the write
    exactly when the count reaches zero.  When the request leaves the
    port in pieces, each [bytesWritten] reporting a positive number of
    bytes and all of them together the length that was written, the
    write is not complete after any proper part of the signals and is
    complete after the last one; with the answer still outstanding the
    command stays in flight. *)
Theorem write_completes_with_the_last_chunk
    (self : t C) (owners : Owners) (done : list (Action C)) (chunks : list Z) :
  _state self = work ->
  _read_complete self = false ->
  _write_complete self = false ->
  0 < _unsent_bytes self ->
  Forall (fun n => 0 < n) chunks ->
  fold_right Z.add 0 chunks = _unsent_bytes self ->
  (forall k, (k < length chunks)%nat ->
     let o := run_from invoke (self, owners) done
                       (map (@bytesWritten C) (firstn k chunks)) in
     raised o = None
     /\ _write_complete (fst (reached o)) = false
     /\ trace o = done)
  /\ let o := run_from invoke (self, owners) done (map (@bytesWritten C) chunks) in
     raised o = None
     /\ _write_complete (fst (reached o)) = true
     /\ _unsent_bytes (fst (reached o)) = 0
     /\ _state (fst (reached o)) = work
     /\ trace o = done ++ [write_completed].
Proof.
  intros Hs Hr Hw Hu Hpos Hsum. split.
  - intros k Hk.
    destruct (partial_writes (firstn k chunks) self owners done Hs Hw)
      as (Hn & Ht & Hre).
    + apply Forall_take. exact Hpos.
    + rewrite <- Hsum. apply sum_firstn_lt; assumption.
    + cbn zeta in *. rewrite Hn, Ht, Hre. repeat split. exact Hw.
  - destruct chunks as [|c0 chunks0] eqn:Ec; [cbn in Hsum; lia|].
    assert (Hne : c0 :: chunks0 <> []) by discriminate.
    destruct (exists_last Hne) as (front & [last Efl]). rewrite Efl in *.
    clear Ec Hne Efl c0 chunks0.
    apply Forall_app in Hpos as [Hfront Hlast].
    apply Forall_cons_iff in Hlast as [Hlast _].
    assert (Hsum' : fold_right Z.add 0 front + last = _unsent_bytes self).
    { rewrite <- Hsum. clear. induction front; cbn; lia. }
    destruct (partial_writes front self owners done Hs Hw Hfront)
      as (Hn & Ht & Hre); [lia|].
    cbn zeta in *. rewrite map_app, ct_run_from_app, Hn, Ht, Hre.
    cbn [map run_from step]. unfold _handle_write.
    cbn [_state set_unsent_bytes]. rewrite Hs.
    cbn [State_eqb negb _unsent_bytes set_unsent_bytes].
    destruct (Z.eqb_spec (_unsent_bytes self - fold_right Z.add 0 front - last) 0)
      as [E|E]; [|lia].
    cbn [_read_complete set_write_complete set_unsent_bytes]. rewrite Hr.
    cbn. repeat split; [exact E | exact Hs].
Qed.

(** ** The delay timer that [enable()] leaves running *)

(** X6.  [enable()] queues the probe through [send_command], which
    starts the delay timer because the state is already [idle], and then
    writes the probe itself; nothing stops the timer.  On a transport
    with an empty queue, when the probe is written and answered before
    the timer fires, the shot finds state [idle] and an empty queue, and
    [_process_request] raises [IndexError] at [self._command_queue[0]]. *)
Theorem probe_answered_before_the_delay_raises
    (self : t C) (owners : Owners) (done : list (Action C)) (raw : string) :
  _state self = disabled ->
  _command_queue self = [] ->
  decode_ascii raw = Ok raw ->
  strip raw <> EmptyString ->
  let o := run_from invoke (self, owners) done
             [call_enable true; bytesWritten 6; readyRead (Some raw)] in
  raised o = None
  /\ _state (fst (reached o)) = idle
  /\ _command_queue (fst (reached o)) = []
  /\ _timer (fst (reached o)) = true
  /\ step invoke (reached o) (timeout true) = Raise IndexError.
Proof.
  intros Hs Hq Hdec Hne. destruct self as [q tm u st rc wc].
  cbn in Hs, Hq. subst q st. cbn zeta.
  change [call_enable true; bytesWritten 6; readyRead (Some raw)]
    with ([call_enable true; bytesWritten 6] ++ [readyRead (C := C) (Some raw)]).
  rewrite ct_run_from_app.
  assert (E : run_from invoke (mk [] tm u disabled rc wc, owners) done
                       [call_enable true; bytesWritten 6]
              = mkOutcome
                  (mk [mkCommand ping None] true 0 work false true, owners)
                  ((done ++ [appended (mkCommand ping None); discarded_input;
                             written ping]) ++ [write_completed])
                  None) by reflexivity.
  rewrite E. cbn [raised reached trace run_from step]. unfold _handle_read.
  cbn [_state State_eqb negb]. rewrite Hdec. cbn [mbind Res_bind Py.bind].
  destruct (strip raw) as [|c r] eqn:Es; [congruence|].
  repeat split; reflexivity.
Qed.

(** ** A command in flight when the transport is disabled *)

(** X7.  [disable()] keeps the queue, and [_process_request] always
    writes the head.  So after [disable()] and [enable()] the command
    that was at the head of the queue, written before or not, is
    written (again), with both completion flags cleared and the byte
    count set to its length; the new probe waits at the tail. *)
Theorem head_is_written_again_after_disable_enable
    (self : t C) (head : Command C) (rest : list (Command C)) :
  _command_queue self = head :: rest ->
  exists self',
    enable (fst (disable self)) true
    = Ok (self', [appended (mkCommand ping None); discarded_input;
                  written (request head)])
    /\ _command_queue self' = head :: rest ++ [mkCommand ping None]
    /\ _state self' = work
    /\ _unsent_bytes self' = Z.of_nat (String.length (request head))
    /\ _read_complete self' = false
    /\ _write_complete self' = false.
Proof.
  intros Hq. destruct self as [q tm u st rc wc]. cbn in Hq. subst q.
  eexists. cbn. repeat split.
Qed.

(** ** Two lines for one command *)

(** X8.  [_handle_read] does not look at [_read_complete].  While the
    write of the command in flight is not complete, every line that is
    not blank is handed to the command's callback: a second line before
    the [bytesWritten] signal runs the callback a second time, and what
    both calls send is queued. *)
Theorem second_line_before_write_completion_calls_back_again
    (self : t C) (owners owners1 owners2 : Owners) (raw1 raw2 : string)
    (head : Command C) (rest : list (Command C)) (cb : C)
    (calls1 calls2 : list (string * option C)) :
  _state self = work ->
  _write_complete self = false ->
  _command_queue self = head :: rest ->
  callback head = Some cb ->
  decode_ascii raw1 = Ok raw1 -> strip raw1 <> EmptyString ->
  decode_ascii raw2 = Ok raw2 -> strip raw2 <> EmptyString ->
  invoke cb (strip raw1) owners = Ok (owners1, calls1) ->
  invoke cb (strip raw2) owners1 = Ok (owners2, calls2) ->
  let o := run_from invoke (self, owners) []
             [readyRead (Some raw1); readyRead (Some raw2)] in
  raised o = None
  /\ snd (reached o) = owners2
  /\ _state (fst (reached o)) = work
  /\ _command_queue (fst (reached o))
     = head :: rest
       ++ map (fun rc => mkCommand (fst rc) (snd rc)) (calls1 ++ calls2)
  /\ trace o
     = called_back cb (strip raw1)
       :: map (fun rc => appended (mkCommand (fst rc) (snd rc))) calls1
       ++ read_completed
       :: called_back cb (strip raw2)
       :: map (fun rc => appended (mkCommand (fst rc) (snd rc))) calls2
       ++ [read_completed].
Proof.
  intros Hs Hw Hq Hcb Hd1 Hn1 Hd2 Hn2 Hi1 Hi2.
  assert (Hread : forall (s : t C) o o' raw calls,
             _state s = work -> _write_complete s = false ->
             (exists tl, _command_queue s = head :: tl) ->
             decode_ascii raw = Ok raw -> strip raw <> EmptyString ->
             invoke cb (strip raw) o = Ok (o', calls) ->
             _handle_read invoke s o (Some raw)
             = Ok (set_read_complete true (fst (send_all s calls)), o',
                   called_back cb (strip raw)
                   :: map (fun rc => appended (mkCommand (fst rc) (snd rc))) calls
                   ++ [read_completed])).
  { intros s o o' raw calls Hs' Hw' [tl Hq'] Hd Hn Hi.
    unfold _handle_read. rewrite Hs'. cbn [State_eqb negb]. rewrite Hd.
    cbn [mbind Res_bind Py.bind].
    destruct (strip raw) as [|c r] eqn:E; [congruence|].
    cbn [String.length Nat.eqb negb]. rewrite Hq'. cbn [mbind Res_bind Py.bind].
    rewrite Hcb, Hi. cbn [mbind Res_bind Py.bind].
    destruct (send_all_fields calls s) as (_ & _ & _ & _ & Hwc & _ & Ho).
    destruct (send_all s calls) as [s1 out1]. cbn [fst snd] in *.
    cbn [mbind Res_bind Py.bind _write_complete set_read_complete].
    rewrite Hwc, Hw', Ho. reflexivity. }
  cbn [run_from step].
  rewrite (Hread self owners owners1 raw1 calls1 Hs Hw (ex_intro _ rest Hq) Hd1 Hn1 Hi1).
  destruct (send_all_fields calls1 self) as (Hq1 & Hs1 & _ & _ & Hw1 & _ & _).
  rewrite (Hread _ owners1 owners2 raw2 calls2); [| | | | exact Hd2 | exact Hn2 | exact Hi2].
  - cbn [reached raised trace fst snd app].
    destruct (send_all_fields calls2
                (set_read_complete true (fst (send_all self calls1))))
      as (Hq2 & Hs2 & _ & _ & _ & _ & _).
    cbn [_state _command_queue set_read_complete] in *.
    repeat split.
    + rewrite Hs2, Hs1. exact Hs.
    + rewrite Hq2, Hq1, Hq, map_app. cbn. rewrite <- app_assoc. reflexivity.
    + cbn. rewrite <- app_assoc. reflexivity.
  - cbn. rewrite Hs1. exact Hs.
  - cbn. rewrite Hw1. exact Hw.
  - exists (rest ++ map (fun rc => mkCommand (fst rc) (snd rc)) calls1).
    cbn. rewrite Hq1, Hq. reflexivity.
Qed.

End Queue.

Lemma unanswered_command_stays_in_flight_witness :
  let owners := Application.init (SettingsManager.mk None) 600 in
  let self := fst (reached (run Application.invoke owners [call_enable true])) in
  raised (run_from Application.invoke (self, owners) []
            [timeout true; bytesWritten 6; readyRead None;
             readyRead (Some CRLF);
             call_send_command (DeviceManager.get_info_command 1) None])
  = None.
Proof.
  cbn zeta.
  refine (proj1 (unanswered_command_stays_in_flight
                   Application.invoke _ _ _ _ _ _ _)); reflexivity.
Defined.

Lemma write_completes_with_the_last_chunk_witness :
  let owners := Application.init (SettingsManager.mk None) 600 in
  let self := fst (reached (run Application.invoke owners [call_enable true])) in
  let o := run_from Application.invoke (self, owners) []
             (map (@bytesWritten Callback.t) [2; 4]) in
  raised o = None
  /\ _write_complete (fst (reached o)) = true
  /\ _unsent_bytes (fst (reached o)) = 0
  /\ _state (fst (reached o)) = work
  /\ trace o = [] ++ [write_completed].
Proof.
  cbn zeta.
  refine (proj2 (write_completes_with_the_last_chunk
                   Application.invoke _ _ _ [2; 4] _ _ _ _ _ _));
    try reflexivity.
  repeat constructor.
Defined.

Lemma probe_answered_before_the_delay_raises_witness :
  let owners := Application.init (SettingsManager.mk None) 600 in
  let o := run_from Application.invoke (init, owners) []
             [call_enable true; bytesWritten 6;
              readyRead (Some ("Ack 0" ++ CRLF)%string)] in
  step Application.invoke (reached o) (timeout true) = Raise IndexError.
Proof.
  cbn zeta.
  refine (proj2 (proj2 (proj2 (proj2
    (probe_answered_before_the_delay_raises Application.invoke _ _ _ _ _ _ _ _)))));
    [reflexivity | reflexivity | reflexivity | vm_compute; discriminate].
Defined.

Lemma head_is_written_again_after_disable_enable_witness :
  let owners := Application.init (SettingsManager.mk None) 600 in
  let self :=
    fst (reached (run Application.invoke owners
                      [call_send_command (DeviceManager.get_info_command 1)
                                         (Some Callback._process_query_response);
                       call_enable true])) in
  exists self',
    enable (fst (disable self)) true
    = Ok (self', [appended (mkCommand ping None); discarded_input;
                  written (DeviceManager.get_info_command 1)]).
Proof.
  cbn zeta.
  destruct (head_is_written_again_after_disable_enable
              (fst (reached
                      (run Application.invoke
                           (Application.init (SettingsManager.mk None) 600)
                           [call_send_command (DeviceManager.get_info_command 1)
                              (Some Callback._process_query_response);
                            call_enable true])))
              (mkCommand (DeviceManager.get_info_command 1)
                         (Some Callback._process_query_response))
              [mkCommand ping None] eq_refl) as (self' & E & _).
  exists self'. exact E.
Defined.

Lemma second_line_before_write_completion_calls_back_again_witness :
  let owners := Application.init (SettingsManager.mk None) 600 in
  let before :=
    reached (run Application.invoke owners
               [call_enable true;
                call_send_command (DeviceManager.get_info_command 1)
                                  (Some Callback._process_query_response);
                bytesWritten 6;
                readyRead (Some ("Ack 0" ++ CRLF)%string);
                timeout true]) in
  let o := run_from Application.invoke before []
             [readyRead (Some ("Ack 2" ++ CRLF)%string);
              readyRead (Some ("Ack 2" ++ CRLF)%string)] in
  raised o = None
  /\ DeviceManager._current_device (Application.device_manager (snd (reached o)))
     = 3.
Proof.
  cbn zeta.
  pose proof
    (second_line_before_write_completion_calls_back_again
       Application.invoke
       (fst (reached (run Application.invoke
                          (Application.init (SettingsManager.mk None) 600)
                          [call_enable true;
                           call_send_command (DeviceManager.get_info_command 1)
                             (Some Callback._process_query_response);
                           bytesWritten 6;
                           readyRead (Some ("Ack 0" ++ CRLF)%string);
                           timeout true])))
       (Application.init (SettingsManager.mk None) 600)
       _ _
       ("Ack 2" ++ CRLF)%string ("Ack 2" ++ CRLF)%string
       _ _ Callback._process_query_response _ _
       eq_refl eq_refl eq_refl eq_refl
       eq_refl ltac:(vm_compute; discriminate)
       eq_refl ltac:(vm_compute; discriminate)
       eq_refl eq_refl) as H.
  cbn zeta in H. destruct H as (Hn & Ho & _).
  split; [exact Hn|]. 
  change (snd (reached (run_from Application.invoke _ [] _)))
    with (snd (reached (run_from Application.invoke
      (reached (run Application.invoke
                          (Application.init (SettingsManager.mk None) 600)
                          [call_enable true;
                           call_send_command (DeviceManager.get_info_command 1)
                             (Some Callback._process_query_response);
                           bytesWritten 6;
                           readyRead (Some ("Ack 0" ++ CRLF)%string);
                           timeout true])) []
             [readyRead (Some ("Ack 2" ++ CRLF)%string);
              readyRead (Some ("Ack 2" ++ CRLF)%string)]))).
  reflexivity.
Defined.

(** ** The queue is never found empty in the application *)

Lemma invoke_raises cb response o e :
  Application.invoke cb response o = Raise e -> e = KeyError.
Proof.
  destruct cb; cbn [Application.invoke]; try discriminate.
  destruct (DeviceManager._process_query_response _ _) eqn:E; cbn; [discriminate|].
  intros [= <-]. exact (DeviceManagerFacts._process_query_response_raises _ _ _ E).
Qed.

Ltac leb_lia :=
  repeat match goal with
         | H : (_ <=? _)%nat = true |- _ => apply Nat.leb_le in H
         | H : _ && _ = true |- _ => apply andb_prop in H as [? ?]
         | |- (_ <=? _)%nat = true => apply Nat.leb_le
         | |- _ && _ = true => apply andb_true_intro; split
         end;
  cbn [length] in *; try assumption; try reflexivity; try discriminate; try lia.

Lemma primed_owners (t : Application.Transport) o o' :
  (_state t = disabled ->
   DeviceManager._enabled (Application.device_manager o')
   = DeviceManager._enabled (Application.device_manager o)) ->
  Application.primed t o' = Application.primed t o.
Proof.
  unfold Application.primed.
  destruct (_state t); [intros H; rewrite (H eq_refl)| |]; reflexivity.
Qed.

Lemma primed_send_all (t : Application.Transport) calls o :
  Application.primed t o = true ->
  Application.primed (fst (send_all t calls)) o = true.
Proof.
  destruct (send_all_fields calls t) as (Hq & Hs & _ & _ & _ & Ht & _).
  unfold Application.primed. rewrite Hq, Hs, Ht, List.length_app, List.length_map.
  destruct (_state t), (_timer t), calls as [|c calls];
    cbn [State_eqb andb orb negb length Nat.eqb];
    try destruct (DeviceManager._enabled _); intros H; leb_lia.
Qed.

Lemma deliver_eq (t : Application.Transport) r :
  Application.deliver t r
  = (fst (send_all t (snd r)), fst r, snd (send_all t (snd r))).
Proof.
  unfold Application.deliver. destruct (send_all t (snd r)). reflexivity.
Qed.

Lemma primed_deliver (t : Application.Transport) o r :
  Application.primed t o = true ->
  (_state t = disabled ->
   DeviceManager._enabled (Application.device_manager (fst r))
   = DeviceManager._enabled (Application.device_manager o)) ->
  Application.primed (fst (fst (Application.deliver t r)))
                     (snd (fst (Application.deliver t r))) = true
  /\ _state (fst (fst (Application.deliver t r))) = _state t
  /\ snd (fst (Application.deliver t r)) = fst r.
Proof.
  intros Hp He. unfold Application.deliver.
  pose proof (primed_send_all t (snd r) o Hp) as H.
  destruct (send_all_fields (snd r) t) as (_ & Hs & _).
  destruct (send_all t (snd r)) as [t' out]. cbn [fst snd] in *.
  split; [|split; [exact Hs | reflexivity]].
  transitivity (Application.primed t' o); [|exact H].
  apply primed_owners. rewrite Hs. exact He.
Qed.

Lemma primed_finalize (t : Application.Transport) o :
  Application.primed t o = true ->
  _state t = work ->
  exists t' out,
    _finalize_request t = Ok (t', out)
    /\ forall o', Application.primed t' o' = true.
Proof.
  destruct t as [q tm u st rc wc]. unfold Application.primed. cbn.
  intros H ->. cbn in H.
  destruct q as [|h [|h2 q]]; destruct tm; cbn in H; try discriminate H;
    (eexists _, _; split; [reflexivity|]); intros o'; reflexivity.
Qed.

Lemma primed_timeout (t : Application.Transport) o is_open :
  Application.primed t o = true ->
  match step Application.invoke (t, o) (timeout is_open) with
  | Ok (t', o', _) => Application.primed t' o' = true
  | Raise e => e <> IndexError
  end.
Proof.
  destruct t as [q tm u st rc wc]. unfold Application.primed.
  cbn [step _timer _state _command_queue].
  destruct tm; [|intros H; exact H].
  destruct st, is_open, q as [|h [|h2 q]]; cbn;
    try destruct (DeviceManager._enabled _); cbn; intros H;
    first [discriminate H | reflexivity | exact H | discriminate].
Qed.

Lemma primed_bytesWritten (t : Application.Transport) o sent_bytes :
  Application.primed t o = true ->
  match step Application.invoke (t, o) (bytesWritten sent_bytes) with
  | Ok (t', o', _) => Application.primed t' o' = true
  | Raise e => e <> IndexError
  end.
Proof.
  intros Hp. cbn [step]. unfold _handle_write.
  destruct (State_eqb (_state t) work) eqn:Es; cbn [negb];
    [|cbn; exact Hp].
  assert (Hw : _state t = work) by (destruct (_state t); [discriminate.. | reflexivity]).
  cbn [_unsent_bytes set_unsent_bytes].
  destruct (_unsent_bytes t - sent_bytes =? 0); [|cbn; exact Hp].
  cbn [_read_complete set_write_complete set_unsent_bytes].
  destruct (_read_complete t); [|cbn; exact Hp].
  destruct (primed_finalize
              (set_write_complete true (set_unsent_bytes (_unsent_bytes t - sent_bytes) t))
              o Hp Hw) as (t' & out & E & H).
  rewrite E. cbn. apply H.
Qed.

Lemma primed_readyRead (t : Application.Transport) o line :
  Application.primed t o = true ->
  match step Application.invoke (t, o) (readyRead line) with
  | Ok (t', o', _) => Application.primed t' o' = true
  | Raise e => e <> IndexError
  end.
Proof.
  intros Hp. cbn [step]. unfold _handle_read.
  destruct (State_eqb (_state t) work) eqn:Es; cbn [negb]; [|exact Hp].
  assert (Hw : _state t = work) by (destruct (_state t); [discriminate.. | reflexivity]).
  destruct line as [raw|]; [|exact Hp].
  destruct (decode_ascii raw) as [response|] eqn:Ed;
    cbn [mbind Res_bind Py.bind];
    [|unfold decode_ascii in Ed; destruct (all_chars _ raw); congruence].
  destruct (negb (String.length (strip response) =? 0)%nat); [|exact Hp].
  destruct (_command_queue t) as [|head rest] eqn:Eq.
  { exfalso. revert Hp. unfold Application.primed. rewrite Hw, Eq.
    destruct (_timer t); discriminate. }
  cbn [mbind Res_bind Py.bind].
  assert (Hrest : forall (t1 : Application.Transport) o1 out1,
             Application.primed t1 o = true -> _state t1 = work ->
             match
               (if _write_complete (set_read_complete true t1)
                then '(t2, out') ← _finalize_request (set_read_complete true t1);
                     Ok (t2, o1, out1 ++ read_completed :: out')
                else Ok (set_read_complete true t1, o1, out1 ++ [read_completed]))
             with
             | Ok (t', o', _) => Application.primed t' o' = true
             | Raise e => e <> IndexError
             end).
  { intros t1 o1 out1 Hp1 Hw1.
    assert (Hp2 : Application.primed (set_read_complete true t1) o1 = true).
    { transitivity (Application.primed t1 o); [|exact Hp1].
      unfold Application.primed. cbn. rewrite Hw1. reflexivity. }
    destruct (_write_complete (set_read_complete true t1)); [|exact Hp2].
    destruct (primed_finalize _ o1 Hp2 Hw1) as (t' & out & E & H).
    rewrite E. cbn. apply H. }
  destruct (callback head) as [cb|].
  - destruct (Application.invoke cb (strip response) o) as [[o1 calls]|e] eqn:Ei;
      cbn [mbind Res_bind Py.bind].
    + pose proof (primed_send_all t calls o Hp) as Hp1.
      destruct (send_all_fields calls t) as (_ & Hs & _).
      destruct (send_all t calls) as [t1 out1]. cbn [fst snd] in *.
      cbn [mbind Res_bind Py.bind].
      apply Hrest; [exact Hp1 | rewrite Hs; exact Hw].
    + rewrite (invoke_raises _ _ _ _ Ei). discriminate.
  - cbn [mbind Res_bind Py.bind]. apply Hrest; [exact Hp | exact Hw].
Qed.

Lemma primed_enable (t : Application.Transport) o :
  Application.primed t o = true ->
  exists t1 out1,
    enable t true = Ok (t1, out1)
    /\ (_state t <> disabled -> t1 = t)
    /\ (_state t = disabled ->
        _state t1 = work /\ _timer t1 = true
        /\ length (_command_queue t1) = S (length (_command_queue t))).
Proof.
  destruct t as [q tm u st rc wc]. unfold enable. cbn.
  destruct st; cbn; intros Hp.
  - rewrite List.length_app. cbn [length].
    replace (length q + 1 =? 0)%nat with false
      by (symmetry; apply Nat.eqb_neq; lia).
    cbn. unfold _process_request. cbn.
    destruct q as [|h q]; cbn;
      (eexists _, _; split; [reflexivity|]);
      (split; [congruence|]); intros _; cbn;
      rewrite ?List.length_app; cbn; repeat split; lia.
  - eexists _, _. split; [reflexivity|]. split; [reflexivity | discriminate].
  - eexists _, _. split; [reflexivity|]. split; [reflexivity | discriminate].
Qed.

Lemma primed_application_step (t : Application.Transport) o ev :
  Application.primed t o = true ->
  match Application.step (t, o) ev with
  | Ok (t', o', _) => Application.primed t' o' = true
  | Raise e => e <> IndexError
  end.
Proof.
  intros Hp.
  assert (Hgm : forall r,
             Application.primed
               (fst (fst (Application.deliver t (Application.with_game_manager o r))))
               (snd (fst (Application.deliver t (Application.with_game_manager o r))))
             = true).
  { intros r. refine (proj1 (primed_deliver t o _ Hp _)). reflexivity. }
  assert (Hok : forall r : Application.Transport * Application.Owners
                           * list Application.Action,
             Application.primed (fst (fst r)) (snd (fst r)) = true ->
             match Ok r with
             | Ok (t', o', _) => Application.primed t' o' = true
             | Raise e => e <> IndexError
             end).
  { intros [[t' o'] out] H. exact H. }
  destruct ev; cbn [Application.step]; try (apply Hok, Hgm).
  - (* connect *)
    destruct opened; cbn [negb]; [|exact Hp].
    destruct (primed_enable t o Hp) as (t1 & out1 & E1 & Hsame & Hnew).
    rewrite E1. cbn [mbind Res_bind Py.bind].
    destruct (DeviceManager.enable (Application.device_manager o))
      as [r|e] eqn:Er; cbn [mbind Res_bind Py.bind];
      [|rewrite (DeviceManagerFacts.enable_raises _ _ Er); discriminate].
    rewrite (deliver_eq t1). cbn beta iota zeta.
    rewrite deliver_eq. cbn beta iota zeta. cbn [fst snd].
    destruct (send_all_fields (snd (Application.with_device_manager o r)) t1)
      as (Hq2 & Hs2 & _ & _ & _ & Ht2 & _).
    set (t2 := fst (send_all t1 (snd (Application.with_device_manager o r)))) in *.
    assert (Hp2 : Application.primed t2 (fst (Application.with_device_manager o r))
                  = true).
    { destruct (_state t) eqn:Est.
      - destruct (Hnew eq_refl) as (Hw1 & Htm1 & Hl1).
        unfold Application.primed. rewrite Hs2, Hw1, Ht2, Htm1, Hq2.
        rewrite List.length_app, List.length_map, Hl1. cbn [orb].
        revert Hp. unfold Application.primed. rewrite Est.
        destruct (DeviceManager._enabled (Application.device_manager o)) eqn:Een.
        + intros H. leb_lia.
        + intros _. unfold DeviceManager.enable in Er. rewrite Een in Er.
          destruct r as [dm' eff].
          destruct (DeviceManagerFacts._query_next_device_sends
                      (DeviceManager.set_enabled true (Application.device_manager o))
                      dm' eff eq_refl Er)
            as (more & Hsends).
          change (snd (Application.with_device_manager o (dm', eff)))
            with (sends eff).
          rewrite Hsends. cbn [length]. leb_lia.
      - assert (t1 = t) as -> by (apply Hsame; discriminate).
        transitivity (Application.primed t2 o);
          [|exact (primed_send_all t _ o Hp)].
        apply primed_owners. rewrite Hs2, Est. discriminate.
      - assert (t1 = t) as -> by (apply Hsame; discriminate).
        transitivity (Application.primed t2 o);
          [|exact (primed_send_all t _ o Hp)].
        apply primed_owners. rewrite Hs2, Est. discriminate. }
    match goal with
    | |- Application.primed (fst (send_all t2 ?calls)) ?o3 = true =>
        transitivity (Application.primed (fst (send_all t2 calls))
                        (fst (Application.with_device_manager o r)));
        [apply primed_owners; reflexivity
        | exact (primed_send_all t2 calls _ Hp2)]
    end.
  - (* disconnect *)
    destruct (disable t) as [t1 out1] eqn:E1.
    assert (Hs1 : _state t1 = disabled)
      by (injection E1 as <- _; reflexivity).
    rewrite deliver_eq. cbn beta iota zeta.
    match goal with
    | |- context [send_all t1 ?calls] =>
        destruct (send_all_fields calls t1) as (_ & Hs2 & _);
        destruct (send_all t1 calls) as [t2 out2]
    end.
    cbn [fst snd] in *.
    unfold Application.primed. cbn. rewrite Hs2, Hs1. reflexivity.
  - (* upload *)
    apply Hok. refine (proj1 (primed_deliver t o _ Hp _)). reflexivity.
  - (* set_mode *)
    apply Hok. refine (proj1 (primed_deliver t o _ Hp _)).
    intros _. unfold DeviceManager.set_mode.
    destruct (negb _); reflexivity.
  - apply (primed_timeout t o is_open Hp).
  - apply (primed_bytesWritten t o sent_bytes Hp).
  - apply (primed_readyRead t o line Hp).
  - destruct (GameManager._timer _); [apply Hok, Hgm | exact Hp].
  - transitivity (Application.primed t o); [|exact Hp].
    apply primed_owners. reflexivity.
Qed.

Lemma primed_application_run evs : forall cfg done,
  Application.primed (fst cfg) (snd cfg) = true ->
  Application.raised (Application.run_from cfg done evs) <> Some IndexError.
Proof.
  induction evs as [|ev evs IH]; intros [t o] done Hp; [discriminate|].
  cbn [Application.run_from].
  pose proof (primed_application_step t o ev Hp) as Hstep.
  destruct (Application.step (t, o) ev) as [[[t1 o1] out]|e].
  - apply IH. exact Hstep.
  - cbn. congruence.
Qed.

(** X3.  The two places where the transport reads the head of its queue
    without looking ([_process_request] on a shot of the delay timer,
    [_handle_read] and [_finalize_request] for the command in flight)
    never find the queue empty in the application as [main] wires it:
    whatever the user clicks, whatever the port delivers and whenever
    the timers fire, no run of the application ends in [IndexError].
    (The poller keeps a query queued behind the probe, and [clear()]
    only follows [disable()].) *)
Theorem application_never_finds_the_queue_empty
    (settings_manager : SettingsManager.t) (game_duration : Z)
    (evs : list Application.Event) :
  Application.raised (Application.run settings_manager game_duration evs)
  <> Some IndexError.
Proof. apply primed_application_run. reflexivity. Qed.

(** ** Disconnecting and connecting again *)

(** X9.  Whatever state the application is in, disconnecting and
    connecting again starts it afresh and cannot fail: nothing is
    raised; the queue holds the probe, being written, and behind it
    the query for address 1; the registry is empty and the cursor on
    address 1; the session is idle with the clock on zero.  What was
    queued or in flight before is dropped by [clear()]. *)
Theorem reconnecting_starts_afresh
    (t : Application.Transport) (o : Application.Owners)
    (done : list Application.Action) :
  let r := Application.run_from (t, o) done
             [Application.click_disconnect; Application.click_connect true] in
  let t' := fst (fst (fst r)) in
  let o' := snd (fst (fst r)) in
  Application.raised r = None
  /\ _state t' = work
  /\ _command_queue t'
     = [mkCommand ping None;
        mkCommand (DeviceManager.get_info_command 1)
                  (Some Callback._process_query_response)]
  /\ _unsent_bytes t' = 6
  /\ _read_complete t' = false
  /\ _write_complete t' = false
  /\ DeviceManager._enabled (Application.device_manager o') = true
  /\ DeviceManager._devices (Application.device_manager o') = ∅
  /\ DeviceManager._current_device (Application.device_manager o') = 1
  /\ GameManager._state (Application.game_manager o') = GameManager.idle
  /\ (forall clock,
        GameManager.elapsed_time (Application.game_manager o') clock = 0)
  /\ Application.transport_trace r
     = (done ++ [switched_off; cleared])
       ++ [appended (mkCommand ping None); discarded_input; written ping;
           appended (mkCommand (DeviceManager.get_info_command 1)
                               (Some Callback._process_query_response))].
Proof.
  destruct t as [q tm u st rc wc].
  destruct o as [[sm devs cur up first en] [gd gt ge gp gs] now emitted].
  destruct up; [destruct first as [first|];
                [destruct (first =? 1) eqn:Ef|]|];
    cbn zeta;
    cbn [Application.run_from Application.step CommandTransport.disable
         CommandTransport.clear fst snd];
    unfold DeviceManager.enable, DeviceManager._query_next_device;
    cbn [DeviceManager._enabled DeviceManager.set_enabled DeviceManager.disable
         DeviceManager.clear DeviceManager.set_devices
         DeviceManager.set_current_device DeviceManager._upload
         DeviceManager._first_uploaded DeviceManager._current_device
         DeviceManager._devices DeviceManager.set_upload
         DeviceManager.set_first_uploaded negb Application.device_manager
         Application.with_game_manager fst snd];
    rewrite ?deliver_eq; cbn beta iota zeta;
    cbn [DeviceManager._enabled DeviceManager.set_enabled DeviceManager.disable
         DeviceManager.clear DeviceManager.set_devices
         DeviceManager.set_current_device DeviceManager._upload
         DeviceManager._first_uploaded DeviceManager._current_device
         DeviceManager._devices DeviceManager.set_upload
         DeviceManager.set_first_uploaded negb Application.device_manager
         Application.with_game_manager fst snd];
    unfold DeviceManager.FIRST_DEVICE; rewrite ?Ef;
    (split; [reflexivity|]); (split; [reflexivity|]); (split; [reflexivity|]);
    (split; [reflexivity|]); (split; [reflexivity|]); (split; [reflexivity|]);
    (split; [reflexivity|]); (split; [reflexivity|]); (split; [reflexivity|]);
    (split; [reflexivity|]); (split; [intros clock; reflexivity|]);
    reflexivity.
Qed.
End CommandTransportFacts.

(* ===================================================================== *)
(** * Facts about the device view *)
(* ===================================================================== *)

Module DeviceViewFacts.
Import DeviceView.

Lemma get_set {A} (d : ByType A) ty v ty' :
  get (set d ty v) ty' = if same_type ty ty' then v else get d ty'.
Proof. destruct d, ty, ty'; reflexivity. Qed.

Lemma same_type_eq a b : same_type a b = true <-> a = b.
Proof. destruct a, b; cbn; split; (reflexivity || discriminate). Qed.

Lemma same_type_refl a : same_type a a = true.
Proof. destruct a; reflexivity. Qed.

Lemma rows_get_None (d : Rows) k :
  rows_get d k = None <-> ~ List.In k (map fst d).
Proof.
  induction d as [|[k0 v0] d IH]; cbn [rows_get map fst List.In].
  - split; [intros _ []| reflexivity].
  - destruct (Z.eqb_spec k0 k) as [->|Hne].
    + split; [discriminate | intros H; exfalso; apply H; left; reflexivity].
    + rewrite IH. split; [intros H [E|E]; [congruence | exact (H E)]
                         | intros H E; apply H; right; exact E].
Qed.

Lemma rows_set_fresh (d : Rows) k v :
  rows_get d k = None -> rows_set d k v = d ++ [(k, v)].
Proof.
  induction d as [|[k0 v0] d IH]; cbn [rows_get rows_set app]; [reflexivity|].
  destruct (k0 =? k); [discriminate|]. intros H. rewrite (IH H). reflexivity.
Qed.

Lemma rows_get_app (a b : Rows) k :
  rows_get (a ++ b) k
  = match rows_get a k with Some v => Some v | None => rows_get b k end.
Proof.
  induction a as [|[k0 v0] a IH]; cbn [app rows_get]; [reflexivity|].
  destruct (k0 =? k); [reflexivity | exact IH].
Qed.

Lemma rows_get_In (d : Rows) k v :
  rows_get d k = Some v -> List.In (k, v) d.
Proof.
  induction d as [|[k0 v0] d IH]; cbn [rows_get List.In]; [discriminate|].
  destruct (Z.eqb_spec k0 k) as [->|Hne].
  - intros [= ->]. left; reflexivity.
  - intros H. right. exact (IH H).
Qed.

Lemma In_rows_get (d : Rows) k v :
  List.NoDup (map fst d) -> List.In (k, v) d -> rows_get d k = Some v.
Proof.
  induction d as [|[k0 v0] d IH]; cbn [rows_get List.In map fst]; [intros _ []|].
  intros Hnd [E|E].
  - injection E as -> ->. rewrite Z.eqb_refl. reflexivity.
  - inversion Hnd as [|? ? Hnotin Hnd']; subst.
    destruct (Z.eqb_spec k0 k) as [->|Hne].
    + exfalso. apply Hnotin. apply (List.in_map fst) in E. exact E.
    + exact (IH Hnd' E).
Qed.

(** Keys with the same row are the same key, when no row is used twice. *)
Lemma rows_injective (d : Rows) k1 k2 v :
  List.NoDup (map snd d) ->
  rows_get d k1 = Some v -> rows_get d k2 = Some v -> k1 = k2.
Proof.
  intros Hnd H1 H2. apply rows_get_In in H1. apply rows_get_In in H2.
  induction d as [|[k0 v0] d IH]; [destruct H1|].
  cbn [map snd] in Hnd. inversion Hnd as [|? ? Hnotin Hnd']; subst.
  destruct H1 as [E1|E1], H2 as [E2|E2].
  - congruence.
  - injection E1 as -> ->. exfalso. apply Hnotin.
    apply (List.in_map snd) in E2. exact E2.
  - injection E2 as -> ->. exfalso. apply Hnotin.
    apply (List.in_map snd) in E1. exact E1.
  - exact (IH Hnd' E1 E2).
Qed.

Lemma NoDup_snoc {A} (l : list A) x :
  List.NoDup l -> ~ List.In x l -> List.NoDup (l ++ [x]).
Proof.
  induction l as [|a l IH]; cbn [app]; intros Hnd Hx.
  - constructor; [intros []| constructor].
  - inversion Hnd as [|? ? Ha Hl]; subst. constructor.
    + intros Hin. apply List.in_app_or in Hin. destruct Hin as [Hin|[E|[]]].
      * exact (Ha Hin).
      * apply Hx. left. symmetry. exact E.
    + apply IH; [exact Hl|]. intros Hin. apply Hx. right. exact Hin.
Qed.

Lemma seq_NoDup_nat base n : List.NoDup (seq base n).
Proof. apply List.seq_NoDup. Qed.

Lemma last_key_app {K V} (p : V -> bool) (a b : list (K * V)) :
  last_key p (a ++ b)
  = match last_key p b with Some k => Some k | None => last_key p a end.
Proof.
  unfold last_key. rewrite List.fold_left_app.
  generalize (fold_left
    (fun (found : option K) (kv : K * V) =>
       if p (snd kv) then Some (fst kv) else found) a None).
  induction b as [|[k v] b IH] using List.rev_ind; intros o.
  - cbn. destruct o; reflexivity.
  - rewrite !List.fold_left_app. cbn [fold_left fst snd].
    destruct (p v); [reflexivity|]. apply IH.
Qed.

Lemma last_key_None {K V} (p : V -> bool) (d : list (K * V)) :
  (forall kv, List.In kv d -> p (snd kv) = false) -> last_key p d = None.
Proof.
  induction d as [|[k v] d IH] using List.rev_ind; intros H; [reflexivity|].
  rewrite last_key_app. unfold last_key at 1. cbn [fold_left fst snd].
  assert (Hv : p v = false).
  { apply (H (k, v)). apply List.in_or_app. right. left. reflexivity. }
  rewrite Hv.
  apply IH. intros kv Hin. apply H. apply List.in_or_app. left. exact Hin.
Qed.

(** The loop over [self._rows[device_type]] finds the device of a row. *)
Lemma last_key_row (d : Rows) id row :
  List.NoDup (map snd d) -> rows_get d id = Some row ->
  last_key (Nat.eqb row) d = Some id.
Proof.
  intros Hnd Hget. apply rows_get_In in Hget.
  induction d as [|[k v] d IH] using List.rev_ind; [destruct Hget|].
  rewrite last_key_app. unfold last_key at 1. cbn [fold_left fst snd].
  rewrite List.map_app in Hnd. cbn [map snd] in Hnd.
  apply List.in_app_or in Hget. destruct Hget as [Hin|[E|[]]].
  - destruct (Nat.eqb_spec row v) as [->|Hne].
    + exfalso. apply List.NoDup_remove_2 in Hnd. apply Hnd.
      rewrite List.app_nil_r. apply (List.in_map snd) in Hin. exact Hin.
    + apply IH; [|exact Hin]. apply List.NoDup_remove_1 in Hnd.
      rewrite List.app_nil_r in Hnd. exact Hnd.
  - injection E as -> ->. rewrite Nat.eqb_refl. reflexivity.
Qed.

Lemma last_key_no_row (d : Rows) row :
  ~ List.In row (map snd d) -> last_key (Nat.eqb row) d = None.
Proof.
  intros H. apply last_key_None. intros [k v] Hin. cbn [snd].
  destruct (Nat.eqb_spec row v) as [->|]; [|reflexivity].
  exfalso. apply H. apply (List.in_map snd) in Hin. exact Hin.
Qed.

Lemma last_key_found (d : Rows) row id :
  last_key (Nat.eqb row) d = Some id -> List.In (id, row) d.
Proof.
  induction d as [|[k v] d IH] using List.rev_ind; [discriminate|].
  rewrite last_key_app. unfold last_key at 1. cbn [fold_left fst snd].
  destruct (Nat.eqb_spec row v) as [->|Hne].
  - intros [= ->]. apply List.in_or_app. right. left. reflexivity.
  - intros H. apply List.in_or_app. left. exact (IH H).
Qed.

(** The loop over [self._tables] finds the type of a table, when the three
    tables are different widgets. *)
Lemma last_key_table (tables : ByType nat) ty :
  (forall a b, get tables a = get tables b -> a = b) ->
  last_key (Nat.eqb (get tables ty)) (items tables) = Some ty.
Proof.
  intros Hinj. unfold last_key, items. cbn [fold_left fst snd].
  destruct (Nat.eqb_spec (get tables ty) (of_target tables)) as [E|N3].
  - f_equal. symmetry. apply Hinj. exact E.
  - destruct (Nat.eqb_spec (get tables ty) (of_turret tables)) as [E|N2].
    + f_equal. symmetry. apply Hinj. exact E.
    + destruct (Nat.eqb_spec (get tables ty) (of_tank tables)) as [E|N1].
      * f_equal. symmetry. apply Hinj. exact E.
      * destruct ty; cbn [get] in *; congruence.
Qed.

Lemma last_key_table_found (tables : ByType nat) table ty :
  last_key (Nat.eqb table) (items tables) = Some ty -> table = get tables ty.
Proof.
  unfold last_key, items. cbn [fold_left fst snd].
  destruct (Nat.eqb_spec table (of_target tables)) as [E|N3];
    [intros [= <-]; exact E|].
  destruct (Nat.eqb_spec table (of_turret tables)) as [E|N2];
    [intros [= <-]; exact E|].
  destruct (Nat.eqb_spec table (of_tank tables)) as [E|N1];
    [intros [= <-]; exact E | discriminate].
Qed.

Lemma distinct_tables (a b c : nat) :
  a <> b -> b <> c -> a <> c ->
  forall x y, get (mkByType a b c) x = get (mkByType a b c) y -> x = y.
Proof. intros ? ? ? x y; destruct x, y; cbn; congruence. Qed.

Lemma labelled_paint color device r :
  header r = Py.format_d (Device.id device) ->
  labelled (paint color device r) device.
Proof.
  intros H. unfold labelled, paint. cbn.
  repeat (split; [try reflexivity; try exact H|]). reflexivity.
Qed.

Lemma shows_paint color device r :
  header r = Py.format_d (Device.id device) ->
  shows (paint color device r) device.
Proof.
  intros H. split; [apply labelled_paint; exact H | reflexivity].
Qed.

Lemma labelled_header r device :
  labelled r device -> header r = Py.format_d (Device.id device).
Proof. intros H. exact (proj1 H). Qed.

(** A change of a check state leaves the labels; outside the mode column
    it leaves the mode box too. *)
Lemma labelled_set_check column check r device :
  labelled r device -> labelled (set_check column check r) device.
Proof.
  intros H. unfold set_check.
  repeat match goal with
         | |- context [if ?b then _ else _] => destruct b
         end; exact H.
Qed.

Lemma shows_set_check column check r device :
  column <> Column.value Column.mode ->
  shows r device -> shows (set_check column check r) device.
Proof.
  intros Hc [Hl Hm]. split; [apply labelled_set_check; exact Hl|].
  unfold set_check.
  destruct (column =? Column.value Column.group); [exact Hm|].
  destruct (column =? Column.value Column.state); [exact Hm|].
  destruct (column =? Column.value Column.health); [exact Hm|].
  destruct (Z.eqb_spec column (Column.value Column.mode));
    [contradiction | exact Hm].
Qed.

(** ** [update_device] keeps the tables tidy *)

Lemma update_device_tidy base self widgets device :
  (forall a b, get (_tables self) a = get (_tables self) b -> a = b) ->
  tidy base self widgets ->
  exists self' widgets',
    update_device self widgets device = Done (self', widgets')
    /\ _tables self' = _tables self
    /\ _colors self' = _colors self
    /\ _devices self'
       = set (_devices self) (Device.type device)
           (<[Device.id device := device]>
              (get (_devices self) (Device.type device)))
    /\ tidy base self' widgets'.
Proof.
  intros Hinj Ht.
  destruct self as [tables devices rows colors]. cbn [_tables] in Hinj.
  unfold update_device. cbn [_tables _devices _rows _colors].
  set (ty := Device.type device). set (id := Device.id device).
  pose proof (Ht ty) as Hk. unfold kept in Hk.
  cbn [_tables _devices _rows] in Hk.
  unfold Table in *.
  destruct Hk as (Hseq & Hcount & Hnd & Hiff & Hshow).
  assert (Hsndnd : List.NoDup (map snd (get rows ty))).
  { rewrite Hseq. apply seq_NoDup_nat. }
  destruct (get devices ty !! id) as [d0|] eqn:Ed.
  - (* a known device: its row is painted again *)
    destruct (Hshow _ _ Ed) as (Hty0 & Hid0 & row & r & Hrow & Hr & Hsh).
    rewrite Hrow, Hr.
    eexists _, _. split; [reflexivity|].
    split; [reflexivity|]. split; [reflexivity|]. split; [reflexivity|].
    intros ty'. pose proof (Ht ty') as Hk'. unfold kept in Hk' |- *.
    cbn [_tables _devices _rows] in Hk' |- *. unfold Table in *.
    destruct Hk' as (Hseq' & Hcount' & Hnd' & Hiff' & Hshow').
    split; [exact Hseq'|].
    rewrite get_set.
    destruct (same_type ty ty') eqn:Est.
    + apply same_type_eq in Est. subst ty'.
      unfold rowCount, set_table in *. rewrite Nat.eqb_refl.
      split; [rewrite length_insert; exact Hcount|].
      split; [exact Hnd|]. split.
      * intros id'. destruct (Z.eq_dec id id') as [<-|Hne].
        -- rewrite lookup_insert_eq, Hrow. split; discriminate.
        -- rewrite lookup_insert_ne by exact Hne. apply Hiff.
      * intros id' device'. destruct (Z.eq_dec id id') as [<-|Hne].
        -- rewrite lookup_insert_eq. intros [= <-].
           split; [reflexivity|]. split; [reflexivity|].
           exists row, (paint (color_of colors (Device.state device)) device r).
           split; [exact Hrow|]. split.
           ++ apply list_lookup_insert_eq. apply lookup_lt_Some in Hr. exact Hr.
           ++ apply labelled_paint. rewrite (labelled_header _ _ Hsh). f_equal.
              exact Hid0.
        -- rewrite lookup_insert_ne by exact Hne. intros Hd'.
           destruct (Hshow _ _ Hd') as (Hty1 & Hid1 & row' & r' & Hrow' & Hr' & Hsh').
           split; [exact Hty1|]. split; [exact Hid1|].
           exists row', r'. split; [exact Hrow'|]. split; [|exact Hsh'].
           rewrite list_lookup_insert_ne; [exact Hr'|].
           intros ->. apply Hne.
           exact (rows_injective _ _ _ _ Hsndnd Hrow Hrow').
    + assert (Hother : get tables ty' <> get tables ty).
      { intros E. apply Hinj in E. subst ty'.
        rewrite same_type_refl in Est. discriminate. }
      unfold rowCount, set_table in *.
      destruct (Nat.eqb_spec (get tables ty') (get tables ty)) as [E|_];
        [contradiction|].
      split; [exact Hcount'|]. split; [exact Hnd'|].
      split; [exact Hiff' | exact Hshow'].
  - (* a new device: a row is added at the end of its table *)
    pose proof (proj1 (Hiff id) Ed) as Hfresh.
    unfold set_table at 1. rewrite Nat.eqb_refl.
    unfold rowCount in Hcount |- *.
    rewrite lookup_app_r by reflexivity. rewrite Nat.sub_diag.
    cbn [lookup list_lookup].
    eexists _, _. split; [reflexivity|].
    split; [reflexivity|]. split; [reflexivity|]. split; [reflexivity|].
    intros ty'. pose proof (Ht ty') as Hk'. unfold kept in Hk' |- *.
    cbn [_tables _devices _rows] in Hk' |- *. unfold Table in *.
    destruct Hk' as (Hseq' & Hcount' & Hnd' & Hiff' & Hshow').
    rewrite !get_set.
    destruct (same_type ty ty') eqn:Est.
    + apply same_type_eq in Est. subst ty'.
      rewrite (rows_set_fresh _ _ _ Hfresh).
      unfold rowCount, set_table. rewrite !Nat.eqb_refl.
      rewrite !List.map_app, List.length_app. cbn [map fst snd length].
      split.
      { rewrite Nat.add_1_r, List.seq_S, Hseq, Hcount. reflexivity. }
      split.
      { rewrite length_insert, List.length_app. cbn [length]. lia. }
      split.
      { apply NoDup_snoc; [exact Hnd|]. apply rows_get_None. exact Hfresh. }
      split.
      * intros id'. rewrite rows_get_app. cbn [rows_get].
        destruct (Z.eq_dec id id') as [<-|Hne].
        -- rewrite lookup_insert_eq, Hfresh, Z.eqb_refl. split; discriminate.
        -- rewrite lookup_insert_ne by exact Hne.
           destruct (Z.eqb_spec id id'); [contradiction|].
           rewrite (Hiff id'). destruct (rows_get (get rows ty) id'); tauto.
      * intros id' device'. rewrite rows_get_app. cbn [rows_get].
        destruct (Z.eq_dec id id') as [<-|Hne].
        -- rewrite lookup_insert_eq. intros [= <-].
           split; [reflexivity|]. split; [reflexivity|].
           rewrite Hfresh, Z.eqb_refl.
           eexists _, _. split; [reflexivity|]. split.
           ++ apply list_lookup_insert_eq. rewrite List.length_app.
              cbn [length]. lia.
           ++ apply labelled_paint. reflexivity.
        -- rewrite lookup_insert_ne by exact Hne. intros Hd'.
           destruct (Hshow _ _ Hd') as (Hty1 & Hid1 & row' & r' & Hrow' & Hr' & Hsh').
           split; [exact Hty1|]. split; [exact Hid1|].
           rewrite Hrow'. exists row', r'. split; [reflexivity|].
           split; [|exact Hsh'].
           pose proof (lookup_lt_Some _ _ _ Hr') as Hlt.
           rewrite list_lookup_insert_ne by lia.
           rewrite lookup_app_l by exact Hlt. exact Hr'.
    + assert (Hother : get tables ty' <> get tables ty).
      { intros E. apply Hinj in E. subst ty'.
        rewrite same_type_refl in Est. discriminate. }
      unfold rowCount, set_table in *.
      destruct (Nat.eqb_spec (get tables ty') (get tables ty)) as [E|_];
        [contradiction|].
      split; [exact Hseq'|]. split; [exact Hcount'|]. split; [exact Hnd'|].
      split; [exact Hiff' | exact Hshow'].
Qed.

(** What [update_device] leaves in the table: the row of the device
    shows it, the rows that were handed out stay, and no other row of any
    table is touched. *)
Lemma update_device_paints base self widgets device self' widgets' :
  tidy base self widgets ->
  update_device self widgets device = Done (self', widgets') ->
  exists row r,
    rows_get (get (_rows self') (Device.type device)) (Device.id device)
    = Some row
    /\ widgets' (get (_tables self) (Device.type device)) !! row = Some r
    /\ shows r device
    /\ (forall ty' id' row',
          rows_get (get (_rows self) ty') id' = Some row' ->
          rows_get (get (_rows self') ty') id' = Some row')
    /\ (forall t k,
          t <> get (_tables self) (Device.type device) \/ k <> row ->
          widgets' t !! k = widgets t !! k).
Proof.
  intros Ht.
  destruct self as [tables devices rows colors].
  unfold update_device. cbn [_tables _devices _rows _colors].
  set (ty := Device.type device). set (id := Device.id device).
  pose proof (Ht ty) as Hk. unfold kept in Hk.
  cbn [_tables _devices _rows] in Hk. unfold Table in *.
  destruct Hk as (Hseq & Hcount & Hnd & Hiff & Hshow).
  destruct (get devices ty !! id) as [d0|] eqn:Ed.
  - destruct (Hshow _ _ Ed) as (Hty0 & Hid0 & row & r & Hrow & Hr & Hlab).
    rewrite Hrow, Hr. intros [= <- <-]. cbn [_rows].
    exists row, (paint (color_of colors (Device.state device)) device r).
    split; [exact Hrow|]. split.
    { unfold set_table. rewrite Nat.eqb_refl.
      apply list_lookup_insert_eq. apply lookup_lt_Some in Hr. exact Hr. }
    split.
    { apply shows_paint. rewrite (labelled_header _ _ Hlab). f_equal.
      exact Hid0. }
    split; [intros ty' id' row' H; exact H|].
    intros t k Hor. unfold set_table.
    destruct (Nat.eqb_spec t (get tables ty)) as [->|Hne]; [|reflexivity].
    destruct Hor as [Hor|Hor]; [contradiction|].
    apply list_lookup_insert_ne. intros E. apply Hor. symmetry. exact E.
  - pose proof (proj1 (Hiff id) Ed) as Hfresh.
    unfold set_table at 1. rewrite Nat.eqb_refl.
    unfold rowCount in Hcount |- *.
    rewrite lookup_app_r by reflexivity. rewrite Nat.sub_diag.
    cbn [lookup list_lookup]. intros [= <- <-]. cbn [_rows].
    exists (length (widgets (get tables ty))),
           (paint (color_of colors (Device.state device)) device (new_row id)).
    split.
    { rewrite get_set, same_type_refl, (rows_set_fresh _ _ _ Hfresh),
        rows_get_app, Hfresh.
      cbn [rows_get]. rewrite Z.eqb_refl. reflexivity. }
    split.
    { unfold set_table. rewrite !Nat.eqb_refl.
      apply list_lookup_insert_eq. rewrite List.length_app. cbn [length]. lia. }
    split; [apply shows_paint; reflexivity|].
    split.
    { intros ty' id' row' H. rewrite get_set.
      destruct (same_type ty ty') eqn:Est; [|exact H].
      apply same_type_eq in Est. subst ty'.
      rewrite (rows_set_fresh _ _ _ Hfresh), rows_get_app, H. reflexivity. }
    intros t k Hor. unfold set_table.
    destruct (Nat.eqb_spec t (get tables ty)) as [->|Hne]; [|reflexivity].
    rewrite Nat.eqb_refl.
    destruct Hor as [Hor|Hor]; [contradiction|].
    rewrite list_lookup_insert_ne by (intros E; apply Hor; symmetry; exact E).
    destruct (Nat.lt_ge_cases k (length (widgets (get tables ty)))) as [Hlt|Hge].
    + apply lookup_app_l. exact Hlt.
    + rewrite (lookup_ge_None_2 (widgets (get tables ty)) k Hge).
      apply lookup_ge_None_2. rewrite List.length_app. cbn [length]. lia.
Qed.

(** A change of a check state keeps the tables tidy. *)
Lemma tidy_tick base self widgets table column row check :
  tidy base self widgets ->
  tidy base self
       (set_table widgets table
          (alter (set_check column check) row (widgets table))).
Proof.
  intros Ht ty. destruct (Ht ty) as (Hseq & Hcount & Hnd & Hiff & Hshow).
  unfold kept, rowCount, set_table, Table in *.
  split; [exact Hseq|]. split.
  { destruct (Nat.eqb_spec (get (_tables self) ty) table) as [E|_];
      [rewrite length_alter, <- E|]; exact Hcount. }
  split; [exact Hnd|]. split; [exact Hiff|].
  intros id device Hd.
  destruct (Hshow _ _ Hd) as (Hty & Hid & k & r & Hk & Hr & Hlab).
  split; [exact Hty|]. split; [exact Hid|].
  destruct (Nat.eqb_spec (get (_tables self) ty) table) as [E|_];
    [|exists k, r; split; [exact Hk|]; split; [exact Hr | exact Hlab]].
  destruct (Nat.eq_dec row k) as [->|Hne].
  - exists k, (set_check column check r). split; [exact Hk|]. split.
    + rewrite list_lookup_alter_eq, <- E, Hr. reflexivity.
    + apply labelled_set_check. exact Hlab.
  - exists k, r. split; [exact Hk|]. split; [|exact Hlab].
    rewrite list_lookup_alter_ne by exact Hne. rewrite <- E. exact Hr.
Qed.

(** ** [_item_changed_callback] on tidy tables *)

Lemma item_changed_tidy base self widgets table column row check :
  tidy base self widgets ->
  exists o,
    _item_changed_callback self table column row check = Done o
    /\ forall signal, o = Some signal ->
         exists ty device,
           get (_devices self) ty !! fst signal = Some device
           /\ snd signal = other (Device.mode device).
Proof.
  intros Ht. unfold _item_changed_callback.
  destruct (negb (column =? Column.value Column.mode));
    [exists None; split; [reflexivity | discriminate]|].
  destruct (last_key (Nat.eqb table) (items (_tables self))) as [ty|];
    [|exists None; split; [reflexivity | discriminate]].
  destruct (last_key (Nat.eqb row) (get (_rows self) ty)) as [id|] eqn:Eid;
    [|exists None; split; [reflexivity | discriminate]].
  destruct (Ht ty) as (_ & _ & Hnd & Hiff & _).
  apply last_key_found in Eid. apply (In_rows_get _ _ _ Hnd) in Eid.
  destruct (get (_devices self) ty !! id) as [device|] eqn:Ed.
  - destruct check, (Device.mode device) eqn:Em;
      eexists; (split; [reflexivity|]); intros signal [= <-];
      exists ty, device; cbn [fst snd]; rewrite Em; split;
      solve [exact Ed | reflexivity].
  - apply Hiff in Ed. congruence.
Qed.

(** A tick in the mode column of a device's row. *)
Lemma item_changed_known base self widgets ty id device check :
  (forall a b, get (_tables self) a = get (_tables self) b -> a = b) ->
  tidy base self widgets ->
  get (_devices self) ty !! id = Some device ->
  exists row,
    rows_get (get (_rows self) ty) id = Some row
    /\ _item_changed_callback self (get (_tables self) ty)
         (Column.value Column.mode) row check
       = Done (match check, Device.mode device with
               | true, DeviceMode.combat
               | false, DeviceMode.training => None
               | _, _ => Some (id, other (Device.mode device))
               end).
Proof.
  intros Hinj Ht Hd.
  destruct (Ht ty) as (Hseq & _ & _ & _ & Hshow).
  destruct (Hshow _ _ Hd) as (_ & _ & row & _ & Hrow & _).
  exists row. split; [exact Hrow|].
  unfold _item_changed_callback. rewrite Z.eqb_refl. cbn [negb].
  rewrite (last_key_table _ ty Hinj).
  rewrite (last_key_row _ id row); [|rewrite Hseq; apply seq_NoDup_nat|exact Hrow].
  rewrite Hd. destruct check, (Device.mode device); reflexivity.
Qed.

(** ** Runs *)

Lemma step_tidy base self widgets ev :
  (forall a b, get (_tables self) a = get (_tables self) b -> a = b) ->
  tidy base self widgets ->
  exists self' widgets' out,
    step self widgets ev = Done (self', widgets', out)
    /\ _tables self' = _tables self
    /\ tidy base self' widgets'
    /\ (forall ty id,
          reports ty id ev = false ->
          get (_devices self') ty !! id = get (_devices self) ty !! id)
    /\ (forall ty id device,
          get (_devices self') ty !! id = Some device ->
          get (_devices self) ty !! id = Some device
          \/ ev = call_update_device device)
    /\ (forall signal, List.In signal out ->
          exists ty device,
            get (_devices self) ty !! fst signal = Some device
            /\ snd signal = other (Device.mode device)).
Proof.
  intros Hinj Ht. destruct ev as [device| | |table column row check];
    cbn [step].
  - destruct (update_device_tidy base self widgets device Hinj Ht)
      as (self' & widgets' & E & Htab & _ & Hdev & Ht').
    rewrite E. exists self', widgets', [].
    split; [reflexivity|]. split; [exact Htab|]. split; [exact Ht'|].
    split; [|split].
    + intros ty id Hrep. rewrite Hdev, get_set. cbn [reports] in Hrep.
      destruct (same_type (Device.type device) ty) eqn:Est; [|reflexivity].
      cbn [andb] in Hrep. apply same_type_eq in Est. subst ty.
      apply lookup_insert_ne. intros E'. rewrite E', Z.eqb_refl in Hrep.
      discriminate.
    + intros ty id device'. rewrite Hdev, get_set.
      destruct (same_type (Device.type device) ty) eqn:Est;
        [|intros H; left; exact H].
      apply same_type_eq in Est. subst ty.
      destruct (Z.eq_dec (Device.id device) id) as [<-|Hne].
      * rewrite lookup_insert_eq. intros [= <-]. right. reflexivity.
      * rewrite lookup_insert_ne by exact Hne. intros H; left; exact H.
    + intros signal [].
  - exists (enable_colors self), widgets, [].
    split; [reflexivity|]. split; [reflexivity|]. split; [exact Ht|].
    split; [reflexivity|]. split; [intros ? ? ? H; left; exact H|intros ? []].
  - exists (disable_colors self), widgets, [].
    split; [reflexivity|]. split; [reflexivity|]. split; [exact Ht|].
    split; [reflexivity|]. split; [intros ? ? ? H; left; exact H|intros ? []].
  - destruct (item_changed_tidy base self widgets table column row check Ht)
      as (o & E & Ho).
    cbn zeta. rewrite E. destruct o as [signal|].
    + eexists self, _, [signal].
      split; [reflexivity|]. split; [reflexivity|].
      split; [apply tidy_tick; exact Ht|].
      split; [reflexivity|]. split; [intros ? ? ? H; left; exact H|].
      intros s [<-|[]]. apply Ho. reflexivity.
    + eexists self, _, [].
      split; [reflexivity|]. split; [reflexivity|].
      split; [apply tidy_tick; exact Ht|].
      split; [reflexivity|]. split; [intros ? ? ? H; left; exact H|intros ? []].
Qed.

Lemma asked_of_more done evs signal :
  asked_of done signal -> asked_of (done ++ evs) signal.
Proof.
  intros (device & Hr & H). exists device. split; [|exact H].
  apply List.in_or_app. left. exact Hr.
Qed.

Lemma run_from_tidy base evs : forall done self widgets emitted,
  (forall a b, get (_tables self) a = get (_tables self) b -> a = b) ->
  tidy base self widgets ->
  (forall ty id device,
     get (_devices self) ty !! id = Some device -> reported device done) ->
  List.Forall (asked_of done) emitted ->
  exists self' widgets' emitted',
    run_from self widgets emitted evs = Done (self', widgets', emitted')
    /\ _tables self' = _tables self
    /\ tidy base self' widgets'
    /\ (forall ty id,
          forallb (fun ev => negb (reports ty id ev)) evs = true ->
          get (_devices self') ty !! id = get (_devices self) ty !! id)
    /\ (forall ty id device,
          get (_devices self') ty !! id = Some device ->
          reported device (done ++ evs))
    /\ List.Forall (asked_of (done ++ evs)) emitted'.
Proof.
  induction evs as [|ev evs IH]; intros done self widgets emitted Hinj Ht Hk He.
  - exists self, widgets, emitted. rewrite List.app_nil_r.
    split; [reflexivity|]. split; [reflexivity|]. split; [exact Ht|].
    split; [reflexivity|]. split; [exact Hk | exact He].
  - destruct (step_tidy base self widgets ev Hinj Ht)
      as (self1 & widgets1 & out & E & Htab & Ht1 & Hkeep & Hnew & Hout).
    cbn [run_from]. rewrite E.
    assert (Hinj1 : forall a b,
               get (_tables self1) a = get (_tables self1) b -> a = b).
    { rewrite Htab. exact Hinj. }
    assert (Hk1 : forall ty id device,
               get (_devices self1) ty !! id = Some device ->
               reported device (done ++ [ev])).
    { intros ty id device Hd. apply List.in_or_app.
      destruct (Hnew _ _ _ Hd) as [Hold| ->].
      - left. exact (Hk _ _ _ Hold).
      - right. left. reflexivity. }
    assert (He1 : List.Forall (asked_of (done ++ [ev])) (emitted ++ out)).
    { apply List.Forall_app. split.
      - eapply List.Forall_impl; [|exact He]. intros s. apply asked_of_more.
      - apply List.Forall_forall. intros s Hin.
        destruct (Hout s Hin) as (ty & device & Hd & Hm).
        destruct (Ht ty) as (_ & _ & _ & _ & Hshow).
        destruct (Hshow _ _ Hd) as (_ & Hid & _).
        exists device. split; [|split; [symmetry; exact Hid | exact Hm]].
        apply List.in_or_app. left. exact (Hk _ _ _ Hd). }
    destruct (IH (done ++ [ev]) self1 widgets1 (emitted ++ out)
                 Hinj1 Ht1 Hk1 He1)
      as (self' & widgets' & emitted' & E' & Htab' & Ht' & Hkeep' & Hk' & He').
    exists self', widgets', emitted'. rewrite <- List.app_assoc in Hk', He'.
    split; [exact E'|]. split; [congruence|]. split; [exact Ht'|].
    split; [|split; [exact Hk' | exact He']].
    intros ty id Hall. cbn [forallb] in Hall.
    apply andb_prop in Hall. destruct Hall as [H1 H2].
    rewrite (Hkeep' ty id H2). apply Hkeep.
    destruct (reports ty id ev); [discriminate | reflexivity].
Qed.

Lemma view_run_from_app evs1 : forall evs2 self widgets emitted,
  run_from self widgets emitted (evs1 ++ evs2)
  = match run_from self widgets emitted evs1 with
    | Done (self', widgets', emitted') => run_from self' widgets' emitted' evs2
    | Failed e => Failed e
    end.
Proof.
  induction evs1 as [|ev evs1 IH]; intros evs2 self widgets emitted;
    cbn [app run_from]; [reflexivity|].
  destruct (step self widgets ev) as [[[self1 widgets1] out]|e];
    [apply IH | reflexivity].
Qed.

Lemma tidy_init tank turret target (widgets : Widgets) :
  tidy (fun ty => rowCount widgets (get (mkByType tank turret target) ty))
       (__init__ tank turret target) widgets.
Proof.
  intros ty. unfold kept, __init__. cbn [_tables _devices _rows].
  split; [destruct ty; reflexivity|].
  split; [destruct ty; cbn; lia|].
  split; [destruct ty; constructor|].
  split; [intros id; destruct ty; cbn [get of_tank of_turret of_target rows_get];
          rewrite lookup_empty; tauto|].
  intros id device. destruct ty; cbn [get of_tank of_turret of_target];
    rewrite lookup_empty; discriminate.
Qed.

(** X19.  However the view is used, it never raises, and in each of the
    three tables (different widgets) it hands out the rows after the ones
    that were there in the order in which the devices of that type first
    appear: the rows of [_rows] are consecutive, the table has grown by one
    row per device, no device has two rows, and a device has a row exactly
    when it is in [_devices]. *)
Theorem rows_are_handed_out_in_order_of_appearance
    tank turret target widgets evs :
  tank <> turret -> turret <> target -> tank <> target ->
  exists self widgets' emitted,
    run tank turret target widgets evs = Done (self, widgets', emitted)
    /\ _tables self = mkByType tank turret target
    /\ forall ty,
         let rows := get (_rows self) ty in
         let table := get (_tables self) ty in
         map snd rows = seq (rowCount widgets table) (length rows)
         /\ rowCount widgets' table
            = (rowCount widgets table + length rows)%nat
         /\ List.NoDup (map fst rows)
         /\ forall id, get (_devices self) ty !! id = None
                       <-> rows_get rows id = None.
Proof.
  intros H1 H2 H3.
  destruct (run_from_tidy _ evs [] (__init__ tank turret target) widgets []
              (distinct_tables _ _ _ H1 H2 H3)
              (tidy_init tank turret target widgets))
    as (self & widgets' & emitted & E & Htab & Ht & _).
  { intros ty id device. destruct ty; cbn; rewrite lookup_empty; discriminate. }
  { constructor. }
  exists self, widgets', emitted. split; [exact E|]. split; [exact Htab|].
  intros ty. destruct (Ht ty) as (Hseq & Hcount & Hnd & Hiff & _).
  cbn zeta. rewrite Htab. cbn [_tables __init__].
  split; [exact Hseq|]. rewrite Htab in Hcount. cbn [_tables __init__] in Hcount.
  split; [exact Hcount|]. split; [exact Hnd | exact Hiff].
Qed.

Lemma rows_are_handed_out_in_order_of_appearance_witness :
  exists self widgets' emitted,
    run 0 1 2 empty_tables
        [call_update_device tank_3; call_enable_colors;
         call_update_device target_3; call_update_device tank_3]
    = Done (self, widgets', emitted)
    /\ map snd (get (_rows self) DeviceType.tank) = [0%nat]
    /\ rowCount widgets' 2 = 1%nat.
Proof.
  destruct (rows_are_handed_out_in_order_of_appearance 0 1 2 empty_tables
              [call_update_device tank_3; call_enable_colors;
               call_update_device target_3; call_update_device tank_3]
              ltac:(discriminate) ltac:(discriminate) ltac:(discriminate))
    as (self & widgets' & emitted & E & Htab & H).
  exists self, widgets', emitted. split; [exact E|].
  injection E as <- <- <-. split; reflexivity.
Defined.

(** An event that is neither a report about the device nor a change of
    its mode box leaves its row as it shows it. *)
Lemma step_keeps_shown base self widgets ev ty id device row r
    self' widgets' out :
  (forall a b, get (_tables self) a = get (_tables self) b -> a = b) ->
  tidy base self widgets ->
  rows_get (get (_rows self) ty) id = Some row ->
  widgets (get (_tables self) ty) !! row = Some r ->
  shows r device ->
  reports ty id ev = false ->
  ticks (get (_tables self) ty) row ev = false ->
  step self widgets ev = Done (self', widgets', out) ->
  rows_get (get (_rows self') ty) id = Some row
  /\ exists r', widgets' (get (_tables self') ty) !! row = Some r'
                /\ shows r' device.
Proof.
  intros Hinj Ht Hrow Hr Hsh Hrep Htick E.
  destruct ev as [device'| | |table column k check]; cbn [step] in E.
  - destruct (update_device_tidy base self widgets device' Hinj Ht)
      as (self2 & widgets2 & E2 & Htab & _ & _ & Ht2).
    rewrite E2 in E. injection E as <- <- <-.
    destruct (update_device_paints base self widgets device' _ _ Ht E2)
      as (row' & r' & Hrow' & _ & _ & Hmono & Hframe).
    split; [apply Hmono; exact Hrow|].
    exists r. split; [|exact Hsh]. rewrite Htab, Hframe; [exact Hr|].
    cbn [reports] in Hrep.
    destruct (same_type (Device.type device') ty) eqn:Est.
    + apply same_type_eq in Est. subst ty. cbn [andb] in Hrep.
      right. intros ->.
      destruct (Ht2 (Device.type device')) as (Hseq & _).
      assert (Hnd : List.NoDup (map snd (get (_rows self2)
                                             (Device.type device')))).
      { rewrite Hseq. apply seq_NoDup_nat. }
      pose proof (rows_injective _ _ _ _ Hnd Hrow' (Hmono _ _ _ Hrow)) as Eid.
      rewrite Eid, Z.eqb_refl in Hrep. discriminate.
    + left. intros Eq. apply Hinj in Eq. subst ty.
      rewrite same_type_refl in Est. discriminate.
  - injection E as <- <- <-. split; [exact Hrow|]. exists r. split; assumption.
  - injection E as <- <- <-. split; [exact Hrow|]. exists r. split; assumption.
  - cbn zeta in E.
    assert (Hw : widgets'
                 = set_table widgets table
                     (alter (set_check column check) k (widgets table))
                 /\ self' = self).
    { destruct (_item_changed_callback self table column k check)
        as [[signal|]|e]; [| |discriminate];
        injection E as <- <- <-; split; reflexivity. }
    destruct Hw as [-> ->]. split; [exact Hrow|].
    unfold set_table, Table in *. cbn [ticks] in Htick.
    destruct (Nat.eqb_spec (get (_tables self) ty) table) as [Et|_];
      [|exists r; split; assumption].
    subst table. rewrite Nat.eqb_refl in Htick. cbn [andb] in Htick.
    destruct (Nat.eq_dec k row) as [->|Hne].
    + rewrite Nat.eqb_refl, andb_true_r in Htick.
      exists (set_check column check r). split.
      * rewrite list_lookup_alter_eq, Hr. reflexivity.
      * apply shows_set_check; [|exact Hsh]. intros ->.
        rewrite Z.eqb_refl in Htick. discriminate.
    + exists r. split; [|exact Hsh].
      rewrite list_lookup_alter_ne by exact Hne. exact Hr.
Qed.

Lemma run_from_keeps_shown base ty id device row evs :
  forall self widgets emitted r,
  (forall a b, get (_tables self) a = get (_tables self) b -> a = b) ->
  tidy base self widgets ->
  rows_get (get (_rows self) ty) id = Some row ->
  widgets (get (_tables self) ty) !! row = Some r ->
  shows r device ->
  forallb (fun ev => negb (reports ty id ev)
                     && negb (ticks (get (_tables self) ty) row ev)) evs
  = true ->
  exists self' widgets' emitted' r',
    run_from self widgets emitted evs = Done (self', widgets', emitted')
    /\ _tables self' = _tables self
    /\ rows_get (get (_rows self') ty) id = Some row
    /\ widgets' (get (_tables self') ty) !! row = Some r'
    /\ shows r' device.
Proof.
  induction evs as [|ev evs IH];
    intros self widgets emitted r Hinj Ht Hrow Hr Hsh Hall.
  - exists self, widgets, emitted, r.
    split; [reflexivity|]. split; [reflexivity|]. split; [exact Hrow|].
    split; [exact Hr | exact Hsh].
  - cbn [forallb] in Hall. apply andb_prop in Hall. destruct Hall as [Hev Hall].
    apply andb_prop in Hev. destruct Hev as [Hrep Htick].
    apply negb_true_iff in Hrep. apply negb_true_iff in Htick.
    destruct (step_tidy base self widgets ev Hinj Ht)
      as (self1 & widgets1 & out & E & Htab & Ht1 & _).
    destruct (step_keeps_shown base self widgets ev ty id device row r
                _ _ _ Hinj Ht Hrow Hr Hsh Hrep Htick E)
      as (Hrow1 & r1 & Hr1 & Hsh1).
    cbn [run_from]. rewrite E.
    assert (Hinj1 : forall a b,
               get (_tables self1) a = get (_tables self1) b -> a = b).
    { rewrite Htab. exact Hinj. }
    rewrite <- Htab in Hall.
    destruct (IH self1 widgets1 (emitted ++ out) r1 Hinj1 Ht1 Hrow1 Hr1 Hsh1 Hall)
      as (self' & widgets' & emitted' & r' & E' & Htab' & Hrow' & Hr' & Hsh').
    exists self', widgets', emitted', r'.
    split; [exact E'|]. split; [congruence|]. split; [exact Hrow'|].
    split; [exact Hr' | exact Hsh'].
Qed.

(** X20.  The row of a device shows the values of the last report about
    it: its id in the header, group, state name in capitals and health as
    text, the mode box ticked exactly for combat mode, and the cells
    enabled exactly when the device is not missing.  This holds after
    [update_device(device)] and stays so through every later event that is
    neither a report about the same device nor a change of the mode box of
    its row (a tick of that box by the user stays in the table until the
    next report). *)
Theorem row_shows_the_last_report
    tank turret target widgets evs1 device :
  tank <> turret -> turret <> target -> tank <> target ->
  let ty := Device.type device in
  let id := Device.id device in
  let table := get (mkByType tank turret target) ty in
  exists row,
    forall evs2,
      forallb (fun ev => negb (reports ty id ev)
                         && negb (ticks table row ev)) evs2 = true ->
      exists self widgets' emitted r,
        run tank turret target widgets
            (evs1 ++ call_update_device device :: evs2)
        = Done (self, widgets', emitted)
        /\ rows_get (get (_rows self) ty) id = Some row
        /\ widgets' table !! row = Some r
        /\ shows r device.
Proof.
  intros H1 H2 H3 ty id table.
  destruct (run_from_tidy _ evs1 [] (__init__ tank turret target) widgets []
              (distinct_tables _ _ _ H1 H2 H3)
              (tidy_init tank turret target widgets))
    as (self1 & widgets1 & emitted1 & E1 & Htab1 & Ht1 & _).
  { intros ty' id' d. destruct ty'; cbn; rewrite lookup_empty; discriminate. }
  { constructor. }
  cbn [_tables __init__] in Htab1.
  assert (Hinj1 : forall a b,
             get (_tables self1) a = get (_tables self1) b -> a = b).
  { rewrite Htab1. exact (distinct_tables _ _ _ H1 H2 H3). }
  destruct (update_device_tidy _ self1 widgets1 device Hinj1 Ht1)
    as (self2 & widgets2 & E2 & Htab2 & _ & _ & Ht2).
  destruct (update_device_paints _ self1 widgets1 device _ _ Ht1 E2)
    as (row & r & Hrow & Hr & Hsh & _).
  exists row. intros evs2 Hall.
  assert (Hinj2 : forall a b,
             get (_tables self2) a = get (_tables self2) b -> a = b).
  { rewrite Htab2. exact Hinj1. }
  assert (Etab : get (_tables self2) ty = table).
  { rewrite Htab2, Htab1. reflexivity. }
  rewrite Htab1 in Hr. fold ty table in Hr. fold ty id in Hrow.
  rewrite <- Etab in Hr, Hall.
  destruct (run_from_keeps_shown _ ty id device row evs2 self2 widgets2
              (emitted1 ++ []) r Hinj2 Ht2 Hrow Hr Hsh Hall)
    as (self & widgets' & emitted & r' & E & Htab & Hrow' & Hr' & Hsh').
  exists self, widgets', emitted, r'.
  split.
  { unfold run. rewrite view_run_from_app, E1. cbn [run_from step].
    rewrite E2. exact E. }
  split; [exact Hrow'|]. split; [|exact Hsh'].
  rewrite Htab, Etab in Hr'. exact Hr'.
Qed.

Lemma row_shows_the_last_report_witness :
  exists self widgets' emitted r,
    run 0 1 2 empty_tables
        ([call_update_device target_3]
         ++ call_update_device tank_3
         :: [call_update_device target_3; item_changed 2 3 0 false;
             item_changed 0 2 0 true; call_enable_colors])
    = Done (self, widgets', emitted)
    /\ rows_get (get (_rows self) DeviceType.tank) 3 = Some 0%nat
    /\ widgets' 0%nat !! 0%nat = Some r
    /\ shows r tank_3.
Proof.
  destruct (row_shows_the_last_report 0 1 2 empty_tables
              [call_update_device target_3] tank_3
              ltac:(discriminate) ltac:(discriminate) ltac:(discriminate))
    as (row & H).
  destruct (H [] eq_refl) as (self0 & widgets0 & emitted0 & r0 & E0 & Hrow0 & _).
  injection E0 as <- <- <-. injection Hrow0 as <-.
  exact (H [call_update_device target_3; item_changed 2 3 0 false;
            item_changed 0 2 0 true; call_enable_colors] eq_refl).
Defined.

(** X21.  After any use of the view, a change of the mode box in the row of
    a device makes the view emit [set_mode] for that device with the mode
    that its last report did not have when the box disagrees with that
    report (ticked for a training device, cleared for a combat device), and
    emit nothing when the box agrees with it. *)
Theorem ticking_a_row_asks_for_the_other_mode
    tank turret target widgets evs :
  tank <> turret -> turret <> target -> tank <> target ->
  exists self widgets' emitted,
    run tank turret target widgets evs = Done (self, widgets', emitted)
    /\ forall ty id device,
         get (_devices self) ty !! id = Some device ->
         exists row,
           rows_get (get (_rows self) ty) id = Some row
           /\ forall check,
                _item_changed_callback self (get (_tables self) ty)
                  (Column.value Column.mode) row check
                = Done (match check, Device.mode device with
                        | true, DeviceMode.combat
                        | false, DeviceMode.training => None
                        | _, _ => Some (id, other (Device.mode device))
                        end).
Proof.
  intros H1 H2 H3.
  destruct (run_from_tidy _ evs [] (__init__ tank turret target) widgets []
              (distinct_tables _ _ _ H1 H2 H3)
              (tidy_init tank turret target widgets))
    as (self & widgets' & emitted & E & Htab & Ht & _).
  { intros ty id device. destruct ty; cbn; rewrite lookup_empty; discriminate. }
  { constructor. }
  exists self, widgets', emitted. split; [exact E|].
  intros ty id device Hd.
  assert (Hinj : forall a b,
             get (_tables self) a = get (_tables self) b -> a = b).
  { rewrite Htab. exact (distinct_tables _ _ _ H1 H2 H3). }
  destruct (item_changed_known _ self widgets' ty id device true Hinj Ht Hd)
    as (row & Hrow & _).
  exists row. split; [exact Hrow|]. intros check.
  destruct (item_changed_known _ self widgets' ty id device check Hinj Ht Hd)
    as (row' & Hrow' & Hcall).
  rewrite Hrow in Hrow'. injection Hrow' as <-. exact Hcall.
Qed.

Lemma ticking_a_row_asks_for_the_other_mode_witness :
  exists self widgets' emitted,
    run 0 1 2 empty_tables
        [call_update_device target_3; call_update_device tank_3]
    = Done (self, widgets', emitted)
    /\ _item_changed_callback self 0 3 0 true
       = Done (Some (3, DeviceMode.combat))
    /\ _item_changed_callback self 0 3 0 false = Done None.
Proof.
  destruct (ticking_a_row_asks_for_the_other_mode 0 1 2 empty_tables
              [call_update_device target_3; call_update_device tank_3]
              ltac:(discriminate) ltac:(discriminate) ltac:(discriminate))
    as (self & widgets' & emitted & E & H).
  exists self, widgets', emitted. split; [exact E|].
  injection E as <- <- <-. split; reflexivity.
Defined.

(** X22.  Every [set_mode] signal that the view emits names a device that
    was reported to it before and asks for the mode opposite to the one of
    a report about that device; in particular the view asks nothing about
    devices it has not been told of, whatever cells are reported as
    changed. *)
Theorem view_only_asks_about_reported_devices
    tank turret target widgets evs :
  tank <> turret -> turret <> target -> tank <> target ->
  exists self widgets' emitted,
    run tank turret target widgets evs = Done (self, widgets', emitted)
    /\ List.Forall (asked_of evs) emitted.
Proof.
  intros H1 H2 H3.
  destruct (run_from_tidy _ evs [] (__init__ tank turret target) widgets []
              (distinct_tables _ _ _ H1 H2 H3)
              (tidy_init tank turret target widgets))
    as (self & widgets' & emitted & E & _ & _ & _ & _ & He).
  { intros ty id device. destruct ty; cbn; rewrite lookup_empty; discriminate. }
  { constructor. }
  exists self, widgets', emitted. split; [exact E | exact He].
Qed.

Lemma view_only_asks_about_reported_devices_witness :
  exists self widgets' emitted,
    run 0 1 2 empty_tables
        [item_changed 0 3 0 true; call_update_device tank_3;
         item_changed 0 3 0 true; item_changed 1 3 0 true;
         item_changed 0 2 0 true]
    = Done (self, widgets', emitted)
    /\ emitted = [(3, DeviceMode.combat)].
Proof.
  destruct (view_only_asks_about_reported_devices 0 1 2 empty_tables
              [item_changed 0 3 0 true; call_update_device tank_3;
               item_changed 0 3 0 true; item_changed 1 3 0 true;
               item_changed 0 2 0 true]
              ltac:(discriminate) ltac:(discriminate) ltac:(discriminate))
    as (self & widgets' & emitted & E & H).
  exists self, widgets', emitted. split; [exact E|].
  injection E as <- <- <-. reflexivity.
Defined.

End DeviceViewFacts.
